(** * mask_ai.py: face boxes, landmark polylines and the batch loop

    A shallow embedding of [mask_ai.py] and the properties of it that its
    specification states.  The embedding follows the Python source function
    by function and keeps its names.

    - Python integers are [Z]; tuples and lists are Rocq lists indexed the
      way Python indexes them (negative indices count from the end, an index
      out of range raises [IndexError]).
    - Python floats are IEEE 754 binary64 values: [spec_float] with
      [prec = 53] and [emax = 1024], multiplied with [SFmul].
    - Exceptions are the [Raise] results of an error monad.
    - numpy arrays are objects in a store ([gmap] from locations to pixel
      grids); OpenCV draws into the array it is given, so drawing is a store
      update at the location of the argument.
    - dlib's detector and predictor, OpenCV's rasterisers and the file system
      are collaborators the module calls; they are the variables of a
      section.  What the program logs, asks of its collaborators and writes
      is recorded as a list of events. *)

From Stdlib Require Import ZArith Lia Bool String Ascii List.
From Stdlib Require Import Floats.SpecFloat.
From stdpp Require Import base list strings gmap pretty.

Open Scope Z_scope.

(** ** Exceptions and results *)

Inductive exn :=
  | IndexError | KeyError | OverflowError | ValueError
  | TypeError | AttributeError | SystemError.

Inductive result (A : Type) :=
  | Ok (a : A)
  | Raise (e : exn).
Arguments Ok {A} a.
Arguments Raise {A} e.

#[global] Instance result_ret : MRet result := fun A a => Ok a.
#[global] Instance result_bind : MBind result := fun A B k r =>
  match r with Ok a => k a | Raise e => Raise e end.

(** [for x in xs: s = f(s, x)] with exceptions. *)
Fixpoint foldlM {A S : Type} (f : S -> A -> result S) (xs : list A) (s : S) : result S :=
  match xs with
  | [] => Ok s
  | x :: xs' => s' ← f s x; foldlM f xs' s'
  end.

(** ** Python sequences *)

(** The position a Python index denotes in a sequence of [n] items. *)
Definition py_index (n : nat) (i : Z) : option nat :=
  let j := if i <? 0 then i + Z.of_nat n else i in
  if (0 <=? j) && (j <? Z.of_nat n) then Some (Z.to_nat j) else None.

(** [l[i]] *)
Definition py_getitem {A : Type} (l : list A) (i : Z) : result A :=
  match py_index (length l) i with
  | Some j => match l !! j with Some a => Ok a | None => Raise IndexError end
  | None => Raise IndexError
  end.

(** [l[i] = v] *)
Definition py_setitem {A : Type} (l : list A) (i : Z) (v : A) : result (list A) :=
  match py_index (length l) i with
  | Some j => Ok (<[j := v]> l)
  | None => Raise IndexError
  end.

(** A slice bound, adjusted to a sequence of [n] items. *)
Definition py_slice_bound (n : nat) (i : Z) : nat :=
  Z.to_nat (if i <? 0 then Z.max (i + Z.of_nat n) 0 else Z.min i (Z.of_nat n)).

(** [l[start:stop]] *)
Definition py_slice {A : Type} (l : list A) (start stop : Z) : list A :=
  let a := py_slice_bound (length l) start in
  let b := py_slice_bound (length l) stop in
  take (b - a)%nat (drop a l).

(** [range(a, b)] *)
Definition py_range (a b : Z) : list Z :=
  map (fun k => a + Z.of_nat k) (seq 0 (Z.to_nat (b - a))).

(** [enumerate(l)] *)
Definition enumerate {A : Type} (l : list A) : list (nat * A) :=
  zip (seq 0 (length l)) l.

(** ** Python strings *)

(** [s.endswith(suffix)] *)
Definition str_endswith (s suffix : string) : bool :=
  let n := String.length s in
  let k := String.length suffix in
  (k <=? n)%nat && String.eqb (substring (n - k) k s) suffix.

(** [s.endswith((suffix1, suffix2, ...))] *)
Definition str_endswith_any (s : string) (suffixes : list string) : bool :=
  existsb (str_endswith s) suffixes.

(** [s[:stop]] *)
Definition str_slice_to (s : string) (stop : Z) : string :=
  substring 0 (py_slice_bound (String.length s) stop) s.

(** [str(n)] of an integer *)
Definition str_int (n : Z) : string := pretty n.

(** [', '.join(l)] *)
Fixpoint str_join_comma (l : list string) : string :=
  match l with
  | [] => ""
  | [s] => s
  | s :: rest => s +:+ ", " +:+ str_join_comma rest
  end.

(** [str(t)] of a tuple of integers *)
Definition str_tuple (t : list Z) : string :=
  match t with
  | [n] => "(" +:+ str_int n +:+ ",)"
  | _ => "(" +:+ str_join_comma (map str_int t) +:+ ")"
  end.

(** ** binary64 arithmetic and [round] *)

Definition prec : Z := 53.
Definition emax : Z := 1024.

(** The literals [.50] and [.75]. *)
Definition c050 : spec_float := Eval cbv in binary_normalize prec emax 1 (-1) false.
Definition c075 : spec_float := Eval cbv in binary_normalize prec emax 3 (-2) false.

(** An [int] operand of a float product is converted to the nearest double;
    an [int] beyond the largest double raises. *)
Definition float_of_int (n : Z) : result spec_float :=
  match binary_normalize prec emax n 0 false with
  | S754_infinity _ => Raise OverflowError
  | f => Ok f
  end.

(** [c * n] for a float [c] and an int [n]. *)
Definition float_mul_int (c : spec_float) (n : Z) : result spec_float :=
  f ← float_of_int n; Ok (SFmul prec emax c f).

(** The integer nearest to [n / d], the even one of the two when [n / d] lies
    halfway between them ([0 < d]). *)
Definition round_half_even (n d : Z) : Z :=
  let q := n / d in
  let r := n mod d in
  match 2 * r ?= d with
  | Lt => q
  | Gt => q + 1
  | Eq => if Z.even q then q else q + 1
  end.

(** [round(x)] of a float, with one argument: the nearest integer, ties to
    even, as an [int]; infinities and NaN raise. *)
Definition float_round (x : spec_float) : result Z :=
  match x with
  | S754_zero _ => Ok 0
  | S754_finite s m (Zneg k) => Ok (cond_Zopp s (round_half_even (Zpos m) (2 ^ Zpos k)))
  | S754_finite s m e => Ok (cond_Zopp s (Zpos m * 2 ^ e))
  | S754_infinity _ => Raise OverflowError
  | S754_nan => Raise ValueError
  end.

(** [round(c * n)] *)
Definition round_float_mul_int (c : spec_float) (n : Z) : result Z :=
  x ← float_mul_int c n; float_round x.

(** The last step of [binary_round_aux], on the shifted mantissa. *)
Definition finish_round (s : bool) (mrs_e : shr_record * Z) : spec_float :=
  let '(mrs, e) := mrs_e in
  match shr_m mrs with
  | Z0 => S754_zero s
  | Zpos m => if e <=? emax - prec then S754_finite s m e else S754_infinity s
  | Zneg _ => S754_nan
  end.

(** ** Module constants *)

(** [face_polyline_segments]: a dict, kept as the list of its items in
    insertion order. *)
Definition face_polyline_segments : list (string * list (list Z)) :=
  [ ("full"%string,
      [ [27; 22; 21; 20; 19; 18; 17; 0; 1; 2; 3; 4; 5; 6; 7; 8; 9; 10; 11; 12;
         13; 14; 15; 16; 26; 25; 24; 23; 22];
        [0; 36; 17; 37; 18; 38; 20]; [38; 19];
        [21; 38; 37; 36; 41; 40; 39; 38];
        [39; 27; 31; 40; 1; 31; 3; 48; 5; 58; 59; 48; 31; 39];
        [21; 27; 28; 29; 30; 33; 32; 31; 51; 50; 49; 48]; [31; 30; 35];
        [60; 61; 62; 63; 64; 65; 66; 67; 60];
        [8; 58; 57; 56; 8];
        [56; 55; 54; 53; 52; 51];
        [51; 33; 34; 35; 51]; [35; 54];
        [56; 11; 54; 13; 35; 15; 47; 35; 42; 27; 35];
        [42; 47; 46; 45; 44; 43; 42];
        [16; 45; 26; 44; 25; 43; 24]; [22; 43; 23] ]);
    ("partial"%string,
      [ py_range 0 17;
        [8; 48; 31; 30; 35; 54; 8];
        py_range 60 68; [67; 60];
        py_range 17 27; [0; 17]; [16; 26];
        [31; 39; 21]; [35; 42; 22] ]) ].

Definition colors_bgr : list (list Z) := [[255; 0; 255]; [0; 255; 255]; [255; 0; 0]].

Definition line_thickness : Z := 3.
Definition dot_thickness : Z := 15.

(** [d.keys()] *)
Definition dict_keys {V : Type} (d : list (string * V)) : list string := map fst d.

(** [d[key]] *)
Fixpoint dict_getitem {V : Type} (d : list (string * V)) (key : string) : result V :=
  match d with
  | [] => Raise KeyError
  | (k, v) :: d' => if String.eqb k key then Ok v else dict_getitem d' key
  end.

(** ** dlib values *)

(** A [dlib.rectangle]. *)
Record rect := { rect_left : Z; rect_top : Z; rect_right : Z; rect_bottom : Z }.

(** A [dlib.point], one part of a [full_object_detection]. *)
Record point := { point_x : Z; point_y : Z }.

(** ** The functions without effects *)

(** [np.reshape(a, (-1, 2))] of the items of [a] laid out in a row. *)
Fixpoint rows_of_2 (flat : list Z) : result (list (list Z)) :=
  match flat with
  | [] => Ok []
  | x :: y :: rest => rows ← rows_of_2 rest; Ok ([x; y] :: rows)
  | [_] => Raise ValueError
  end.

Definition np_reshape_rows_2 (a : list (Z * Z)) : result (list (list Z)) :=
  rows_of_2 (concat (map (fun c => [c.1; c.2]) a)).

Definition define_polylines (landmarks : list point) (face_polyline_segment : list (list Z))
  : result (list (list (list Z))) :=
  let coors := map (fun p => (point_x p, point_y p)) landmarks in
  foldlM (fun polylines segment =>
      segment_coors ← foldlM (fun segment_coors point =>
          c ← py_getitem coors point;
          Ok (segment_coors ++ [c])) segment [];
      segment_coors ← np_reshape_rows_2 segment_coors;
      Ok (polylines ++ [segment_coors]))
    face_polyline_segment [].

Definition edit_boundaries (boundaries img_shape : list Z) : result (list Z) :=
  let edited := boundaries in
  e3 ← py_getitem edited 3; e1 ← py_getitem edited 1;
  let length := e3 - e1 in
  e2 ← py_getitem edited 2; e0 ← py_getitem edited 0;
  let width := e2 - e0 in
  b0 ← py_getitem boundaries 0; d ← round_float_mul_int c050 width;
  edited ← py_setitem edited 0 (b0 - d);
  b1 ← py_getitem boundaries 1; d ← round_float_mul_int c075 length;
  edited ← py_setitem edited 1 (b1 - d);
  b2 ← py_getitem boundaries 2; d ← round_float_mul_int c050 width;
  edited ← py_setitem edited 2 (b2 + d);
  b3 ← py_getitem boundaries 3; d ← round_float_mul_int c050 length;
  edited ← py_setitem edited 3 (b3 + d);
  x0 ← py_getitem edited 0; x1 ← py_getitem edited 1;
  x2 ← py_getitem edited 2; s1 ← py_getitem img_shape 1;
  x3 ← py_getitem edited 3; s0 ← py_getitem img_shape 0;
  Ok [Z.max x0 0; Z.max x1 0; Z.min x2 s1; Z.min x3 s0].

Definition rect_to_tuple (face : rect) : list Z :=
  [rect_left face; rect_top face; rect_right face; rect_bottom face].

(** ** Images, the store and the trace *)

(** A pixel is the list of its channel values (blue, green, red); an image
    is the list of its rows, as [cv2.imread(file, 1)] loads it. *)
Definition pixel := list Z.
Definition image := list (list pixel).

(** [img.shape] of a loaded image: [(row_count, col_count, 3)]. *)
Definition shape (img : image) : list Z :=
  [Z.of_nat (length img); Z.of_nat (length (hd [] img)); 3].

(** [img[top:bottom, left:right]] *)
Definition crop (img : image) (top bottom left right : Z) : image :=
  map (fun row => py_slice row left right) (py_slice img top bottom).

Abbreviation loc := positive (only parsing).
Abbreviation heap := (gmap positive image) (only parsing).

(** What the Python variable of an image holds: an array object, or [None]
    (what [cv2.imread] returns for a file it cannot read). *)
Definition ndarray_ref := option loc.

Inductive event :=
  | LogInfo (msg : string)
  | Detect (img : image)
  | Predict (img : image) (face_rect : rect)
  | ImWrite (file : list string) (img : image).

(** A computation reads and updates the store, appends to the trace and
    returns or raises. *)
Definition M (A : Type) : Type := heap -> result A * heap * list event.

#[global] Instance M_ret : MRet M := fun A a h => (Ok a, h, []).
#[global] Instance M_bind : MBind M := fun A B k m h =>
  match m h with
  | (Ok a, h', ev) => let '(r, h'', ev') := k a h' in (r, h'', ev ++ ev')
  | (Raise e, h', ev) => (Raise e, h', ev)
  end.

Definition lift {A : Type} (r : result A) : M A := fun h => (r, h, []).
Definition raise {A : Type} (e : exn) : M A := lift (Raise e).
Definition emit (e : event) : M unit := fun h => (Ok tt, h, [e]).

(** A new array object holding [img]. *)
Definition alloc (img : image) : M loc := fun h =>
  let l := fresh (dom h) in (Ok l, <[l := img]> h, []).

Definition read (l : loc) : M image := fun h =>
  match h !! l with
  | Some img => (Ok img, h, [])
  | None => (Raise SystemError, h, [])
  end.

Definition write (l : loc) (img : image) : M unit := fun h =>
  (Ok tt, <[l := img]> h, []).

(** [for x in xs: body] *)
Fixpoint for_ {A : Type} (xs : list A) (body : A -> M unit) : M unit :=
  match xs with
  | [] => mret tt
  | x :: xs' => body x ;; for_ xs' body
  end.

(** [logging.info(msg)] *)
Definition logging_info (msg : string) : M unit := emit (LogInfo msg).

(** [copy.copy(img)] of an array: a new array with the same content. *)
Definition copy_copy (img : loc) : M loc := content ← read img; alloc content.

(** [img.shape] *)
Definition ndarray_shape (img : ndarray_ref) : M (list Z) :=
  match img with
  | Some l => content ← read l; mret (shape content)
  | None => raise AttributeError
  end.

(** [img[top:bottom, left:right]].  numpy returns a view of [img]; nothing is
    ever written through it or through [img], so the view is the array of
    its content. *)
Definition ndarray_crop (img : ndarray_ref) (top bottom left right : Z) : M loc :=
  match img with
  | Some l => content ← read l; alloc (crop content top bottom left right)
  | None => raise TypeError
  end.

Section Collaborators.
(** The directory of the module and the [--dir] argument. *)
Variables path dir : string.
(** [os.listdir] and [cv2.imread], on the components given to
    [os.path.join]. *)
Variable os_listdir : list string -> list string.
Variable cv2_imread : list string -> option image.
(** dlib's frontal face detector (with one upsampling) and the 68 point
    shape predictor (the parts of the detection it returns). *)
Variable face_detector : image -> list rect.
Variable landmarks_predictor : image -> rect -> list point.
(** What [cv2.circle(img, center, radius, color, thickness)] and
    [cv2.polylines(img, pts, isClosed, color, thickness, lineType)] leave
    in the buffer of [img]. *)
Variable cv2_circle : image -> Z * Z -> Z -> list Z -> Z -> image.
Variable cv2_polylines : image -> list (list (list Z)) -> bool -> list Z -> Z -> Z -> image.

Definition cv2_LINE_AA : Z := 16.

(** [cv2.imwrite(file, img)] *)
Definition cv2_imwrite (file : list string) (img : loc) : M unit :=
  content ← read img; emit (ImWrite file content).

Definition draw_landmarks (face_img : loc) (landmarks : list point)
    (colors : list Z) (thickness : Z) : M loc :=
  let coors := map (fun p => (point_x p, point_y p)) landmarks in
  for_ coors (fun coor =>
    content ← read face_img;
    write face_img (cv2_circle content coor 1 colors thickness)) ;;
  mret face_img.

Definition draw_polylines (face_img : loc) (polylines : list (list (list Z)))
    (colors : list Z) (thickness : Z) : M loc :=
  content ← read face_img;
  write face_img (cv2_polylines content polylines false colors thickness cv2_LINE_AA) ;;
  let face_img_lined := face_img in
  mret face_img_lined.

Definition get_landmarks (img : loc) (face_rect : rect) : M (list point) :=
  content ← read img;
  emit (Predict content face_rect) ;;
  let landmarks := landmarks_predictor content face_rect in
  mret landmarks.

Definition faces_detect (img : ndarray_ref) : M (list rect) :=
  match img with
  | Some l =>
      content ← read l;
      emit (Detect content) ;;
      let faces := face_detector content in
      mret faces
  | None => raise TypeError
  end.

Definition load_img (img_file : list string) : M ndarray_ref :=
  match cv2_imread img_file with
  | Some content => l ← alloc content; mret (Some l)
  | None => mret None
  end.

(** The body of the innermost loop of [main] (lines 201 to 217). *)
Definition main_body (filename : string) (img : ndarray_ref) (idx : nat)
    (face_rect : rect) (colors : list Z) (polyline_key : string) : M unit :=
  logging_info ("lines: " +:+ filename +:+ ", colors: " +:+ polyline_key) ;;
  let boundaries := rect_to_tuple face_rect in
  img_shape ← ndarray_shape img;
  bound_edit ← lift (edit_boundaries boundaries img_shape);
  top ← lift (py_getitem bound_edit 1);
  bottom ← lift (py_getitem bound_edit 3);
  left ← lift (py_getitem bound_edit 0);
  right ← lift (py_getitem bound_edit 2);
  face_img ← ndarray_crop img top bottom left right;
  face_rect_edit ← faces_detect (Some face_img);
  first ← lift (py_getitem face_rect_edit 0);
  landmarks ← get_landmarks face_img first;
  segments ← lift (dict_getitem face_polyline_segments polyline_key);
  polylines ← lift (define_polylines landmarks segments);
  copied ← copy_copy face_img;
  img_lined ← draw_polylines copied polylines colors line_thickness;
  cv2_imwrite [path; dir; "faces"%string;
               str_slice_to filename (-4) +:+ "_" +:+ polyline_key +:+ "_"
               +:+ str_tuple colors +:+ "_" +:+ str_int (Z.of_nat idx) +:+ ".jpg"]
              img_lined ;;
  if String.eqb polyline_key "full" then
    copied ← copy_copy face_img;
    img_dotted ← draw_landmarks copied landmarks colors dot_thickness;
    cv2_imwrite [path; dir; "faces"%string;
                 str_slice_to filename (-4) +:+ "_" +:+ polyline_key +:+ "_"
                 +:+ "dots" +:+ "_" +:+ str_tuple colors +:+ "_"
                 +:+ str_int (Z.of_nat idx) +:+ ".jpg"]
                img_dotted
  else mret tt.

(** The body of the loop over the files (lines 193 to 217). *)
Definition main_file (filename : string) : M unit :=
  if str_endswith_any filename ["jpg"; "JPG"]%string then
    logging_info ("processing: " +:+ filename) ;;
    img ← load_img [path; dir; filename];
    faces_rect ← faces_detect img;
    if bool_decide (faces_rect <> []) then
      for_ (enumerate faces_rect) (fun '(idx, face_rect) =>
        for_ colors_bgr (fun colors =>
          for_ (dict_keys face_polyline_segments) (fun polyline_key =>
            main_body filename img idx face_rect colors polyline_key)))
    else mret tt
  else mret tt.

Definition main : M unit :=
  for_ (os_listdir [path; dir]) main_file.
End Collaborators.

(** ** The specification's formulations *)

(** [expand] of section 4.1: the box grown by [round(0.50 * width)] to the
    left and right, [round(0.75 * height)] to the top and
    [round(0.50 * height)] to the bottom, then clamped to the image. *)
Definition expand (left top right bottom rowCount colCount : Z) : list Z :=
  let width := right - left in
  let height := bottom - top in
  let newLeft := left - round_half_even (50 * width) 100 in
  let newTop := top - round_half_even (75 * height) 100 in
  let newRight := right + round_half_even (50 * width) 100 in
  let newBottom := bottom + round_half_even (50 * height) 100 in
  [Z.max newLeft 0; Z.max newTop 0; Z.min newRight colCount; Z.min newBottom rowCount].

(** A box is degenerate when it has no column or no row. *)
Definition degenerate (box : list Z) : Prop :=
  match box with
  | [newLeft; newTop; newRight; newBottom] => newRight <= newLeft \/ newBottom <= newTop
  | _ => False
  end.

(** Lower case of the letters A to Z. *)
Definition ascii_lower (c : ascii) : ascii :=
  let n := nat_of_ascii c in
  if (65 <=? n)%nat && (n <=? 90)%nat then ascii_of_nat (n + 32) else c.

Fixpoint str_lower (s : string) : string :=
  match s with
  | EmptyString => EmptyString
  | String c s' => String (ascii_lower c) (str_lower s')
  end.

(** The extension filter of section 6: a name that ends with [jpg] in any
    casing. *)
Definition ends_with_jpg_ignoring_case (filename : string) : bool :=
  str_endswith (str_lower filename) "jpg".

(** The names of the files written for one face, colour and topology
    (section 6): [{basename}_{topologyKey}_{color}_{faceIndex}.jpg] and
    [{basename}_full_dots_{color}_{faceIndex}.jpg]. *)
Definition lines_file_name (filename polyline_key : string) (colors : list Z) (idx : nat)
  : string :=
  str_slice_to filename (-4) +:+ "_" +:+ polyline_key +:+ "_"
  +:+ str_tuple colors +:+ "_" +:+ str_int (Z.of_nat idx) +:+ ".jpg".

Definition dots_file_name (filename polyline_key : string) (colors : list Z) (idx : nat)
  : string :=
  str_slice_to filename (-4) +:+ "_" +:+ polyline_key +:+ "_" +:+ "dots" +:+ "_"
  +:+ str_tuple colors +:+ "_" +:+ str_int (Z.of_nat idx) +:+ ".jpg".

(** Machine integers: dlib holds the coordinates of a rectangle in C longs
    and numpy the dimensions of an array in [Py_ssize_t]. *)
Definition int64_range (z : Z) : Prop := - 2 ^ 63 <= z < 2 ^ 63.

(** Coordinates of pixels.  The row and column counts of an OpenCV image
    are 32-bit integers and dlib reports its rectangles around the image; the
    range taken here is wider.  Inside it the widths and heights are below
    [2 ^ 52], so that the binary64 products [.50 * width] and [.75 * length]
    of [edit_boundaries] are exact. *)
Definition pixel_range (z : Z) : Prop := - 2 ^ 50 <= z <= 2 ^ 50.

(** The events of a trace that write a file. *)
Definition is_write (e : event) : bool :=
  match e with ImWrite _ _ => true | _ => false end.

(** A computation raises from a given store. *)
Definition raises {A : Type} (m : M A) (h : heap) : Prop :=
  exists e h' ev, m h = (Raise e, h', ev).

(** A computation leaves every array of the store it starts from as it is. *)
Definition grows {A : Type} (m : M A) : Prop :=
  forall h r h' ev, m h = (r, h', ev) -> h ⊆ h'.

(** ** A small world for concrete runs

    Square black images, a detector that answers by the size of the image, a
    predictor that returns 68 points and rasterisers that paint the pixels
    under the points they are given: the centre of a circle, and the points
    of every polyline that has a segment to draw (two points or more, or one
    point when the polyline is closed). *)

Definition toy_image (n : nat) : image := replicate n (replicate n [0; 0; 0]).

Definition toy_listdir (components : list string) : list string :=
  ["a.jpg"; "b.jpg"]%string.

Definition toy_imread (file : list string) : option image :=
  match last file with
  | Some name =>
      if String.eqb name "a.jpg" then Some (toy_image 6)
      else if String.eqb name "b.jpg" then Some (toy_image 8)
      else None
  | None => None
  end.

Definition toy_detector (img : image) : list rect :=
  match length img with
  | 8%nat => [ {| rect_left := 2; rect_top := 2; rect_right := 6; rect_bottom := 6 |};
               {| rect_left := 1; rect_top := 1; rect_right := 7; rect_bottom := 7 |} ]
  | 6%nat => [ {| rect_left := 2; rect_top := 2; rect_right := 4; rect_bottom := 4 |} ]
  | _ => []
  end.

Definition toy_predictor (img : image) (face_rect : rect) : list point :=
  map (fun k => {| point_x := rect_left face_rect + Z.of_nat k mod 4;
                   point_y := rect_top face_rect + Z.of_nat k / 17 |}) (seq 0 68).

Definition paint (color : list Z) (img : image) (center : Z * Z) : image :=
  if (0 <=? center.1) && (0 <=? center.2) then
    alter (fun row => <[Z.to_nat center.1 := color]> row) (Z.to_nat center.2) img
  else img.

Definition toy_circle (img : image) (center : Z * Z) (radius : Z)
    (color : list Z) (thickness : Z) : image :=
  paint color img center.

Definition toy_polylines (img : image) (pts : list (list (list Z))) (isClosed : bool)
    (color : list Z) (thickness lineType : Z) : image :=
  foldl (fun acc polyline =>
           if isClosed || (2 <=? length polyline)%nat then
             foldl (fun acc row =>
                      match row with
                      | [x; y] => paint color acc (x, y)
                      | _ => acc
                      end) acc polyline
           else acc) img pts.

Definition toy_face : rect :=
  {| rect_left := 2; rect_top := 2; rect_right := 6; rect_bottom := 6 |}.

Definition toy_landmarks : list point := toy_predictor (toy_image 8) toy_face.

Definition toy_main : M unit :=
  main "/srv" "photos" toy_listdir toy_imread toy_detector toy_predictor
       toy_circle toy_polylines.

(** The same run on a directory that holds [b.jpg] only. *)
Definition toy_main_b : M unit :=
  main "/srv" "photos" (fun _ => ["b.jpg"%string]) toy_imread toy_detector toy_predictor
       toy_circle toy_polylines.

(** ** Further notions *)

(** The indices Python accepts for a sequence of [n] items. *)
Definition py_valid_index (n : nat) (i : Z) : Prop := - Z.of_nat n <= i < Z.of_nat n.

(** An image whose rows all hold [cols] pixels. *)
Definition rectangular (cols : nat) (img : image) : Prop :=
  Forall (fun row => length row = cols) img.

Definition is_detect (e : event) : bool :=
  match e with Detect _ => true | _ => false end.

Definition is_predict (e : event) : bool :=
  match e with Predict _ _ => true | _ => false end.

(** How many events of a kind a trace holds. *)
Definition count_events (kind : event -> bool) (ev : list event) : nat :=
  length (List.filter kind ev).

(** The files of a trace, in the order they are written. *)
Definition written_files (ev : list event) : list (list string) :=
  omap (fun e => match e with ImWrite file _ => Some file | _ => None end) ev.

(** A face of a loaded image for which every iteration of the loop body
    goes through: the box is computed, the second detection finds a face in
    the crop and the predictor returns at least 68 points for it. *)
Definition drawable (face_detector : image -> list rect)
    (landmarks_predictor : image -> rect -> list point)
    (content : image) (face_rect : rect) : Prop :=
  exists newLeft newTop newRight newBottom first others,
    edit_boundaries (rect_to_tuple face_rect) (shape content)
    = Ok [newLeft; newTop; newRight; newBottom]
    /\ face_detector (crop content newTop newBottom newLeft newRight) = first :: others
    /\ (68 <= length (landmarks_predictor
                        (crop content newTop newBottom newLeft newRight) first))%nat.

(** The drawings the loops of [main] make for one face, in the order of the
    loops: a colour, a topology key and whether the points are drawn rather
    than the lines; the points are drawn for the [full] topology only. *)
Definition drawings : list (list Z * string * bool) :=
  colors ← colors_bgr;
  polyline_key ← dict_keys face_polyline_segments;
  (colors, polyline_key, false)
  :: (if String.eqb polyline_key "full" then [(colors, polyline_key, true)] else []).

(** The file a drawing is written to (lines 211 to 212 and 216 to 217). *)
Definition file_of_drawing (path dir filename : string) (idx : nat)
    (drawing : list Z * string * bool) : list string :=
  let '(colors, polyline_key, dots) := drawing in
  [path; dir; "faces"%string;
   if dots then dots_file_name filename polyline_key colors idx
   else lines_file_name filename polyline_key colors idx].

Definition files_of_face (path dir filename : string) (idx : nat) : list (list string) :=
  file_of_drawing path dir filename idx <$> drawings.

(** * Properties *)

(** ** Rounding to the nearest integer *)

Lemma round_half_even_scale n d k :
  0 < d -> 0 < k -> round_half_even (n * k) (d * k) = round_half_even n d.
Proof.
  intros Hd Hk. unfold round_half_even.
  rewrite Z.div_mul_cancel_r by lia.
  rewrite Zmult_mod_distr_r.
  destruct (Z.compare_spec (2 * (n mod d)) d) as [E|E|E];
    destruct (Z.compare_spec (2 * (n mod d * k)) (d * k)) as [E'|E'|E'];
    try reflexivity; exfalso; nia.
Qed.

Lemma round_half_even_opp n d :
  0 < d -> round_half_even (- n) d = - round_half_even n d.
Proof.
  intros Hd. unfold round_half_even.
  destruct (Z.eq_dec (n mod d) 0) as [Hz|Hnz].
  - rewrite Z.mod_opp_l_z, Hz by lia. rewrite Z.div_opp_l_z by lia.
    destruct (Z.compare_spec (2 * 0) d) as [E|E|E]; lia.
  - rewrite Z.mod_opp_l_nz by lia. rewrite Z.div_opp_l_nz by lia.
    pose proof (Z.mod_pos_bound n d Hd) as Hb.
    destruct (Z.compare_spec (2 * (n mod d)) d) as [E|E|E];
    destruct (Z.compare_spec (2 * (d - n mod d)) d) as [E'|E'|E']; try lia.
    replace (- (n / d) - 1) with (- (n / d + 1)) by ring.
    rewrite !Z.even_opp. rewrite Z.even_add. simpl.
    destruct (Z.even (n / d)); simpl; lia.
Qed.

(** ** binary64: products that are exact *)

Lemma digits2_pos_bounds p :
  2 ^ (Zpos (digits2_pos p) - 1) <= Zpos p < 2 ^ Zpos (digits2_pos p).
Proof.
  induction p as [p IH|p IH|]; cbn [digits2_pos].
  - rewrite Pos2Z.inj_succ.
    replace (Z.succ (Zpos (digits2_pos p)) - 1) with (Z.succ (Zpos (digits2_pos p) - 1)) by lia.
    rewrite !Z.pow_succ_r by lia. lia.
  - rewrite Pos2Z.inj_succ.
    replace (Z.succ (Zpos (digits2_pos p)) - 1) with (Z.succ (Zpos (digits2_pos p) - 1)) by lia.
    rewrite !Z.pow_succ_r by lia. lia.
  - simpl. lia.
Qed.

Lemma digits2_pos_unique p d :
  2 ^ (d - 1) <= Zpos p < 2 ^ d -> Zpos (digits2_pos p) = d.
Proof.
  intros [Hlo Hhi]. pose proof (digits2_pos_bounds p) as [Blo Bhi].
  set (D := Zpos (digits2_pos p)) in *.
  assert (0 < d).
  { destruct (Z.lt_ge_cases 0 d) as [|Hd]; [done|].
    assert (2 ^ d <= 2 ^ 0) by (apply Z.pow_le_mono_r; lia). simpl in *. lia. }
  destruct (Z.lt_trichotomy D d) as [Hlt|[Heq|Hgt]]; [|done|].
  - assert (2 ^ D <= 2 ^ (d - 1)) by (apply Z.pow_le_mono_r; lia). lia.
  - assert (2 ^ d <= 2 ^ (D - 1)) by (apply Z.pow_le_mono_r; lia). lia.
Qed.

Lemma iter_xO_value p k : Zpos (Pos.iter xO p k) = Zpos p * 2 ^ Zpos k.
Proof.
  induction k as [|k IH] using Pos.peano_ind.
  - simpl. lia.
  - rewrite Pos.iter_succ, Pos2Z.inj_succ, Z.pow_succ_r by lia.
    rewrite Pos2Z.inj_xO, IH. ring.
Qed.

Lemma shr_iter_xO q k :
  SpecFloat.iter_pos shr_1 k {| shr_m := Zpos (Pos.iter xO q k); shr_r := false; shr_s := false |}
  = {| shr_m := Zpos q; shr_r := false; shr_s := false |}.
Proof.
  revert q. induction k as [k IH|k IH|]; intros q; cbn [SpecFloat.iter_pos Pos.iter].
  - cbn [shr_1 orb]. rewrite IH. apply IH.
  - rewrite IH. apply IH.
  - reflexivity.
Qed.

Lemma digits2_iter_xO q k :
  Zpos (digits2_pos (Pos.iter xO q k)) = Zpos (digits2_pos q) + Zpos k.
Proof.
  apply digits2_pos_unique. rewrite iter_xO_value.
  pose proof (digits2_pos_bounds q) as [Blo Bhi].
  replace (Zpos (digits2_pos q) + Zpos k - 1) with ((Zpos (digits2_pos q) - 1) + Zpos k) by lia.
  rewrite !Z.pow_add_r by lia.
  assert (0 < 2 ^ Zpos k) by (apply Z.pow_pos_nonneg; lia). nia.
Qed.

Lemma binary_round_aux_unfold s m e l :
  binary_round_aux prec emax s m e l =
  let '(mrs', e') := shr_fexp prec emax m e l in
  finish_round s
    (shr_fexp prec emax (round_nearest_even (shr_m mrs') (loc_of_shr_record mrs')) e' loc_Exact).
Proof.
  unfold binary_round_aux, finish_round.
  destruct (shr_fexp prec emax m e l) as [mrs' e'].
  destruct (shr_fexp prec emax _ e' loc_Exact) as [mrs'' e'']. reflexivity.
Qed.

Lemma shr_fexp_normal q e :
  Zpos (digits2_pos q) = prec -> 3 - emax - prec <= e ->
  shr_fexp prec emax (Zpos q) e loc_Exact
  = ({| shr_m := Zpos q; shr_r := false; shr_s := false |}, e).
Proof.
  intros Hq He. unfold shr_fexp, fexp, emin. cbn [Zdigits2 shr_record_of_loc].
  rewrite Hq.
  replace (Z.max (prec + e - prec) (3 - emax - prec) - e) with 0 by lia.
  reflexivity.
Qed.

(** A mantissa that already has [prec] digits is kept as it is. *)
Lemma binary_round_aux_normal s q e :
  Zpos (digits2_pos q) = prec -> 3 - emax - prec <= e <= emax - prec ->
  binary_round_aux prec emax s (Zpos q) e loc_Exact = S754_finite s q e.
Proof.
  intros Hq He. rewrite binary_round_aux_unfold.
  rewrite shr_fexp_normal by (done || lia).
  cbn [shr_m loc_of_shr_record round_nearest_even].
  rewrite shr_fexp_normal by (done || lia).
  unfold finish_round. cbn [shr_m].
  destruct (Z.leb_spec e (emax - prec)); [done|lia].
Qed.

(** Trailing zero bits beyond [prec] digits are shifted out without loss. *)
Lemma binary_round_aux_exact s q k e :
  Zpos (digits2_pos q) = prec ->
  3 - emax - prec <= e + Zpos k <= emax - prec ->
  binary_round_aux prec emax s (Zpos (Pos.iter xO q k)) e loc_Exact
  = S754_finite s q (e + Zpos k).
Proof.
  intros Hq He. rewrite binary_round_aux_unfold.
  unfold shr_fexp at 1. cbn [Zdigits2 shr_record_of_loc].
  rewrite digits2_iter_xO, Hq. unfold fexp at 1, emin.
  replace (Z.max (prec + Zpos k + e - prec) (3 - emax - prec) - e) with (Zpos k) by lia.
  cbn [shr]. rewrite shr_iter_xO.
  cbn [shr_m loc_of_shr_record round_nearest_even].
  rewrite shr_fexp_normal by (done || lia).
  unfold finish_round. cbn [shr_m].
  destruct (Z.leb_spec (e + Zpos k) (emax - prec)); [done|lia].
Qed.

Lemma binary_round_int s a :
  Zpos (digits2_pos a) <= prec ->
  exists q, binary_round prec emax s a 0 = S754_finite s q (Zpos (digits2_pos a) - prec)
    /\ Zpos q = Zpos a * 2 ^ (prec - Zpos (digits2_pos a))
    /\ Zpos (digits2_pos q) = prec.
Proof.
  intros HD. unfold binary_round, fexp, emin.
  pose proof (Pos2Z.is_pos (digits2_pos a)) as Hpos.
  replace (Z.max (Zpos (digits2_pos a) + 0 - prec) (3 - emax - prec))
    with (Zpos (digits2_pos a) - prec) by (unfold prec, emax in *; lia).
  unfold shl_align.
  destruct (Zpos (digits2_pos a) - prec - 0) as [|d|d] eqn:Hd.
  - exists a. replace (Zpos (digits2_pos a) - prec) with 0 by lia.
    replace (prec - Zpos (digits2_pos a)) with 0 by lia.
    split; [|split; [simpl; lia | lia]].
    apply binary_round_aux_normal; unfold prec, emax in *; lia.
  - lia.
  - assert (Hdv : Zpos d = prec - Zpos (digits2_pos a)) by lia.
    exists (Pos.iter xO a d). split; [|split].
    + apply binary_round_aux_normal; [rewrite digits2_iter_xO; lia|].
      unfold prec, emax in *; lia.
    + rewrite iter_xO_value, Hdv. reflexivity.
    + rewrite digits2_iter_xO. lia.
Qed.

Lemma SFmul_exact s1 m1 e1 s2 m2 e2 q k :
  Zpos m1 * Zpos m2 = Zpos q * 2 ^ Zpos k ->
  Zpos (digits2_pos q) = prec ->
  3 - emax - prec <= e1 + e2 + Zpos k <= emax - prec ->
  SFmul prec emax (S754_finite s1 m1 e1) (S754_finite s2 m2 e2)
  = S754_finite (xorb s1 s2) q (e1 + e2 + Zpos k).
Proof.
  intros Hm Hq He. cbn [SFmul].
  assert (Hmm : (m1 * m2)%positive = Pos.iter xO q k).
  { apply Pos2Z.inj. rewrite iter_xO_value, Pos2Z.inj_mul. exact Hm. }
  rewrite Hmm. apply binary_round_aux_exact; done.
Qed.

Section ScaledRound.
Variables cn dc mc : positive.
Hypothesis Hmc : Zpos mc = Zpos cn * 2 ^ (prec - Zpos dc).
Hypothesis Hdc : Zpos dc < prec.

Let c := S754_finite false mc (- prec).

Lemma digits2_pos_le_prec a : Zpos a < 2 ^ prec -> Zpos (digits2_pos a) <= prec.
Proof.
  intros Ha. pose proof (digits2_pos_bounds a) as [Blo _].
  destruct (Z.le_gt_cases (Zpos (digits2_pos a)) prec) as [|Hgt]; [done|].
  assert (2 ^ prec <= 2 ^ (Zpos (digits2_pos a) - 1)) by (apply Z.pow_le_mono_r; lia).
  lia.
Qed.

Lemma digits2_pos_mono a b : Zpos a <= Zpos b -> Zpos (digits2_pos a) <= Zpos (digits2_pos b).
Proof.
  intros Hab. pose proof (digits2_pos_bounds a) as [Alo _].
  pose proof (digits2_pos_bounds b) as [_ Bhi].
  destruct (Z.le_gt_cases (Zpos (digits2_pos a)) (Zpos (digits2_pos b))) as [|Hgt]; [done|].
  assert (2 ^ Zpos (digits2_pos b) <= 2 ^ (Zpos (digits2_pos a) - 1))
    by (apply Z.pow_le_mono_r; lia).
  lia.
Qed.

Lemma SFmul_const_int s a :
  Zpos cn * Zpos a < 2 ^ prec ->
  exists q e,
    SFmul prec emax c (binary_round prec emax s a 0) = S754_finite s q (Zneg e)
    /\ exists K, 0 < K /\ Zpos q = Zpos cn * Zpos a * K /\ 2 ^ Zpos e = 2 ^ Zpos dc * K.
Proof.
  intros Hb.
  assert (Ha : Zpos a < 2 ^ prec) by nia.
  destruct (binary_round_int s a (digits2_pos_le_prec a Ha)) as (q & -> & Hq & Hqd).
  pose proof (digits2_pos_le_prec (cn * a) Hb) as HD'.
  destruct (binary_round_int s (cn * a) HD') as (q' & _ & Hq' & Hq'd).
  assert (HDD : Zpos (digits2_pos a) <= Zpos (digits2_pos (cn * a))).
  { apply digits2_pos_mono. nia. }
  set (D := Zpos (digits2_pos a)) in *. set (D' := Zpos (digits2_pos (cn * a))) in *.
  assert (HDpos : 0 < D) by (subst D; lia).
  assert (HD'pos : 0 < D') by (subst D'; lia).
  set (k := prec - Zpos dc - D + D').
  assert (Hk : 0 < k) by (subst k; lia).
  assert (He : exists e, Zneg e = D' - Zpos dc - prec).
  { destruct (D' - Zpos dc - prec) as [|p|p] eqn:E; try lia. by exists p. }
  destruct He as [e He].
  exists q', e. split.
  - unfold c. rewrite (SFmul_exact false mc (- prec) s q (D - prec) q' (Z.to_pos k)).
    + simpl xorb. f_equal. rewrite Z2Pos.id by done. subst k. lia.
    + rewrite Z2Pos.id by done. rewrite Hmc, Hq, Hq', Pos2Z.inj_mul.
      replace (Zpos cn * 2 ^ (prec - Zpos dc) * (Zpos a * 2 ^ (prec - D)))
        with (Zpos cn * Zpos a * (2 ^ (prec - Zpos dc) * 2 ^ (prec - D))) by ring.
      replace (Zpos cn * Zpos a * 2 ^ (prec - D') * 2 ^ k)
        with (Zpos cn * Zpos a * (2 ^ (prec - D') * 2 ^ k)) by ring.
      rewrite <- !Z.pow_add_r by lia. do 2 f_equal. subst k. lia.
    + done.
    + rewrite Z2Pos.id by done. subst k. unfold prec, emax in *. lia.
  - exists (2 ^ (prec - D')). split; [apply Z.pow_pos_nonneg; lia|]. split.
    + rewrite Hq', Pos2Z.inj_mul. reflexivity.
    + rewrite <- Z.pow_add_r by lia. f_equal. lia.
Qed.

Lemma round_float_mul_int_exact n :
  Z.abs (Zpos cn * n) < 2 ^ prec ->
  round_float_mul_int c n = Ok (round_half_even (Zpos cn * n) (2 ^ Zpos dc)).
Proof.
  intros Hb. unfold round_float_mul_int, float_mul_int, float_of_int.
  assert (Hd : 0 < 2 ^ Zpos dc) by (apply Z.pow_pos_nonneg; lia).
  destruct n as [|a|a]; cbn [binary_normalize].
  - cbn. rewrite Z.mul_0_r. unfold round_half_even. rewrite Z.div_0_l, Zmod_0_l by lia.
    destruct (Z.compare_spec (2 * 0) (2 ^ Zpos dc)); [lia|done|lia].
  - destruct (SFmul_const_int false a) as (q & e & Hmul & K & HK & Hq & He); [lia|].
    pose proof Hmul as Hmul'. unfold c in Hmul'.
    destruct (binary_round prec emax false a 0) as [| | |s m e0] eqn:Hbr;
      try (cbn in Hmul'; discriminate).
    cbn [mbind result_bind]. fold c. rewrite Hmul. cbn [float_round cond_Zopp].
    rewrite Hq, He. rewrite round_half_even_scale by lia. reflexivity.
  - destruct (SFmul_const_int true a) as (q & e & Hmul & K & HK & Hq & He); [lia|].
    pose proof Hmul as Hmul'. unfold c in Hmul'.
    destruct (binary_round prec emax true a 0) as [| | |s m e0] eqn:Hbr;
      try (cbn in Hmul'; discriminate).
    cbn [mbind result_bind]. fold c. rewrite Hmul. cbn [float_round cond_Zopp].
    rewrite Hq, He. rewrite round_half_even_scale by lia.
    rewrite <- round_half_even_opp by lia. reflexivity.
Qed.
End ScaledRound.

Lemma round_half_times n :
  Z.abs n < 2 ^ prec -> round_float_mul_int c050 n = Ok (round_half_even n 2).
Proof.
  intros Hn. pose proof (round_float_mul_int_exact 1 1 4503599627370496 eq_refl eq_refl n) as H.
  replace (Zpos 1 * n) with n in H by lia. apply H. lia.
Qed.

Lemma round_three_quarters_times n :
  Z.abs (3 * n) < 2 ^ prec -> round_float_mul_int c075 n = Ok (round_half_even (3 * n) 4).
Proof.
  intros Hn. exact (round_float_mul_int_exact 3 2 6755399441055744 eq_refl eq_refl n Hn).
Qed.

(** ** [round_half_even]: sign and ties *)

Lemma round_half_even_nonneg n d : 0 <= n -> 0 < d -> 0 <= round_half_even n d.
Proof.
  intros Hn Hd. unfold round_half_even.
  assert (0 <= n / d) by (apply Z.div_pos; lia).
  destruct (2 * (n mod d) ?= d); [destruct (Z.even (n / d))|..]; lia.
Qed.

(** At a tie the result is even and lies half a unit from [n / d]. *)
Lemma round_half_even_tie n d :
  0 < d -> 2 * (n mod d) = d ->
  Z.even (round_half_even n d) = true
  /\ Z.abs (2 * (d * round_half_even n d - n)) = d.
Proof.
  intros Hd Htie. unfold round_half_even.
  rewrite Htie, Z.compare_refl.
  pose proof (Z.div_mod n d ltac:(lia)) as Hdm.
  destruct (Z.even (n / d)) eqn:Hev.
  - split; [done | nia].
  - split; [| nia].
    rewrite Z.even_add, Hev. reflexivity.
Qed.

Lemma round_half_even_percent n :
  round_half_even (50 * n) 100 = round_half_even n 2
  /\ round_half_even (75 * n) 100 = round_half_even (3 * n) 4.
Proof.
  split.
  - replace (50 * n) with (n * 50) by ring.
    exact (round_half_even_scale n 2 50 ltac:(lia) ltac:(lia)).
  - replace (75 * n) with (3 * n * 25) by ring.
    exact (round_half_even_scale (3 * n) 4 25 ltac:(lia) ltac:(lia)).
Qed.

(** ** Indexing *)

Lemma py_getitem_at {A : Type} (l : list A) (i : Z) (a : A) :
  0 <= i -> l !! Z.to_nat i = Some a -> py_getitem l i = Ok a.
Proof.
  intros Hi Hl. unfold py_getitem, py_index.
  pose proof (lookup_lt_Some _ _ _ Hl) as Hlt.
  destruct (Z.ltb_spec i 0); [lia|].
  destruct (Z.leb_spec 0 i); [|lia].
  destruct (Z.ltb_spec i (Z.of_nat (length l))); [|lia].
  cbn [andb]. rewrite Hl. reflexivity.
Qed.

Lemma py_setitem_at {A : Type} (l : list A) (i : Z) (v : A) :
  0 <= i < Z.of_nat (length l) -> py_setitem l i v = Ok (<[Z.to_nat i := v]> l).
Proof.
  intros Hi. unfold py_setitem, py_index.
  destruct (Z.ltb_spec i 0); [lia|].
  destruct (Z.leb_spec 0 i); [|lia].
  destruct (Z.ltb_spec i (Z.of_nat (length l))); [|lia].
  reflexivity.
Qed.

Lemma bind_Ok {A B : Type} (f : A -> result B) (a : A) : (Ok a ≫= f) = f a.
Proof. reflexivity. Qed.

(** Running the error monad on the next instruction. *)
Ltac run_result :=
  repeat first
    [ progress unfold mbind
    | progress cbn [result_bind]
    | erewrite py_getitem_at by (reflexivity || lia)
    | erewrite py_setitem_at by (cbn [length]; lia) ].

(** ** binary64: every product of a machine integer is finite *)

Lemma shr_1_m (r : shr_record) : 0 <= shr_m r -> shr_m (shr_1 r) = Z.div2 (shr_m r).
Proof. destruct r as [[|[p|p|]|p] rr ss]; cbn [shr_m]; [reflexivity..|lia]. Qed.

Lemma shr_iter_m (k : positive) :
  forall r : shr_record, 0 <= shr_m r ->
    shr_m (SpecFloat.iter_pos shr_1 k r) = shr_m r / 2 ^ Zpos k.
Proof.
  assert (Hstep : forall r : shr_record, 0 <= shr_m r ->
            shr_m (shr_1 r) = shr_m r / 2 /\ 0 <= shr_m (shr_1 r)).
  { intros r Hr. rewrite shr_1_m, Z.div2_div by exact Hr. split; [reflexivity|].
    apply Z.div_pos; lia. }
  assert (Hpos : forall a k', 0 <= a -> 0 <= a / 2 ^ Zpos k').
  { intros a k' Ha. apply Z.div_pos; [exact Ha|]. apply Z.pow_pos_nonneg; lia. }
  assert (HxO : forall k', 2 ^ Zpos k'~0 = 2 ^ Zpos k' * 2 ^ Zpos k').
  { intros k'. rewrite <- Z.pow_add_r by lia. f_equal. lia. }
  assert (HxI : forall k', 2 ^ Zpos k'~1 = 2 * (2 ^ Zpos k' * 2 ^ Zpos k')).
  { intros k'. rewrite <- Z.pow_add_r, <- Z.pow_succ_r by lia. f_equal. lia. }
  induction k as [k IH|k IH|]; intros r Hr; cbn [SpecFloat.iter_pos].
  - destruct (Hstep r Hr) as [H1 H1'].
    rewrite IH by (rewrite IH by exact H1'; apply Hpos; exact H1').
    rewrite IH by exact H1'. rewrite H1.
    rewrite !Z.div_div by (try apply Z.pow_pos_nonneg; lia).
    rewrite HxI. f_equal; ring.
  - rewrite IH by (rewrite IH by exact Hr; apply Hpos; exact Hr).
    rewrite IH by exact Hr.
    rewrite !Z.div_div by (try apply Z.pow_pos_nonneg; lia).
    rewrite HxO. reflexivity.
  - destruct (Hstep r Hr) as [H1 _]. rewrite H1. reflexivity.
Qed.

Lemma digits2_pos_le a d : Zpos a < 2 ^ d -> Zpos (digits2_pos a) <= d.
Proof.
  intros Ha. pose proof (digits2_pos_bounds a) as [Blo _].
  destruct (Z.le_gt_cases (Zpos (digits2_pos a)) d) as [|Hgt]; [done|].
  assert (2 ^ d <= 2 ^ (Zpos (digits2_pos a) - 1)) by (apply Z.pow_le_mono_r; lia).
  lia.
Qed.

Lemma digits2_pos_mul a b :
  Zpos (digits2_pos (a * b)) <= Zpos (digits2_pos a) + Zpos (digits2_pos b).
Proof.
  apply digits2_pos_le. rewrite Pos2Z.inj_mul, Z.pow_add_r by lia.
  pose proof (digits2_pos_bounds a) as [_ Ha]. pose proof (digits2_pos_bounds b) as [_ Hb].
  nia.
Qed.

Lemma digits2_pos_div m k :
  0 < k < Zpos (digits2_pos m) ->
  exists q, Zpos m / 2 ^ k = Zpos q /\ Zpos (digits2_pos q) = Zpos (digits2_pos m) - k.
Proof.
  intros Hk. pose proof (digits2_pos_bounds m) as [Blo Bhi].
  set (D := Zpos (digits2_pos m)) in *.
  assert (HP : 0 < 2 ^ k) by (apply Z.pow_pos_nonneg; lia).
  assert (Hlo : 2 ^ (D - 1 - k) <= Zpos m / 2 ^ k).
  { apply Z.div_le_lower_bound; [exact HP|].
    rewrite <- Z.pow_add_r by lia. replace (k + (D - 1 - k)) with (D - 1) by lia. exact Blo. }
  assert (Hhi : Zpos m / 2 ^ k < 2 ^ (D - k)).
  { apply Z.div_lt_upper_bound; [exact HP|].
    rewrite <- Z.pow_add_r by lia. replace (k + (D - k)) with D by lia. exact Bhi. }
  assert (0 < 2 ^ (D - 1 - k)) by (apply Z.pow_pos_nonneg; lia).
  destruct (Zpos m / 2 ^ k) as [|q|q] eqn:Hq; [lia| |lia].
  exists q. split; [reflexivity|]. apply digits2_pos_unique.
  replace (D - k - 1) with (D - 1 - k) by lia. lia.
Qed.

(** The first shift of [binary_round_aux] leaves a positive mantissa of at
    most [prec] digits. *)
Lemma shr_fexp_pos m e :
  3 - emax - prec <= e ->
  exists mrs q,
    shr_fexp prec emax (Zpos m) e loc_Exact
    = (mrs, e + Z.max (Zpos (digits2_pos m) - prec) 0)
    /\ shr_m mrs = Zpos q
    /\ Zpos (digits2_pos q) = Z.min (Zpos (digits2_pos m)) prec.
Proof.
  intros He. unfold shr_fexp, fexp, emin. cbn [Zdigits2 shr_record_of_loc].
  set (D := Zpos (digits2_pos m)).
  assert (HD : 0 < D) by (subst D; lia).
  destruct (Z.le_gt_cases D prec) as [Hle|Hgt].
  - exists {| shr_m := Zpos m; shr_r := false; shr_s := false |}, m.
    replace (e + Z.max (D - prec) 0) with e by lia.
    split; [|split; [reflexivity | subst D; lia]].
    unfold shr.
    destruct (Z.max (D + e - prec) (3 - emax - prec) - e) eqn:E; [reflexivity|lia|reflexivity].
  - replace (Z.max (D + e - prec) (3 - emax - prec) - e) with (D - prec) by lia.
    replace (e + Z.max (D - prec) 0) with (e + (D - prec)) by lia.
    destruct (D - prec) as [|k|k] eqn:Ek; [lia| |lia].
    destruct (digits2_pos_div m (Zpos k)) as (q & Hq & Hdq); [subst D; unfold prec in *; lia|].
    exists (SpecFloat.iter_pos shr_1 k {| shr_m := Zpos m; shr_r := false; shr_s := false |}), q.
    split; [reflexivity|]. split.
    + rewrite shr_iter_m by (cbn; lia). exact Hq.
    + rewrite Hdq. subst D. lia.
Qed.

Lemma round_nearest_even_pos q l :
  exists q', round_nearest_even (Zpos q) l = Zpos q' /\ Zpos q <= Zpos q' <= Zpos q + 1.
Proof.
  destruct l as [|[| |]]; cbn [round_nearest_even].
  - exists q. lia.
  - destruct (Z.even (Zpos q)); [exists q; lia | exists (q + 1)%positive; lia].
  - exists q. lia.
  - exists (q + 1)%positive. lia.
Qed.

(** Away from the largest and the smallest exponents, rounding a positive
    mantissa gives a finite number. *)
Lemma binary_round_aux_finite s m e :
  3 - emax - prec <= e ->
  e + Z.max (Zpos (digits2_pos m) - prec) 0 + 1 <= emax - prec ->
  exists q e',
    binary_round_aux prec emax s (Zpos m) e loc_Exact = S754_finite s q e'
    /\ Zpos (digits2_pos q) <= prec
    /\ e <= e' <= e + Z.max (Zpos (digits2_pos m) - prec) 0 + 1.
Proof.
  intros He Hmax. rewrite binary_round_aux_unfold.
  destruct (shr_fexp_pos m e He) as (mrs & q1 & -> & Hm1 & Hd1).
  rewrite Hm1.
  destruct (round_nearest_even_pos q1 (loc_of_shr_record mrs)) as (q2 & -> & Hq2).
  assert (Hd2 : Zpos (digits2_pos q2) <= prec + 1).
  { apply digits2_pos_le. pose proof (digits2_pos_bounds q1) as [_ Hb].
    assert (2 ^ Zpos (digits2_pos q1) <= 2 ^ prec) by (apply Z.pow_le_mono_r; lia).
    rewrite Z.pow_add_r, Z.pow_1_r by (unfold prec; lia). lia. }
  destruct (shr_fexp_pos q2 (e + Z.max (Zpos (digits2_pos m) - prec) 0) ltac:(lia))
    as (mrs3 & q3 & -> & Hm3 & Hd3).
  unfold finish_round. rewrite Hm3.
  pose proof (Pos2Z.is_pos (digits2_pos q2)).
  destruct (Z.leb_spec (e + Z.max (Zpos (digits2_pos m) - prec) 0
                        + Z.max (Zpos (digits2_pos q2) - prec) 0) (emax - prec)); [|lia].
  do 2 eexists. split; [reflexivity|]. lia.
Qed.

Lemma binary_round_int_finite s a :
  Zpos (digits2_pos a) <= 1000 ->
  exists q e,
    binary_round prec emax s a 0 = S754_finite s q e
    /\ Zpos (digits2_pos q) <= prec /\ - prec < e <= 950.
Proof.
  intros HD. unfold binary_round, fexp, emin.
  pose proof (Pos2Z.is_pos (digits2_pos a)) as Hpos.
  replace (Z.max (Zpos (digits2_pos a) + 0 - prec) (3 - emax - prec))
    with (Zpos (digits2_pos a) - prec) by (unfold prec, emax in *; lia).
  unfold shl_align.
  destruct (Zpos (digits2_pos a) - prec - 0) as [|d|d] eqn:Hd.
  - destruct (binary_round_aux_finite s a 0) as (q & e & Hr & Hq & He);
      [unfold prec, emax; lia | unfold prec, emax in *; lia |].
    exists q, e. split; [exact Hr|]. split; [exact Hq|]. unfold prec in *. lia.
  - destruct (binary_round_aux_finite s a 0) as (q & e & Hr & Hq & He);
      [unfold prec, emax; lia | unfold prec, emax in *; lia |].
    exists q, e. split; [exact Hr|]. split; [exact Hq|]. unfold prec in *. lia.
  - destruct (binary_round_aux_finite s (Pos.iter xO a d) (Zpos (digits2_pos a) - prec))
      as (q & e & Hr & Hq & He).
    + unfold prec, emax in *. lia.
    + rewrite digits2_iter_xO. unfold prec, emax in *. lia.
    + rewrite digits2_iter_xO in He.
      exists q, e. split; [exact Hr|]. split; [exact Hq|]. unfold prec in *. lia.
Qed.

Lemma float_round_finite s q e :
  exists x, float_round (S754_finite s q e) = Ok (cond_Zopp s x) /\ 0 <= x.
Proof.
  destruct e as [|k|k]; cbn [float_round].
  - eexists. split; [reflexivity|]. lia.
  - eexists. split; [reflexivity|].
    assert (0 < 2 ^ Zpos k) by (apply Z.pow_pos_nonneg; lia). lia.
  - eexists. split; [reflexivity|].
    apply round_half_even_nonneg; [lia|]. apply Z.pow_pos_nonneg; lia.
Qed.

(** [round(c * n)] returns for every machine integer [n], with the sign of
    [n], when [c] is a positive double with exponent [- prec]. *)
Lemma round_float_mul_int_returns (mc : positive) (n : Z) :
  Zpos (digits2_pos mc) <= prec ->
  Z.abs n < 2 ^ 1000 ->
  exists d,
    round_float_mul_int (S754_finite false mc (- prec)) n = Ok d
    /\ (0 <= n -> 0 <= d) /\ (n <= 0 -> d <= 0).
Proof.
  intros Hmc Hn. unfold round_float_mul_int, float_mul_int, float_of_int.
  destruct n as [|a|a]; cbn [binary_normalize].
  - exists 0. split; [reflexivity | lia].
  - destruct (binary_round_int_finite false a) as (q & e & -> & Hq & He);
      [apply digits2_pos_le; lia|].
    rewrite !bind_Ok. cbn [SFmul xorb].
    destruct (binary_round_aux_finite false (mc * q) (- prec + e)) as (q' & e' & -> & _ & _).
    + unfold prec, emax in *. lia.
    + pose proof (digits2_pos_mul mc q). unfold prec, emax in *. lia.
    + destruct (float_round_finite false q' e') as (x & -> & Hx).
      exists x. cbn [cond_Zopp]. split; [reflexivity | lia].
  - destruct (binary_round_int_finite true a) as (q & e & -> & Hq & He);
      [apply digits2_pos_le; lia|].
    rewrite !bind_Ok. cbn [SFmul xorb].
    destruct (binary_round_aux_finite true (mc * q) (- prec + e)) as (q' & e' & -> & _ & _).
    + unfold prec, emax in *. lia.
    + pose proof (digits2_pos_mul mc q). unfold prec, emax in *. lia.
    + destruct (float_round_finite true q' e') as (x & -> & Hx).
      exists (- x). cbn [cond_Zopp]. split; [reflexivity | lia].
Qed.

Lemma int64_rounds_return l t r b :
  int64_range l -> int64_range t -> int64_range r -> int64_range b ->
  exists dw dt db,
    round_float_mul_int c050 (r - l) = Ok dw
    /\ round_float_mul_int c075 (b - t) = Ok dt
    /\ round_float_mul_int c050 (b - t) = Ok db
    /\ (l <= r -> 0 <= dw) /\ (t <= b -> 0 <= dt /\ 0 <= db).
Proof.
  unfold int64_range. intros Hl Ht Hr Hb.
  assert (Hbig : 2 ^ 1000 = 2 ^ 64 * 2 ^ 936) by reflexivity.
  assert (0 < 2 ^ 936) by reflexivity.
  assert (H64 : 2 ^ 64 = 2 * 2 ^ 63) by reflexivity.
  destruct (round_float_mul_int_returns 4503599627370496 (r - l)) as (dw & Hw & Hw0 & _);
    [by vm_compute | nia |].
  destruct (round_float_mul_int_returns 6755399441055744 (b - t)) as (dt & Hdt & Hdt0 & _);
    [by vm_compute | nia |].
  destruct (round_float_mul_int_returns 4503599627370496 (b - t)) as (db & Hdb & Hdb0 & _);
    [by vm_compute | nia |].
  exists dw, dt, db. repeat split; try assumption; lia.
Qed.

(** ** [edit_boundaries] *)

(** For every box and every shape with a row and a column count, the
    function is its three roundings followed by the four clamps; it raises
    exactly when one of the roundings does. *)
Lemma edit_boundaries_unfold l t r b rows cols rest :
  edit_boundaries [l; t; r; b] (rows :: cols :: rest)
  = (dw ← round_float_mul_int c050 (r - l);
     dt ← round_float_mul_int c075 (b - t);
     db ← round_float_mul_int c050 (b - t);
     Ok [Z.max (l - dw) 0; Z.max (t - dt) 0; Z.min (r + dw) cols; Z.min (b + db) rows]).
Proof.
  unfold edit_boundaries. run_result.
  destruct (round_float_mul_int c050 (r - l)) as [dw|e]; [|reflexivity]. run_result.
  destruct (round_float_mul_int c075 (b - t)) as [dt|e]; [|reflexivity]. run_result.
  destruct (round_float_mul_int c050 (b - t)) as [db|e]; [|reflexivity]. run_result.
  reflexivity.
Qed.

(** One run of the function, given what its calls of [round] return. *)
Lemma edit_boundaries_run l t r b rows cols rest dw dt db :
  round_float_mul_int c050 (r - l) = Ok dw ->
  round_float_mul_int c075 (b - t) = Ok dt ->
  round_float_mul_int c050 (b - t) = Ok db ->
  edit_boundaries [l; t; r; b] (rows :: cols :: rest)
  = Ok [Z.max (l - dw) 0; Z.max (t - dt) 0; Z.min (r + dw) cols; Z.min (b + db) rows].
Proof.
  intros Hw Ht Hb. rewrite edit_boundaries_unfold, Hw, Ht, Hb. reflexivity.
Qed.

Lemma pixel_range_rounds l t r b :
  pixel_range l -> pixel_range t -> pixel_range r -> pixel_range b ->
  round_float_mul_int c050 (r - l) = Ok (round_half_even (r - l) 2)
  /\ round_float_mul_int c075 (b - t) = Ok (round_half_even (3 * (b - t)) 4)
  /\ round_float_mul_int c050 (b - t) = Ok (round_half_even (b - t) 2).
Proof.
  unfold pixel_range. intros Hl Ht Hr Hb.
  assert (H53 : 2 ^ prec = 8 * 2 ^ 50) by reflexivity.
  repeat split.
  - apply round_half_times. lia.
  - apply round_three_quarters_times. lia.
  - apply round_half_times. lia.
Qed.

Lemma edit_boundaries_pixels l t r b rows cols rest :
  pixel_range l -> pixel_range t -> pixel_range r -> pixel_range b ->
  edit_boundaries [l; t; r; b] (rows :: cols :: rest) = Ok (expand l t r b rows cols).
Proof.
  intros Hl Ht Hr Hb.
  destruct (pixel_range_rounds l t r b Hl Ht Hr Hb) as (Hw & Hh & Hh').
  rewrite (edit_boundaries_run _ _ _ _ _ _ _ _ _ _ Hw Hh Hh').
  unfold expand.
  destruct (round_half_even_percent (r - l)) as [-> _].
  destruct (round_half_even_percent (b - t)) as [-> ->].
  reflexivity.
Qed.

(** C1. For every bounding box with [left < right] and [top < bottom]
    and every image shape, [edit_boundaries] returns
    [(max(left - round(.50 * width), 0), max(top - round(.75 * height), 0),
      min(right + round(.50 * width), colCount),
      min(bottom + round(.50 * height), rowCount))].
    The roundings are Python's, on the binary64 products; they return for
    all machine integers, and for pixel coordinates they are the integers
    nearest to [0.50 * width], [0.75 * height] and [0.50 * height], the even
    one at a tie. *)
Theorem edit_boundaries_is_expand left top right bottom rowCount colCount rest :
  left < right -> top < bottom ->
  int64_range left -> int64_range top -> int64_range right -> int64_range bottom ->
  exists dw dt db,
    round_float_mul_int c050 (right - left) = Ok dw
    /\ round_float_mul_int c075 (bottom - top) = Ok dt
    /\ round_float_mul_int c050 (bottom - top) = Ok db
    /\ edit_boundaries [left; top; right; bottom] (rowCount :: colCount :: rest)
       = Ok [Z.max (left - dw) 0; Z.max (top - dt) 0;
             Z.min (right + dw) colCount; Z.min (bottom + db) rowCount]
    /\ (pixel_range left -> pixel_range top -> pixel_range right -> pixel_range bottom ->
        dw = round_half_even (50 * (right - left)) 100
        /\ dt = round_half_even (75 * (bottom - top)) 100
        /\ db = round_half_even (50 * (bottom - top)) 100).
Proof.
  intros _ _ Hl Ht Hr Hb.
  destruct (int64_rounds_return left top right bottom Hl Ht Hr Hb)
    as (dw & dt & db & Hw & Hdt & Hdb & _).
  exists dw, dt, db. split; [exact Hw|]. split; [exact Hdt|]. split; [exact Hdb|].
  split; [exact (edit_boundaries_run _ _ _ _ _ _ _ _ _ _ Hw Hdt Hdb)|].
  intros Pl Pt Pr Pb.
  destruct (pixel_range_rounds left top right bottom Pl Pt Pr Pb) as (Ew & Et & Eb).
  rewrite Hw in Ew. rewrite Hdt in Et. rewrite Hdb in Eb.
  injection Ew as ->. injection Et as ->. injection Eb as ->.
  destruct (round_half_even_percent (right - left)) as [-> _].
  destruct (round_half_even_percent (bottom - top)) as [-> ->].
  repeat split.
Qed.

Lemma edit_boundaries_is_expand_witness :
  exists dw dt db,
    round_float_mul_int c050 (150 - 50) = Ok dw
    /\ round_float_mul_int c075 (150 - 50) = Ok dt
    /\ round_float_mul_int c050 (150 - 50) = Ok db
    /\ edit_boundaries [50; 50; 150; 150] [200; 200; 3]
       = Ok [Z.max (50 - dw) 0; Z.max (50 - dt) 0; Z.min (150 + dw) 200; Z.min (150 + db) 200]
    /\ (pixel_range 50 -> pixel_range 50 -> pixel_range 150 -> pixel_range 150 ->
        dw = round_half_even (50 * (150 - 50)) 100
        /\ dt = round_half_even (75 * (150 - 50)) 100
        /\ db = round_half_even (50 * (150 - 50)) 100).
Proof.
  apply (edit_boundaries_is_expand 50 50 150 150 200 200 [3]);
    unfold int64_range; lia.
Defined.

(** C7. A box that lies inside the image is expanded to a box that lies
    inside the image and keeps at least one column and one row:
    [0 <= newLeft < newRight <= colCount] and
    [0 <= newTop < newBottom <= rowCount]. *)
Theorem edit_boundaries_inside_image left top right bottom rowCount colCount rest :
  0 <= left < right -> right <= colCount ->
  0 <= top < bottom -> bottom <= rowCount ->
  int64_range colCount -> int64_range rowCount ->
  exists newLeft newTop newRight newBottom,
    edit_boundaries [left; top; right; bottom] (rowCount :: colCount :: rest)
    = Ok [newLeft; newTop; newRight; newBottom]
    /\ 0 <= newLeft < newRight /\ newRight <= colCount
    /\ 0 <= newTop < newBottom /\ newBottom <= rowCount.
Proof.
  intros Hx Hcol Hy Hrow Hc Hr.
  assert (Hl : int64_range left) by (unfold int64_range in *; lia).
  assert (Ht : int64_range top) by (unfold int64_range in *; lia).
  assert (Hri : int64_range right) by (unfold int64_range in *; lia).
  assert (Hb : int64_range bottom) by (unfold int64_range in *; lia).
  destruct (int64_rounds_return left top right bottom Hl Ht Hri Hb)
    as (dw & dt & db & Hw & Hdt & Hdb & Hw0 & Hh0).
  rewrite (edit_boundaries_run _ _ _ _ _ _ _ _ _ _ Hw Hdt Hdb).
  do 4 eexists. split; [reflexivity|]. lia.
Qed.

Lemma edit_boundaries_inside_image_witness :
  exists newLeft newTop newRight newBottom,
    edit_boundaries [40; 60; 100; 120] [200; 300; 3]
    = Ok [newLeft; newTop; newRight; newBottom]
    /\ 0 <= newLeft < newRight /\ newRight <= 300
    /\ 0 <= newTop < newBottom /\ newBottom <= 200.
Proof.
  apply (edit_boundaries_inside_image 40 60 100 120 200 300 [3]);
    unfold int64_range; lia.
Defined.

(** The two examples of rounding at a tie: half of 1 is rounded to 0 and
    half of 3 to 2; three quarters of 2 to 2 and of 6 to 4. *)
Lemma round_examples :
  round_float_mul_int c050 1 = Ok 0 /\ round_float_mul_int c050 3 = Ok 2
  /\ round_float_mul_int c075 2 = Ok 2 /\ round_float_mul_int c075 6 = Ok 4.
Proof. repeat split; vm_compute; reflexivity. Qed.

(** C9. The amounts by which [edit_boundaries] moves the sides are rounded
    half to even: when half the width is a half-integer (odd width) the
    horizontal amount is the even neighbour, when three quarters of the
    height is a half-integer (height 2 modulo 4) the amount at the top is the
    even neighbour, and likewise half the height at the bottom. *)
Theorem edit_boundaries_rounds_half_to_even left top right bottom rowCount colCount rest :
  pixel_range left -> pixel_range top -> pixel_range right -> pixel_range bottom ->
  exists dw dt db,
    round_float_mul_int c050 (right - left) = Ok dw
    /\ round_float_mul_int c075 (bottom - top) = Ok dt
    /\ round_float_mul_int c050 (bottom - top) = Ok db
    /\ edit_boundaries [left; top; right; bottom] (rowCount :: colCount :: rest)
       = Ok [Z.max (left - dw) 0; Z.max (top - dt) 0;
             Z.min (right + dw) colCount; Z.min (bottom + db) rowCount]
    /\ (Z.odd (right - left) = true ->
        Z.even dw = true /\ Z.abs (2 * dw - (right - left)) = 1)
    /\ ((bottom - top) mod 4 = 2 ->
        Z.even dt = true /\ Z.abs (4 * dt - 3 * (bottom - top)) = 2)
    /\ (Z.odd (bottom - top) = true ->
        Z.even db = true /\ Z.abs (2 * db - (bottom - top)) = 1).
Proof.
  intros Hl Ht Hr Hb.
  destruct (pixel_range_rounds left top right bottom Hl Ht Hr Hb) as (Hw & Hh & Hh').
  exists (round_half_even (right - left) 2), (round_half_even (3 * (bottom - top)) 4),
         (round_half_even (bottom - top) 2).
  split; [exact Hw|]. split; [exact Hh|]. split; [exact Hh'|].
  split; [exact (edit_boundaries_run _ _ _ _ _ _ _ _ _ _ Hw Hh Hh')|].
  split; [|split].
  - intros Hodd. rewrite Z.odd_spec in Hodd. destruct Hodd as [k Hk].
    destruct (round_half_even_tie (right - left) 2) as [Hev Habs]; [lia| |].
    + rewrite Hk. replace (2 * k + 1) with (1 + k * 2) by ring.
      rewrite Z.mod_add by lia. reflexivity.
    + split; [exact Hev | lia].
  - intros Hmod.
    destruct (round_half_even_tie (3 * (bottom - top)) 4) as [Hev Habs]; [lia| |].
    + rewrite <- Zmult_mod_idemp_r, Hmod. reflexivity.
    + split; [exact Hev | lia].
  - intros Hodd. rewrite Z.odd_spec in Hodd. destruct Hodd as [k Hk].
    destruct (round_half_even_tie (bottom - top) 2) as [Hev Habs]; [lia| |].
    + rewrite Hk. replace (2 * k + 1) with (1 + k * 2) by ring.
      rewrite Z.mod_add by lia. reflexivity.
    + split; [exact Hev | lia].
Qed.

Lemma edit_boundaries_rounds_half_to_even_witness :
  exists dw dt db,
    round_float_mul_int c050 (13 - 10) = Ok dw
    /\ round_float_mul_int c075 (16 - 10) = Ok dt
    /\ round_float_mul_int c050 (16 - 10) = Ok db
    /\ edit_boundaries [10; 10; 13; 16] [100; 100; 3]
       = Ok [Z.max (10 - dw) 0; Z.max (10 - dt) 0; Z.min (13 + dw) 100; Z.min (16 + db) 100]
    /\ (Z.odd (13 - 10) = true -> Z.even dw = true /\ Z.abs (2 * dw - (13 - 10)) = 1)
    /\ ((16 - 10) mod 4 = 2 -> Z.even dt = true /\ Z.abs (4 * dt - 3 * (16 - 10)) = 2)
    /\ (Z.odd (16 - 10) = true -> Z.even db = true /\ Z.abs (2 * db - (16 - 10)) = 1).
Proof.
  apply (edit_boundaries_rounds_half_to_even 10 10 13 16 100 100 [3]);
    unfold pixel_range; lia.
Defined.

(** ** [define_polylines] *)

Lemma rows_of_2_pairs (a : list (Z * Z)) :
  np_reshape_rows_2 a = Ok (map (fun c => [c.1; c.2]) a).
Proof.
  unfold np_reshape_rows_2.
  induction a as [|c a IH]; [reflexivity|].
  cbn [map concat app rows_of_2]. rewrite IH. reflexivity.
Qed.

(** The inner loop appends, for each index of the segment, the coordinates
    at that index. *)
Lemma segment_loop_spec (coors : list (Z * Z)) (segment : list Z) (acc : list (Z * Z)) :
  Forall (fun i => 0 <= i < Z.of_nat (length coors)) segment ->
  exists pts,
    foldlM (fun segment_coors point =>
              c ← py_getitem coors point; Ok (segment_coors ++ [c])) segment acc
    = Ok (acc ++ pts)
    /\ Forall2 (fun i c => coors !! Z.to_nat i = Some c) segment pts.
Proof.
  revert acc. induction segment as [|i segment IH]; intros acc Hall.
  - exists []. rewrite app_nil_r. split; [reflexivity | constructor].
  - apply Forall_cons in Hall as [Hi Hall].
    destruct (lookup_lt_is_Some_2 coors (Z.to_nat i) ltac:(lia)) as [c Hc].
    destruct (IH (acc ++ [c]) Hall) as (pts & Hrun & Hpts).
    exists (c :: pts). split.
    + cbn [foldlM]. rewrite (py_getitem_at coors i c) by (lia || done).
      rewrite !bind_Ok, Hrun, <- app_assoc. reflexivity.
    + constructor; done.
Qed.

(** The outer loop appends one array per segment: the rows of the
    coordinates of its indices. *)
Lemma polylines_loop_spec (landmarks : list point) (segments : list (list Z))
    (acc : list (list (list Z))) :
  Forall (Forall (fun i => 0 <= i < Z.of_nat (length landmarks))) segments ->
  exists polylines,
    foldlM (fun polylines segment =>
        segment_coors ← foldlM (fun segment_coors point =>
            c ← py_getitem (map (fun p => (point_x p, point_y p)) landmarks) point;
            Ok (segment_coors ++ [c])) segment [];
        segment_coors ← np_reshape_rows_2 segment_coors;
        Ok (polylines ++ [segment_coors]))
      segments acc
    = Ok (acc ++ polylines)
    /\ Forall2 (Forall2 (fun i row =>
          exists p, landmarks !! Z.to_nat i = Some p /\ row = [point_x p; point_y p]))
        segments polylines.
Proof.
  revert acc. induction segments as [|segment segments IH]; intros acc Hall.
  - exists []. rewrite app_nil_r. split; [reflexivity | constructor].
  - apply Forall_cons in Hall as [Hseg Hall].
    destruct (segment_loop_spec (map (fun p => (point_x p, point_y p)) landmarks) segment [])
      as (pts & Hrun & Hpts).
    { rewrite length_map. exact Hseg. }
    destruct (IH (acc ++ [map (fun c => [c.1; c.2]) pts]) Hall) as (polylines & Hrest & Hpoly).
    exists (map (fun c => [c.1; c.2]) pts :: polylines). split.
    + cbn [foldlM]. rewrite Hrun. cbn [app]. rewrite bind_Ok, rows_of_2_pairs, !bind_Ok.
      rewrite Hrest, <- app_assoc. reflexivity.
    + constructor; [|exact Hpoly].
      apply Forall2_fmap_r. eapply Forall2_impl; [exact Hpts|].
      intros i c Hc. cbn beta in Hc. rewrite list_lookup_fmap in Hc.
      destruct (landmarks !! Z.to_nat i) as [p|]; [|discriminate].
      injection Hc as <-. exists p. split; reflexivity.
Qed.

Lemma define_polylines_spec (landmarks : list point) (segments : list (list Z)) :
  Forall (Forall (fun i => 0 <= i < Z.of_nat (length landmarks))) segments ->
  exists polylines,
    define_polylines landmarks segments = Ok polylines
    /\ Forall2 (Forall2 (fun i row =>
          exists p, landmarks !! Z.to_nat i = Some p /\ row = [point_x p; point_y p]))
        segments polylines.
Proof.
  intros Hall. destruct (polylines_loop_spec landmarks segments [] Hall) as (ps & Hrun & Hps).
  exists ps. split; [exact Hrun | exact Hps].
Qed.

Lemma segments_in_range (landmarks : list point) (segments : list (list Z)) :
  length landmarks = 68%nat ->
  Forall (Forall (fun i => 0 <= i <= 67)) segments ->
  Forall (Forall (fun i => 0 <= i < Z.of_nat (length landmarks))) segments.
Proof.
  intros Hlen Hall. eapply Forall_impl; [exact Hall|].
  intros seg Hseg. eapply Forall_impl; [exact Hseg|]. intros i. cbn beta. lia.
Qed.

(** C6. For 68 landmarks and segment definitions with indices in 0..67,
    [define_polylines] returns one polyline per definition, in the order of
    the definitions; each polyline has one row per index of its definition,
    in the order of the indices, and the row is the [(x, y)] of the landmark
    at that index: nothing is dropped, merged or reordered. *)
Theorem define_polylines_materializes (landmarks : list point) (segments : list (list Z)) :
  length landmarks = 68%nat ->
  Forall (Forall (fun i => 0 <= i <= 67)) segments ->
  exists polylines,
    define_polylines landmarks segments = Ok polylines
    /\ length polylines = length segments
    /\ forall (j : nat) (segment : list Z), segments !! j = Some segment ->
       exists polyline,
         polylines !! j = Some polyline
         /\ length polyline = length segment
         /\ forall (k : nat) (i : Z), segment !! k = Some i ->
            exists p, landmarks !! Z.to_nat i = Some p
                      /\ polyline !! k = Some [point_x p; point_y p].
Proof.
  intros Hlen Hall.
  destruct (define_polylines_spec landmarks segments (segments_in_range _ _ Hlen Hall))
    as (polylines & Hrun & Hps).
  exists polylines. split; [exact Hrun|]. split.
  - symmetry. exact (Forall2_length _ _ _ Hps).
  - intros j segment Hj.
    destruct (Forall2_lookup_l _ _ _ _ _ Hps Hj) as (polyline & Hpl & Hrows).
    exists polyline. split; [exact Hpl|]. split.
    + symmetry. exact (Forall2_length _ _ _ Hrows).
    + intros k i Hk.
      destruct (Forall2_lookup_l _ _ _ _ _ Hrows Hk) as (row & Hrow & p & Hp & ->).
      exists p. split; [exact Hp | exact Hrow].
Qed.

Lemma define_polylines_materializes_witness :
  exists polylines,
    define_polylines toy_landmarks [[0; 1]; [67; 2; 2]] = Ok polylines
    /\ length polylines = length [[0; 1]; [67; 2; 2]]
    /\ forall (j : nat) (segment : list Z), [[0; 1]; [67; 2; 2]] !! j = Some segment ->
       exists polyline,
         polylines !! j = Some polyline
         /\ length polyline = length segment
         /\ forall (k : nat) (i : Z), segment !! k = Some i ->
            exists p, toy_landmarks !! Z.to_nat i = Some p
                      /\ polyline !! k = Some [point_x p; point_y p].
Proof.
  apply (define_polylines_materializes toy_landmarks [[0; 1]; [67; 2; 2]]).
  - reflexivity.
  - compute_done.
Defined.

(** ** The topology table *)

Lemma face_polyline_segments_in_range :
  Forall (fun item => Forall (Forall (fun i => 0 <= i <= 67)) item.2) face_polyline_segments.
Proof. compute_done. Qed.

(** C2, as the specification states it, fails: the [full] entry of the
    table has 16 segments, not 14. *)
Lemma full_topology_has_not_14_segments :
  exists segments,
    dict_getitem face_polyline_segments "full" = Ok segments
    /\ length segments = 16%nat /\ length segments <> 14%nat.
Proof. eexists. split; [reflexivity|]. split; [reflexivity | discriminate]. Qed.

(** C2, amended. The [full] entry of [face_polyline_segments] has 16
    segments and the [partial] entry 9; for every set of 68 landmarks
    [define_polylines] returns 16 polylines for [full] and 9 for [partial]. *)
Theorem topology_segment_counts (landmarks : list point) :
  length landmarks = 68%nat ->
  exists full partial,
    dict_getitem face_polyline_segments "full" = Ok full
    /\ dict_getitem face_polyline_segments "partial" = Ok partial
    /\ length full = 16%nat /\ length partial = 9%nat
    /\ exists full_lines partial_lines,
         define_polylines landmarks full = Ok full_lines
         /\ length full_lines = 16%nat
         /\ define_polylines landmarks partial = Ok partial_lines
         /\ length partial_lines = 9%nat.
Proof.
  intros Hlen.
  pose proof face_polyline_segments_in_range as Hrange.
  unfold face_polyline_segments in Hrange.
  apply Forall_cons in Hrange as [Hfull Hrange].
  apply Forall_cons in Hrange as [Hpartial _].
  cbn [snd] in Hfull, Hpartial.
  destruct (define_polylines_spec landmarks _ (segments_in_range _ _ Hlen Hfull))
    as (full_lines & Hf & Hf2).
  destruct (define_polylines_spec landmarks _ (segments_in_range _ _ Hlen Hpartial))
    as (partial_lines & Hp & Hp2).
  do 2 eexists. split; [reflexivity|]. split; [reflexivity|].
  split; [reflexivity|]. split; [reflexivity|].
  exists full_lines, partial_lines.
  split; [exact Hf|]. split; [rewrite <- (Forall2_length _ _ _ Hf2); reflexivity|].
  split; [exact Hp|]. rewrite <- (Forall2_length _ _ _ Hp2). reflexivity.
Qed.

Lemma topology_segment_counts_witness :
  exists full partial,
    dict_getitem face_polyline_segments "full" = Ok full
    /\ dict_getitem face_polyline_segments "partial" = Ok partial
    /\ length full = 16%nat /\ length partial = 9%nat
    /\ exists full_lines partial_lines,
         define_polylines toy_landmarks full = Ok full_lines
         /\ length full_lines = 16%nat
         /\ define_polylines toy_landmarks partial = Ok partial_lines
         /\ length partial_lines = 9%nat.
Proof. apply (topology_segment_counts toy_landmarks). reflexivity. Defined.

(** ** File names *)

Lemma substring_all (s : string) : substring 0 (String.length s) s = s.
Proof.
  induction s as [|c s IH]; [reflexivity|].
  cbn [String.length substring]. rewrite IH. reflexivity.
Qed.

Lemma append_cons (c : ascii) (p s : string) : String c p +:+ s = String c (p +:+ s).
Proof. reflexivity. Qed.

Lemma substring_skip_prefix (p s : string) (k : nat) :
  substring (String.length p) k (p +:+ s) = substring 0 k s.
Proof.
  induction p as [|c p IH]; [reflexivity|].
  rewrite append_cons. cbn [String.length substring]. exact IH.
Qed.

Lemma length_append (p s : string) :
  String.length (p +:+ s) = (String.length p + String.length s)%nat.
Proof.
  induction p as [|c p IH]; [reflexivity|].
  rewrite append_cons. cbn [String.length]. rewrite IH. reflexivity.
Qed.

Lemma substring_split (s : string) (m : nat) :
  (m <= String.length s)%nat ->
  s = substring 0 m s +:+ substring m (String.length s - m) s.
Proof.
  revert m. induction s as [|c s IH]; intros m Hm.
  - cbn [String.length] in Hm. assert (m = 0%nat) as -> by lia. reflexivity.
  - destruct m as [|m].
    + rewrite Nat.sub_0_r, substring_all. destruct s; reflexivity.
    + cbn [String.length] in Hm. cbn [String.length substring Nat.sub].
      rewrite append_cons, <- IH by lia. reflexivity.
Qed.

(** [s.endswith(suffix)] holds exactly of the strings [stem + suffix]. *)
Lemma str_endswith_iff (s suffix : string) :
  str_endswith s suffix = true <-> exists stem, s = stem +:+ suffix.
Proof.
  unfold str_endswith. rewrite andb_true_iff, Nat.leb_le, String.eqb_eq. split.
  - intros [Hle Hsub]. exists (substring 0 (String.length s - String.length suffix) s).
    pose proof (substring_split s (String.length s - String.length suffix) ltac:(lia)) as Hs.
    replace (String.length s - (String.length s - String.length suffix))%nat
      with (String.length suffix) in Hs by lia.
    rewrite Hsub in Hs. exact Hs.
  - intros [stem ->]. rewrite length_append. split; [lia|].
    replace (String.length stem + String.length suffix - String.length suffix)%nat
      with (String.length stem) by lia.
    rewrite substring_skip_prefix. apply substring_all.
Qed.

Lemma jpg_suffixes_iff (filename : string) :
  str_endswith_any filename ["jpg"; "JPG"]%string = true
  <-> exists stem, filename = stem +:+ "jpg" \/ filename = stem +:+ "JPG".
Proof.
  unfold str_endswith_any. cbn [existsb]. rewrite orb_false_r, orb_true_iff.
  rewrite !str_endswith_iff. split.
  - intros [[stem H]|[stem H]]; exists stem; [left | right]; exact H.
  - intros [stem [H|H]]; [left | right]; exists stem; exact H.
Qed.

(** ** Running computations on the store *)

Lemma bind_run_Ok {A B : Type} (m : M A) (k : A -> M B) h a h1 ev1 :
  m h = (Ok a, h1, ev1) ->
  (m ≫= k) h = (let '(r, h2, ev2) := k a h1 in (r, h2, ev1 ++ ev2)).
Proof. intros Hm. unfold mbind, M_bind. rewrite Hm. reflexivity. Qed.

Lemma bind_run_Raise {A B : Type} (m : M A) (k : A -> M B) h e h1 ev1 :
  m h = (Raise e, h1, ev1) -> (m ≫= k) h = (Raise e, h1, ev1).
Proof. intros Hm. unfold mbind, M_bind. rewrite Hm. reflexivity. Qed.

Lemma bind_run_inv {A B : Type} (m : M A) (k : A -> M B) h r h' ev :
  (m ≫= k) h = (r, h', ev) ->
  (exists e, m h = (Raise e, h', ev) /\ r = Raise e)
  \/ (exists a h1 ev1 ev2,
        m h = (Ok a, h1, ev1) /\ k a h1 = (r, h', ev2) /\ ev = ev1 ++ ev2).
Proof.
  unfold mbind, M_bind. destruct (m h) as [[[a|e] h1] ev1].
  - destruct (k a h1) as [[r2 h2] ev2] eqn:Hk. intros [= <- <- <-].
    right. exists a, h1, ev1, ev2. done.
  - intros [= <- <- <-]. left. exists e. done.
Qed.

Lemma read_run (l : loc) (content : image) (h : heap) :
  h !! l = Some content -> read l h = (Ok content, h, []).
Proof. intros Hl. unfold read. rewrite Hl. reflexivity. Qed.

Lemma alloc_fresh (content : image) (h : heap) : h !! fresh (dom h) = None.
Proof. apply not_elem_of_dom, is_fresh. Qed.

Lemma copy_copy_run (l : loc) (content : image) (h : heap) :
  h !! l = Some content ->
  copy_copy l h = (Ok (fresh (dom h)), <[fresh (dom h) := content]> h, []).
Proof.
  intros Hl. unfold copy_copy. rewrite (bind_run_Ok _ _ _ _ _ _ (read_run _ _ _ Hl)).
  reflexivity.
Qed.

(** A loop stops at a raising iteration: the items after it are not visited. *)
Lemma for_run_raise {A : Type} (body : A -> M unit) (x : A) (xs : list A) h e h' ev :
  body x h = (Raise e, h', ev) -> for_ (x :: xs) body h = (Raise e, h', ev).
Proof. intros Hx. cbn [for_]. exact (bind_run_Raise _ _ _ _ _ _ Hx). Qed.

Lemma for_run_cons {A : Type} (body : A -> M unit) (x : A) (xs : list A) h h1 ev1 :
  body x h = (Ok tt, h1, ev1) ->
  for_ (x :: xs) body h = (let '(r, h2, ev2) := for_ xs body h1 in (r, h2, ev1 ++ ev2)).
Proof. intros Hx. cbn [for_]. exact (bind_run_Ok _ _ _ _ _ _ Hx). Qed.

(** ** The store only grows *)

Lemma grows_ret {A : Type} (a : A) : grows (mret a).
Proof. intros h r h' ev [= _ <- _]. done. Qed.

Lemma grows_lift {A : Type} (r : result A) : grows (lift r).
Proof. intros h r' h' ev [= _ <- _]. done. Qed.

Lemma grows_emit (e : event) : grows (emit e).
Proof. intros h r h' ev [= _ <- _]. done. Qed.

Lemma grows_read (l : loc) : grows (read l).
Proof. intros h r h' ev. unfold read. destruct (h !! l); intros [= _ <- _]; done. Qed.

Lemma grows_alloc (content : image) : grows (alloc content).
Proof.
  intros h r h' ev [= _ <- _]. apply insert_subseteq, (alloc_fresh content).
Qed.

Lemma grows_bind {A B : Type} (m : M A) (k : A -> M B) :
  grows m -> (forall a, grows (k a)) -> grows (m ≫= k).
Proof.
  intros Hm Hk h r h' ev Hrun.
  destruct (bind_run_inv _ _ _ _ _ _ Hrun) as [(e & Hr & _)|(a & h1 & ev1 & ev2 & Hr & Hk' & _)].
  - exact (Hm _ _ _ _ Hr).
  - transitivity h1; [exact (Hm _ _ _ _ Hr) | exact (Hk _ _ _ _ _ Hk')].
Qed.

Lemma grows_for {A : Type} (xs : list A) (body : A -> M unit) :
  (forall x, grows (body x)) -> grows (for_ xs body).
Proof.
  intros Hbody. induction xs as [|x xs IH]; [apply grows_ret|].
  cbn [for_]. apply grows_bind; [apply Hbody | intros _; exact IH].
Qed.

(** ** Drawing *)

Section Rendering.
Variable cv2_circle : image -> Z * Z -> Z -> list Z -> Z -> image.
Variable cv2_polylines : image -> list (list (list Z)) -> bool -> list Z -> Z -> Z -> image.

Lemma draw_polylines_run face_img content polylines colors thickness (h : heap) :
  h !! face_img = Some content ->
  draw_polylines cv2_polylines face_img polylines colors thickness h
  = (Ok face_img,
     <[face_img := cv2_polylines content polylines false colors thickness cv2_LINE_AA]> h,
     []).
Proof.
  intros Hh. unfold draw_polylines.
  rewrite (bind_run_Ok _ _ _ _ _ _ (read_run _ _ _ Hh)). reflexivity.
Qed.

Lemma circles_run face_img colors thickness (coors : list (Z * Z)) :
  forall (h : heap) content,
    h !! face_img = Some content ->
    for_ coors (fun coor =>
      content ← read face_img;
      write face_img (cv2_circle content coor 1 colors thickness)) h
    = (Ok tt,
       <[face_img := foldl (fun acc coor => cv2_circle acc coor 1 colors thickness)
                           content coors]> h,
       []).
Proof.
  induction coors as [|coor coors IH]; intros h content Hh.
  - cbn [foldl]. rewrite insert_id by exact Hh. reflexivity.
  - erewrite for_run_cons.
    2:{ rewrite (bind_run_Ok _ _ _ _ _ _ (read_run _ _ _ Hh)). reflexivity. }
    rewrite (IH _ (cv2_circle content coor 1 colors thickness)) by apply lookup_insert_eq.
    rewrite insert_insert_eq. reflexivity.
Qed.

Lemma draw_landmarks_run face_img content landmarks colors thickness (h : heap) :
  h !! face_img = Some content ->
  draw_landmarks cv2_circle face_img landmarks colors thickness h
  = (Ok face_img,
     <[face_img := foldl (fun acc coor => cv2_circle acc coor 1 colors thickness) content
                         (map (fun p => (point_x p, point_y p)) landmarks)]> h,
     []).
Proof.
  intros Hh. unfold draw_landmarks.
  rewrite (bind_run_Ok _ _ _ _ _ _ (circles_run _ _ _ _ _ _ Hh)). reflexivity.
Qed.

(** Drawing on a copy: the copy is a new array, the original keeps its
    content. *)
Lemma draw_polylines_on_copy face_img content polylines colors thickness (h : heap) :
  h !! face_img = Some content ->
  (copied ← copy_copy face_img; draw_polylines cv2_polylines copied polylines colors thickness) h
  = (Ok (fresh (dom h)),
     <[fresh (dom h) := cv2_polylines content polylines false colors thickness cv2_LINE_AA]> h,
     []).
Proof.
  intros Hh. rewrite (bind_run_Ok _ _ _ _ _ _ (copy_copy_run _ _ _ Hh)).
  rewrite (draw_polylines_run _ content) by apply lookup_insert_eq.
  rewrite insert_insert_eq. reflexivity.
Qed.

Lemma draw_landmarks_on_copy face_img content landmarks colors thickness (h : heap) :
  h !! face_img = Some content ->
  (copied ← copy_copy face_img; draw_landmarks cv2_circle copied landmarks colors thickness) h
  = (Ok (fresh (dom h)),
     <[fresh (dom h) := foldl (fun acc coor => cv2_circle acc coor 1 colors thickness) content
                              (map (fun p => (point_x p, point_y p)) landmarks)]> h,
     []).
Proof.
  intros Hh. rewrite (bind_run_Ok _ _ _ _ _ _ (copy_copy_run _ _ _ Hh)).
  rewrite (draw_landmarks_run _ content) by apply lookup_insert_eq.
  rewrite insert_insert_eq. reflexivity.
Qed.

(** C3, amended. [draw_landmarks] and [draw_polylines] draw into the array
    they are given and return that same array: after the call the buffer of
    the argument holds the overlay.  The image of the caller stays as it is
    when the caller passes a copy, as [main] does with [copy.copy]: the
    overlay is then in the new array and the original keeps its content. *)
Theorem draw_functions_draw_in_place face_img content landmarks polylines colors thickness
    (h : heap) :
  h !! face_img = Some content ->
  let dotted := foldl (fun acc coor => cv2_circle acc coor 1 colors thickness) content
                      (map (fun p => (point_x p, point_y p)) landmarks) in
  let lined := cv2_polylines content polylines false colors thickness cv2_LINE_AA in
  draw_landmarks cv2_circle face_img landmarks colors thickness h
  = (Ok face_img, <[face_img := dotted]> h, [])
  /\ draw_polylines cv2_polylines face_img polylines colors thickness h
     = (Ok face_img, <[face_img := lined]> h, [])
  /\ exists copied h1 h2,
       copied <> face_img
       /\ (c ← copy_copy face_img; draw_landmarks cv2_circle c landmarks colors thickness) h
          = (Ok copied, h1, [])
       /\ h1 !! copied = Some dotted /\ h1 !! face_img = Some content
       /\ (c ← copy_copy face_img; draw_polylines cv2_polylines c polylines colors thickness) h
          = (Ok copied, h2, [])
       /\ h2 !! copied = Some lined /\ h2 !! face_img = Some content.
Proof.
  intros Hh dotted lined.
  split; [exact (draw_landmarks_run _ _ _ _ _ _ Hh)|].
  split; [exact (draw_polylines_run _ _ _ _ _ _ Hh)|].
  assert (Hne : fresh (dom h) <> face_img).
  { intros Heq. pose proof (alloc_fresh content h) as Hf. rewrite Heq, Hh in Hf. discriminate. }
  exists (fresh (dom h)), (<[fresh (dom h) := dotted]> h), (<[fresh (dom h) := lined]> h).
  split; [exact Hne|].
  split; [exact (draw_landmarks_on_copy _ _ _ _ _ _ Hh)|].
  split; [apply lookup_insert_eq|].
  split; [rewrite lookup_insert_ne by exact Hne; exact Hh|].
  split; [exact (draw_polylines_on_copy _ _ _ _ _ _ Hh)|].
  split; [apply lookup_insert_eq|].
  rewrite lookup_insert_ne by exact Hne. exact Hh.
Qed.
End Rendering.

(** ** The loop body of [main] *)

Lemma raises_bind_Ok {A B : Type} (m : M A) (k : A -> M B) h a h1 ev1 :
  m h = (Ok a, h1, ev1) -> raises (k a) h1 -> raises (m ≫= k) h.
Proof.
  intros Hm (e & h2 & ev2 & Hk). exists e, h2, (ev1 ++ ev2).
  rewrite (bind_run_Ok _ _ _ _ _ _ Hm), Hk. reflexivity.
Qed.

(** A loop raises when one of its iterations raises from every store that
    satisfies an invariant of the iterations that return. *)
Lemma for_raises {A : Type} (I : gmap positive image -> Prop) (body : A -> M unit)
    (xs : list A) (x0 : A) :
  x0 ∈ xs ->
  (forall x h r h' ev, I h -> body x h = (Ok r, h', ev) -> I h') ->
  (forall h, I h -> raises (body x0) h) ->
  forall h, I h -> raises (for_ xs body) h.
Proof.
  intros Hin Hinv Hraise. induction xs as [|x xs IH]; intros h HI.
  - apply elem_of_nil in Hin. contradiction.
  - cbn [for_]. destruct (body x h) as [[[[]|e] h1] ev1] eqn:Hx.
    + apply elem_of_cons in Hin as [->|Hin].
      * destruct (Hraise h HI) as (e & h' & ev & He). congruence.
      * eapply raises_bind_Ok; [exact Hx|]. apply (IH Hin). exact (Hinv _ _ _ _ _ HI Hx).
    + exists e, h1, ev1. exact (bind_run_Raise _ _ _ _ _ _ Hx).
Qed.

Lemma enumerate_elem_of {A : Type} (l : list A) (a : A) :
  a ∈ l -> exists idx, (idx, a) ∈ enumerate l.
Proof.
  intros Hin. apply list_elem_of_lookup in Hin as [i Hi].
  exists i. apply list_elem_of_lookup. exists i. unfold enumerate.
  apply lookup_zip_with_Some. exists i, a. split; [reflexivity|]. split; [|exact Hi].
  apply lookup_seq. split; [reflexivity|]. exact (lookup_lt_Some _ _ _ Hi).
Qed.

(** ** Calls of the collaborators *)

Lemma faces_detect_run (face_detector : image -> list rect) l content (h : heap) :
  h !! l = Some content ->
  faces_detect face_detector (Some l) h = (Ok (face_detector content), h, [Detect content]).
Proof.
  intros Hh. unfold faces_detect.
  rewrite (bind_run_Ok _ _ _ _ _ _ (read_run _ _ _ Hh)). reflexivity.
Qed.

Lemma get_landmarks_run (landmarks_predictor : image -> rect -> list point) l content
    face_rect (h : heap) :
  h !! l = Some content ->
  get_landmarks landmarks_predictor l face_rect h
  = (Ok (landmarks_predictor content face_rect), h, [Predict content face_rect]).
Proof.
  intros Hh. unfold get_landmarks.
  rewrite (bind_run_Ok _ _ _ _ _ _ (read_run _ _ _ Hh)). reflexivity.
Qed.

Lemma ndarray_shape_run l content (h : heap) :
  h !! l = Some content -> ndarray_shape (Some l) h = (Ok (shape content), h, []).
Proof.
  intros Hh. unfold ndarray_shape.
  rewrite (bind_run_Ok _ _ _ _ _ _ (read_run _ _ _ Hh)). reflexivity.
Qed.

Lemma ndarray_crop_run l content top bottom left right (h : heap) :
  h !! l = Some content ->
  ndarray_crop (Some l) top bottom left right h
  = (Ok (fresh (dom h)), <[fresh (dom h) := crop content top bottom left right]> h, []).
Proof.
  intros Hh. unfold ndarray_crop.
  rewrite (bind_run_Ok _ _ _ _ _ _ (read_run _ _ _ Hh)). reflexivity.
Qed.

Lemma cv2_imwrite_run file l content (h : heap) :
  h !! l = Some content -> cv2_imwrite file l h = (Ok tt, h, [ImWrite file content]).
Proof.
  intros Hh. unfold cv2_imwrite.
  rewrite (bind_run_Ok _ _ _ _ _ _ (read_run _ _ _ Hh)). reflexivity.
Qed.

Ltac run_step tac := erewrite bind_run_Ok by tac; cbv beta.

Ltac run_until_detect Hh Hedit :=
  unfold main_body;
  run_step ltac:(reflexivity);
  run_step ltac:(apply ndarray_shape_run; exact Hh);
  rewrite Hedit;
  run_step ltac:(reflexivity);
  repeat (erewrite py_getitem_at by (reflexivity || lia));
  do 4 run_step ltac:(reflexivity);
  run_step ltac:(apply ndarray_crop_run; exact Hh);
  run_step ltac:(apply faces_detect_run, lookup_insert_eq).

Lemma fresh_insert_ne (l : positive) (content : image) (h : heap) :
  fresh (dom (<[l := content]> h)) <> l.
Proof.
  intros Heq. pose proof (alloc_fresh content (<[l := content]> h)) as Hf.
  rewrite Heq, lookup_insert_eq in Hf. discriminate.
Qed.

Section Orchestrator.
Variables path dir : string.
Variable os_listdir : list string -> list string.
Variable cv2_imread : list string -> option image.
Variable face_detector : image -> list rect.
Variable landmarks_predictor : image -> rect -> list point.
Variable cv2_circle : image -> Z * Z -> Z -> list Z -> Z -> image.
Variable cv2_polylines : image -> list (list (list Z)) -> bool -> list Z -> Z -> Z -> image.

Local Abbreviation main_body' :=
  (main_body path dir face_detector landmarks_predictor cv2_circle cv2_polylines).
Local Abbreviation main_file' :=
  (main_file path dir cv2_imread face_detector landmarks_predictor cv2_circle cv2_polylines).
Local Abbreviation main' :=
  (main path dir os_listdir cv2_imread face_detector landmarks_predictor
        cv2_circle cv2_polylines).

(** *** The loop body never writes to an array that exists already *)

Lemma grows_copy_draw_polylines {B : Type} face_img polylines colors thickness
    (k : positive -> M B) :
  (forall c, grows (k c)) ->
  grows (copied ← copy_copy face_img;
         img_lined ← draw_polylines cv2_polylines copied polylines colors thickness;
         k img_lined).
Proof.
  intros Hk h r h' ev. destruct (h !! face_img) as [content|] eqn:Hh.
  - rewrite (bind_run_Ok _ _ _ _ _ _ (copy_copy_run _ _ _ Hh)).
    erewrite bind_run_Ok by (apply draw_polylines_run, lookup_insert_eq).
    rewrite insert_insert_eq.
    destruct (k _ _) as [[r2 h2] ev2] eqn:Hkr. intros [= _ <- _].
    transitivity (<[fresh (dom h) :=
                     cv2_polylines content polylines false colors thickness cv2_LINE_AA]> h).
    + apply insert_subseteq, (alloc_fresh content).
    + exact (Hk _ _ _ _ _ Hkr).
  - unfold copy_copy, read, mbind, M_bind. rewrite Hh. intros [= _ <- _]. done.
Qed.

Lemma grows_copy_draw_landmarks {B : Type} face_img landmarks colors thickness
    (k : positive -> M B) :
  (forall c, grows (k c)) ->
  grows (copied ← copy_copy face_img;
         img_dotted ← draw_landmarks cv2_circle copied landmarks colors thickness;
         k img_dotted).
Proof.
  intros Hk h r h' ev. destruct (h !! face_img) as [content|] eqn:Hh.
  - rewrite (bind_run_Ok _ _ _ _ _ _ (copy_copy_run _ _ _ Hh)).
    erewrite bind_run_Ok by (apply draw_landmarks_run, lookup_insert_eq).
    rewrite insert_insert_eq.
    destruct (k _ _) as [[r2 h2] ev2] eqn:Hkr. intros [= _ <- _].
    etransitivity; [|exact (Hk _ _ _ _ _ Hkr)].
    apply insert_subseteq, (alloc_fresh content).
  - unfold copy_copy, read, mbind, M_bind. rewrite Hh. intros [= _ <- _]. done.
Qed.

Ltac grows_step :=
  first
    [ apply grows_ret | apply grows_lift | apply grows_emit | apply grows_read
    | apply grows_alloc
    | apply grows_copy_draw_polylines | apply grows_copy_draw_landmarks
    | apply grows_bind | apply grows_for
    | match goal with |- forall _, grows _ => intro end
    | progress unfold logging_info, ndarray_shape, ndarray_crop, faces_detect,
        get_landmarks, cv2_imwrite, raise, load_img
    | match goal with |- grows (match ?x with _ => _ end) => destruct x end ].

Lemma grows_main_body filename img idx face_rect colors polyline_key :
  grows (main_body' filename img idx face_rect colors polyline_key).
Proof. unfold main_body. repeat grows_step. Qed.

Lemma grows_main_file filename : grows (main_file' filename).
Proof.
  unfold main_file. repeat grows_step; apply grows_main_body.
Qed.

(** The whole run leaves every array as it was created: the loaded images
    and the crops are never drawn on. *)
Lemma grows_main : grows main'.
Proof. unfold main. apply grows_for. exact grows_main_file. Qed.

(** *** Running the loop body *)

Lemma main_body_second_pass_empty filename img content idx face_rect colors polyline_key
    (h : heap) newLeft newTop newRight newBottom :
  h !! img = Some content ->
  edit_boundaries (rect_to_tuple face_rect) (shape content)
  = Ok [newLeft; newTop; newRight; newBottom] ->
  face_detector (crop content newTop newBottom newLeft newRight) = [] ->
  main_body' filename (Some img) idx face_rect colors polyline_key h
  = (Raise IndexError,
     <[fresh (dom h) := crop content newTop newBottom newLeft newRight]> h,
     [LogInfo ("lines: " +:+ filename +:+ ", colors: " +:+ polyline_key);
      Detect (crop content newTop newBottom newLeft newRight)]).
Proof.
  intros Hh Hedit Hdet. run_until_detect Hh Hedit.
  rewrite Hdet. erewrite bind_run_Raise by reflexivity. reflexivity.
Qed.

(** Whatever the second detection returns, the crop is cut with the box of
    [edit_boundaries] and handed to the detector. *)
Lemma main_body_crops filename img content idx face_rect colors polyline_key
    (h : heap) newLeft newTop newRight newBottom :
  h !! img = Some content ->
  edit_boundaries (rect_to_tuple face_rect) (shape content)
  = Ok [newLeft; newTop; newRight; newBottom] ->
  exists r h' evs,
    main_body' filename (Some img) idx face_rect colors polyline_key h
    = (r, h',
       LogInfo ("lines: " +:+ filename +:+ ", colors: " +:+ polyline_key)
       :: Detect (crop content newTop newBottom newLeft newRight) :: evs).
Proof.
  intros Hh Hedit. run_until_detect Hh Hedit.
  match goal with |- context [(?m ≫= ?k) ?h1] =>
    destruct ((m ≫= k) h1) as [[r2 h2] ev2] end.
  exists r2, h2, ev2. reflexivity.
Qed.

(** The second detection is the only call of the detector in the loop body,
    and only its first rectangle is read: a detector that returns that
    rectangle alone gives the same run. *)
Lemma main_body_other_rectangles_unused (detector' : image -> list rect)
    filename img content idx face_rect colors polyline_key
    (h : heap) newLeft newTop newRight newBottom first others :
  h !! img = Some content ->
  edit_boundaries (rect_to_tuple face_rect) (shape content)
  = Ok [newLeft; newTop; newRight; newBottom] ->
  face_detector (crop content newTop newBottom newLeft newRight) = first :: others ->
  detector' (crop content newTop newBottom newLeft newRight) = [first] ->
  main_body path dir detector' landmarks_predictor cv2_circle cv2_polylines
    filename (Some img) idx face_rect colors polyline_key h
  = main_body' filename (Some img) idx face_rect colors polyline_key h.
Proof.
  intros Hh Hedit Hdet Hdet'.
  set (rhs := main_body' filename (Some img) idx face_rect colors polyline_key h).
  run_until_detect Hh Hedit.
  rewrite Hdet'. erewrite py_getitem_at by (reflexivity || lia).
  run_step ltac:(reflexivity).
  match goal with |- context [(?m ≫= ?k) ?h1] => set (tail := (m ≫= k) h1) end.
  subst rhs. run_until_detect Hh Hedit.
  rewrite Hdet. erewrite py_getitem_at by (reflexivity || lia).
  run_step ltac:(reflexivity).
  reflexivity.
Qed.

(** C10. When the second detection, on the crop, returns one rectangle or
    more, the loop body hands the first one to the landmark predictor and
    makes no other call of the predictor; the files it writes are drawn
    from the landmarks of that first rectangle, and the run is the one of a
    detector that finds the first rectangle alone: the other rectangles
    leave no trace. *)
Theorem second_pass_uses_first_rectangle filename img content idx face_rect colors
    polyline_key (h : heap) newLeft newTop newRight newBottom first others :
  h !! img = Some content ->
  edit_boundaries (rect_to_tuple face_rect) (shape content)
  = Ok [newLeft; newTop; newRight; newBottom] ->
  face_detector (crop content newTop newBottom newLeft newRight) = first :: others ->
  let face := crop content newTop newBottom newLeft newRight in
  let landmarks := landmarks_predictor face first in
  exists r h' evs,
    main_body' filename (Some img) idx face_rect colors polyline_key h
    = (r, h',
       LogInfo ("lines: " +:+ filename +:+ ", colors: " +:+ polyline_key)
       :: Detect face :: Predict face first :: evs)
    /\ Forall (fun e => is_write e = true) evs
    /\ (forall detector' : image -> list rect,
          detector' face = [first] ->
          main_body path dir detector' landmarks_predictor cv2_circle cv2_polylines
            filename (Some img) idx face_rect colors polyline_key h
          = (r, h',
             LogInfo ("lines: " +:+ filename +:+ ", colors: " +:+ polyline_key)
             :: Detect face :: Predict face first :: evs))
    /\ forall segments polylines,
         dict_getitem face_polyline_segments polyline_key = Ok segments ->
         define_polylines landmarks segments = Ok polylines ->
         r = Ok tt
         /\ evs =
            ImWrite [path; dir; "faces"%string;
                     lines_file_name filename polyline_key colors idx]
                    (cv2_polylines face polylines false colors line_thickness cv2_LINE_AA)
            :: (if String.eqb polyline_key "full"
                then [ImWrite [path; dir; "faces"%string;
                               dots_file_name filename polyline_key colors idx]
                        (foldl (fun acc coor => cv2_circle acc coor 1 colors dot_thickness)
                               face (map (fun p => (point_x p, point_y p)) landmarks))]
                else []).
Proof.
  intros Hh Hedit Hdet face landmarks.
  pose proof (fun detector' Hd =>
                main_body_other_rectangles_unused detector' filename img content idx face_rect
                  colors polyline_key h _ _ _ _ _ _ Hh Hedit Hdet Hd) as Hsame.
  fold face in Hsame.
  assert (Hgoal : forall r h' evs,
    main_body' filename (Some img) idx face_rect colors polyline_key h
    = (r, h',
       LogInfo ("lines: " +:+ filename +:+ ", colors: " +:+ polyline_key)
       :: Detect face :: Predict face first :: evs) ->
    forall detector' : image -> list rect,
      detector' face = [first] ->
      main_body path dir detector' landmarks_predictor cv2_circle cv2_polylines
        filename (Some img) idx face_rect colors polyline_key h
      = (r, h',
         LogInfo ("lines: " +:+ filename +:+ ", colors: " +:+ polyline_key)
         :: Detect face :: Predict face first :: evs)).
  { intros r h' evs Hrun detector' Hd. rewrite (Hsame detector' Hd). exact Hrun. }
  clear Hsame. revert Hgoal.
  run_until_detect Hh Hedit.
  rewrite Hdet. erewrite py_getitem_at by (reflexivity || lia).
  run_step ltac:(reflexivity).
  run_step ltac:(apply get_landmarks_run, lookup_insert_eq).
  fold face. fold landmarks.
  destruct (dict_getitem face_polyline_segments polyline_key) as [segments|e] eqn:Hdict.
  2:{ erewrite bind_run_Raise by reflexivity. intros Hgoal.
      do 3 eexists. split; [reflexivity|]. split; [constructor|].
      split; [apply Hgoal; reflexivity|]. discriminate. }
  run_step ltac:(reflexivity).
  destruct (define_polylines landmarks segments) as [polylines|e] eqn:Hpoly.
  2:{ erewrite bind_run_Raise by reflexivity. intros Hgoal.
      do 3 eexists. split; [reflexivity|]. split; [constructor|].
      split; [apply Hgoal; reflexivity|].
      intros segments' polylines' [= <-]. rewrite Hpoly. discriminate. }
  run_step ltac:(reflexivity).
  run_step ltac:(apply copy_copy_run, lookup_insert_eq).
  run_step ltac:(apply draw_polylines_run, lookup_insert_eq).
  run_step ltac:(apply cv2_imwrite_run, lookup_insert_eq).
  rewrite insert_insert_eq.
  destruct (String.eqb polyline_key "full").
  - run_step ltac:(apply copy_copy_run;
                   rewrite lookup_insert_ne by apply fresh_insert_ne;
                   apply lookup_insert_eq).
    run_step ltac:(apply draw_landmarks_run, lookup_insert_eq).
    erewrite cv2_imwrite_run by apply lookup_insert_eq. intros Hgoal.
    do 3 eexists. split; [reflexivity|].
    split; [repeat constructor|].
    split; [apply Hgoal; reflexivity|].
    intros segments' polylines' [= <-]. rewrite Hpoly. intros [= <-].
    split; reflexivity.
  - intros Hgoal. do 3 eexists. split; [reflexivity|].
    split; [repeat constructor|].
    split; [apply Hgoal; reflexivity|].
    intros segments' polylines' [= <-]. rewrite Hpoly. intros [= <-].
    split; reflexivity.
Qed.

(** *** The batch *)

Lemma main_body_keeps filename img idx face_rect colors polyline_key l content
    (h h' : heap) r ev :
  h !! l = Some content ->
  main_body' filename img idx face_rect colors polyline_key h = (r, h', ev) ->
  h' !! l = Some content.
Proof.
  intros Hh Hrun. eapply lookup_weaken; [exact Hh|].
  exact (grows_main_body _ _ _ _ _ _ _ _ _ _ Hrun).
Qed.

Lemma face_loops_raise filename img content face_rect newLeft newTop newRight newBottom
    (faces_rect : list rect) :
  face_rect ∈ faces_rect ->
  edit_boundaries (rect_to_tuple face_rect) (shape content)
  = Ok [newLeft; newTop; newRight; newBottom] ->
  face_detector (crop content newTop newBottom newLeft newRight) = [] ->
  forall h : heap, h !! img = Some content ->
    raises (for_ (enumerate faces_rect) (fun '(idx, face_rect) =>
              for_ colors_bgr (fun colors =>
                for_ (dict_keys face_polyline_segments) (fun polyline_key =>
                  main_body' filename (Some img) idx face_rect colors polyline_key)))) h.
Proof.
  intros Hin Hedit Hdet.
  destruct (enumerate_elem_of _ _ Hin) as [idx Hidx].
  apply (for_raises (fun h => h !! img = Some content) _ _ (idx, face_rect) Hidx).
  - intros [idx' face_rect'] h r h' ev Hh Hrun. eapply lookup_weaken; [exact Hh|].
    revert Hrun. apply grows_for. intros colors. apply grows_for. intros key.
    apply grows_main_body.
  - apply (for_raises (fun h => h !! img = Some content) _ _ [255; 0; 255]).
    + apply list_elem_of_here.
    + intros colors h r h' ev Hh Hrun. eapply lookup_weaken; [exact Hh|].
      revert Hrun. apply grows_for. intros key. apply grows_main_body.
    + apply (for_raises (fun h => h !! img = Some content) _ _ "full"%string).
      * apply list_elem_of_here.
      * intros key h r h' ev Hh Hrun. exact (main_body_keeps _ _ _ _ _ _ _ _ _ _ _ _ Hh Hrun).
      * intros h Hh. eexists _, _, _.
        exact (main_body_second_pass_empty _ _ _ _ _ _ _ _ _ _ _ _ Hh Hedit Hdet).
Qed.

Lemma main_file_raises filename content face_rect newLeft newTop newRight newBottom :
  str_endswith_any filename ["jpg"; "JPG"]%string = true ->
  cv2_imread [path; dir; filename] = Some content ->
  face_rect ∈ face_detector content ->
  edit_boundaries (rect_to_tuple face_rect) (shape content)
  = Ok [newLeft; newTop; newRight; newBottom] ->
  face_detector (crop content newTop newBottom newLeft newRight) = [] ->
  forall h : heap, raises (main_file' filename) h.
Proof.
  intros Hsel Hread Hin Hedit Hdet h. unfold main_file. rewrite Hsel.
  eapply raises_bind_Ok; [reflexivity|]. cbv beta.
  eapply raises_bind_Ok; [unfold load_img; rewrite Hread; reflexivity|]. cbv beta.
  eapply raises_bind_Ok; [apply faces_detect_run, lookup_insert_eq|]. cbv beta.
  rewrite bool_decide_eq_true_2.
  2:{ intros Hnil. rewrite Hnil in Hin. apply elem_of_nil in Hin. exact Hin. }
  eapply face_loops_raise; [exact Hin | exact Hedit | exact Hdet | apply lookup_insert_eq].
Qed.

(** C4, amended. When the second detection, on the crop of a face, returns
    no rectangle, indexing its first item raises [IndexError]: the unit
    stops after the detection, with nothing drawn or written, and nothing
    catches the exception, so that [main] ends with an exception instead of
    going on with the other units, faces and files. *)
Theorem second_pass_without_face_ends_batch filename content face_rect
    newLeft newTop newRight newBottom :
  filename ∈ os_listdir [path; dir] ->
  str_endswith_any filename ["jpg"; "JPG"]%string = true ->
  cv2_imread [path; dir; filename] = Some content ->
  face_rect ∈ face_detector content ->
  edit_boundaries (rect_to_tuple face_rect) (shape content)
  = Ok [newLeft; newTop; newRight; newBottom] ->
  face_detector (crop content newTop newBottom newLeft newRight) = [] ->
  (forall img idx colors polyline_key (h : heap),
      h !! img = Some content ->
      main_body' filename (Some img) idx face_rect colors polyline_key h
      = (Raise IndexError,
         <[fresh (dom h) := crop content newTop newBottom newLeft newRight]> h,
         [LogInfo ("lines: " +:+ filename +:+ ", colors: " +:+ polyline_key);
          Detect (crop content newTop newBottom newLeft newRight)]))
  /\ forall h : heap, raises main' h.
Proof.
  intros Hfile Hsel Hread Hin Hedit Hdet. split.
  - intros img idx colors polyline_key h Hh.
    exact (main_body_second_pass_empty _ _ _ _ _ _ _ _ _ _ _ _ Hh Hedit Hdet).
  - intros h. unfold main.
    apply (for_raises (fun _ => True) _ _ filename Hfile); [done| |done].
    intros h0 _. exact (main_file_raises _ _ _ _ _ _ _ Hsel Hread Hin Hedit Hdet h0).
Qed.

(** C5, amended. There is no error for a degenerate box: for every box
    [edit_boundaries] returns the expanded and clamped box, and when that
    box has [newRight <= newLeft] or [newBottom <= newTop] the loop body of
    [main] cuts the crop with it all the same and hands that crop to the
    detector. *)
Theorem degenerate_box_is_returned_and_cropped filename img content idx face_rect colors
    polyline_key (h : heap) :
  int64_range (rect_left face_rect) -> int64_range (rect_top face_rect) ->
  int64_range (rect_right face_rect) -> int64_range (rect_bottom face_rect) ->
  h !! img = Some content ->
  exists newLeft newTop newRight newBottom,
    edit_boundaries (rect_to_tuple face_rect) (shape content)
    = Ok [newLeft; newTop; newRight; newBottom]
    /\ (newRight <= newLeft \/ newBottom <= newTop ->
        exists r h' evs,
          main_body' filename (Some img) idx face_rect colors polyline_key h
          = (r, h',
             LogInfo ("lines: " +:+ filename +:+ ", colors: " +:+ polyline_key)
             :: Detect (crop content newTop newBottom newLeft newRight) :: evs)).
Proof.
  intros Hl Ht Hr Hb Hh.
  destruct (int64_rounds_return _ _ _ _ Hl Ht Hr Hb) as (dw & dt & db & Hw & Hdt & Hdb & _).
  pose proof (edit_boundaries_run _ _ _ _ (Z.of_nat (length content))
                (Z.of_nat (length (hd [] content))) [3] _ _ _ Hw Hdt Hdb) as Hedit.
  do 4 eexists. split; [exact Hedit|]. intros _.
  exact (main_body_crops _ _ _ _ _ _ _ _ _ _ _ _ Hh Hedit).
Qed.

(** C8, amended. A file of the directory is processed exactly when its
    name ends with [jpg] or with [JPG]: these two casings and no other.  A
    name that is not selected is skipped without any effect; for a name
    that is selected, processing starts with its log line. *)
Theorem file_selected_iff_jpg_or_JPG (filename : string) (h : heap) :
  (str_endswith_any filename ["jpg"; "JPG"]%string = true
   <-> exists stem, filename = stem +:+ "jpg" \/ filename = stem +:+ "JPG")
  /\ exists r h' evs,
       main_file' filename h
       = if str_endswith_any filename ["jpg"; "JPG"]%string
         then (r, h', LogInfo ("processing: " +:+ filename) :: evs)
         else (Ok tt, h, []).
Proof.
  split; [apply jpg_suffixes_iff|].
  unfold main_file. destruct (str_endswith_any filename ["jpg"; "JPG"]%string).
  - erewrite bind_run_Ok by reflexivity. cbv beta.
    match goal with |- context [(?m ≫= ?k) ?h1] =>
      destruct ((m ≫= k) h1) as [[r2 h2] ev2] end.
    exists r2, h2, ev2. reflexivity.
  - exists (Ok tt), h, []. reflexivity.
Qed.
End Orchestrator.

(** ** Concrete runs *)

(** C3, as the specification states it, fails: after [draw_landmarks] and
    after [draw_polylines] the buffer of the argument holds the overlay, it
    is not what it was before the call.  The point is drawn on an image of
    one pixel; the polyline has two points, the two pixels of an image of
    one row, which the segment between them covers. *)
Lemma draw_functions_change_their_argument :
  let h : gmap positive image := {[ 1%positive := toy_image 1 ]} in
  let strip : gmap positive image := {[ 1%positive := [[[0; 0; 0]; [0; 0; 0]]] ]} in
  let after_dots :=
    (draw_landmarks toy_circle 1%positive [ {| point_x := 0; point_y := 0 |} ]
       [0; 255; 255] 15 h).1.2 in
  let after_lines :=
    (draw_polylines toy_polylines 1%positive [[[0; 0]; [1; 0]]] [255; 0; 255] 3 strip).1.2 in
  h !! 1%positive = Some [[[0; 0; 0]]]
  /\ strip !! 1%positive = Some [[[0; 0; 0]; [0; 0; 0]]]
  /\ after_dots !! 1%positive = Some [[[0; 255; 255]]]
  /\ after_lines !! 1%positive = Some [[[255; 0; 255]; [255; 0; 255]]]
  /\ after_dots !! 1%positive <> h !! 1%positive
  /\ after_lines !! 1%positive <> strip !! 1%positive.
Proof.
  repeat split; try (vm_compute; reflexivity); vm_compute; discriminate.
Qed.

Lemma draw_functions_draw_in_place_witness :
  let h : gmap positive image := {[ 1%positive := toy_image 2 ]} in
  draw_polylines toy_polylines 1%positive [[[0; 0]; [1; 1]]] [0; 255; 255] 3 h
  = (Ok 1%positive,
     <[1%positive := toy_polylines (toy_image 2) [[[0; 0]; [1; 1]]] false [0; 255; 255] 3
                                   cv2_LINE_AA]> h,
     [])
  /\ exists copied h2,
       copied <> 1%positive
       /\ (c ← copy_copy 1%positive;
           draw_polylines toy_polylines c [[[0; 0]; [1; 1]]] [0; 255; 255] 3) h
          = (Ok copied, h2, [])
       /\ h2 !! 1%positive = Some (toy_image 2).
Proof.
  intros h.
  destruct (draw_functions_draw_in_place toy_circle toy_polylines 1%positive (toy_image 2)
              toy_landmarks [[[0; 0]; [1; 1]]] [0; 255; 255] 3 h eq_refl)
    as (_ & Hlines & copied & h1 & h2 & Hne & _ & _ & _ & Hcopy & _ & Hkeep).
  split; [exact Hlines|]. exists copied, h2. split; [exact Hne|]. split; [exact Hcopy|].
  exact Hkeep.
Defined.

(** C4, as the specification states it, fails: with [b.jpg] alone the run
    returns and writes 18 files; with [a.jpg] before it, whose crop holds no
    face for the second detection, the run ends with [IndexError], writes no
    file and never reaches [b.jpg]. *)
Lemma second_pass_failure_is_fatal :
  (toy_main_b ∅).1.1 = Ok tt
  /\ length (List.filter is_write (toy_main_b ∅).2) = 18%nat
  /\ (toy_main ∅).1.1 = Raise IndexError
  /\ List.filter is_write (toy_main ∅).2 = []
  /\ (toy_main ∅).2
     = [LogInfo "processing: a.jpg"; Detect (toy_image 6);
        LogInfo "lines: a.jpg, colors: full";
        Detect (replicate 5 (replicate 4 [0; 0; 0]))].
Proof. repeat split; vm_compute; reflexivity. Qed.

Lemma second_pass_without_face_ends_batch_witness :
  (forall img idx colors polyline_key (h : gmap positive image),
      h !! img = Some (toy_image 6) ->
      main_body "/srv" "photos" toy_detector toy_predictor toy_circle toy_polylines
        "a.jpg" (Some img) idx
        {| rect_left := 2; rect_top := 2; rect_right := 4; rect_bottom := 4 |}
        colors polyline_key h
      = (Raise IndexError,
         <[fresh (dom h) := crop (toy_image 6) 0 5 1 5]> h,
         [LogInfo ("lines: " +:+ "a.jpg" +:+ ", colors: " +:+ polyline_key);
          Detect (crop (toy_image 6) 0 5 1 5)]))
  /\ forall h : gmap positive image, raises toy_main h.
Proof.
  apply (second_pass_without_face_ends_batch "/srv" "photos" toy_listdir toy_imread
           toy_detector toy_predictor toy_circle toy_polylines "a.jpg" (toy_image 6)
           {| rect_left := 2; rect_top := 2; rect_right := 4; rect_bottom := 4 |} 1 0 5 5).
  - apply list_elem_of_here.
  - reflexivity.
  - reflexivity.
  - apply list_elem_of_here.
  - vm_compute. reflexivity.
  - reflexivity.
Defined.

(** C5, as the specification states it, fails: a box without width or
    height is returned as it is, and the loop body cuts the (empty) crop
    with it and calls the detector on that crop. *)
Lemma degenerate_box_raises_no_error :
  edit_boundaries [5; 5; 5; 5] [10; 10; 3] = Ok [5; 5; 5; 5]
  /\ degenerate [5; 5; 5; 5]
  /\ (main_body "/srv" "photos" toy_detector toy_predictor toy_circle toy_polylines
        "c.jpg" (Some 1%positive) 0
        {| rect_left := 5; rect_top := 5; rect_right := 5; rect_bottom := 5 |}
        [255; 0; 255] "full" {[ 1%positive := toy_image 10 ]}).2
     = [LogInfo "lines: c.jpg, colors: full"; Detect []].
Proof.
  split; [vm_compute; reflexivity|]. split; [cbn; lia|]. vm_compute. reflexivity.
Qed.

Lemma degenerate_box_is_returned_and_cropped_witness :
  exists newLeft newTop newRight newBottom,
    edit_boundaries [5; 5; 5; 5] (shape (toy_image 10))
    = Ok [newLeft; newTop; newRight; newBottom]
    /\ (newRight <= newLeft \/ newBottom <= newTop ->
        exists r h' evs,
          main_body "/srv" "photos" toy_detector toy_predictor toy_circle toy_polylines
            "c.jpg" (Some 1%positive) 0
            {| rect_left := 5; rect_top := 5; rect_right := 5; rect_bottom := 5 |}
            [255; 0; 255] "full" {[ 1%positive := toy_image 10 ]}
          = (r, h',
             LogInfo ("lines: " +:+ "c.jpg" +:+ ", colors: " +:+ "full")
             :: Detect (crop (toy_image 10) newTop newBottom newLeft newRight) :: evs)).
Proof.
  apply (degenerate_box_is_returned_and_cropped "/srv" "photos" toy_detector toy_predictor
           toy_circle toy_polylines "c.jpg" 1%positive (toy_image 10) 0%nat
           {| rect_left := 5; rect_top := 5; rect_right := 5; rect_bottom := 5 |}
           [255; 0; 255] "full" {[ 1%positive := toy_image 10 ]}).
  - unfold int64_range. cbn. lia.
  - unfold int64_range. cbn. lia.
  - unfold int64_range. cbn. lia.
  - unfold int64_range. cbn. lia.
  - reflexivity.
Defined.

(** C8, as the specification states it, fails: [IMG_1.Jpg] ends with [jpg]
    when the case of the letters is ignored, and it is not selected. *)
Lemma mixed_case_extension_is_not_selected :
  ends_with_jpg_ignoring_case "IMG_1.Jpg" = true
  /\ str_endswith_any "IMG_1.Jpg" ["jpg"; "JPG"]%string = false
  /\ main_file "/srv" "photos" toy_imread toy_detector toy_predictor toy_circle toy_polylines
       "IMG_1.Jpg" ∅
     = (Ok tt, ∅, []).
Proof. repeat split; vm_compute; reflexivity. Qed.

Lemma second_pass_uses_first_rectangle_witness :
  let face := crop (toy_image 8) 0 8 0 8 in
  let landmarks := toy_predictor face toy_face in
  exists r h' evs,
    main_body "/srv" "photos" toy_detector toy_predictor toy_circle toy_polylines
      "b.jpg" (Some 1%positive) 0 toy_face [255; 0; 255] "partial"
      {[ 1%positive := toy_image 8 ]}
    = (r, h',
       LogInfo ("lines: " +:+ "b.jpg" +:+ ", colors: " +:+ "partial")
       :: Detect face :: Predict face toy_face :: evs)
    /\ Forall (fun e => is_write e = true) evs
    /\ (forall detector' : image -> list rect,
          detector' face = [toy_face] ->
          main_body "/srv" "photos" detector' toy_predictor toy_circle toy_polylines
            "b.jpg" (Some 1%positive) 0 toy_face [255; 0; 255] "partial"
            {[ 1%positive := toy_image 8 ]}
          = (r, h',
             LogInfo ("lines: " +:+ "b.jpg" +:+ ", colors: " +:+ "partial")
             :: Detect face :: Predict face toy_face :: evs))
    /\ forall segments polylines,
         dict_getitem face_polyline_segments "partial" = Ok segments ->
         define_polylines landmarks segments = Ok polylines ->
         r = Ok tt
         /\ evs =
            ImWrite ["/srv"; "photos"; "faces";
                     lines_file_name "b.jpg" "partial" [255; 0; 255] 0]%string
                    (toy_polylines face polylines false [255; 0; 255] line_thickness
                                   cv2_LINE_AA)
            :: (if String.eqb "partial" "full"
                then [ImWrite ["/srv"; "photos"; "faces";
                               dots_file_name "b.jpg" "partial" [255; 0; 255] 0]%string
                        (foldl (fun acc coor => toy_circle acc coor 1 [255; 0; 255] dot_thickness)
                               face (map (fun p => (point_x p, point_y p)) landmarks))]
                else []).
Proof.
  apply (second_pass_uses_first_rectangle "/srv" "photos" toy_detector toy_predictor
           toy_circle toy_polylines "b.jpg" 1%positive (toy_image 8) 0%nat toy_face
           [255; 0; 255] "partial" {[ 1%positive := toy_image 8 ]} 0 0 8 8 toy_face
           [ {| rect_left := 1; rect_top := 1; rect_right := 7; rect_bottom := 7 |} ]).
  - reflexivity.
  - vm_compute. reflexivity.
  - reflexivity.
Defined.

(** * Further properties of the module *)

(** ** [define_polylines] with any indices *)

Lemma py_getitem_valid {A : Type} (l : list A) (i : Z) :
  py_valid_index (length l) i ->
  exists a, l !! Z.to_nat (i mod Z.of_nat (length l)) = Some a /\ py_getitem l i = Ok a.
Proof.
  unfold py_valid_index, py_getitem, py_index. intros Hi.
  destruct (Z.ltb_spec i 0) as [Hneg|Hpos].
  - destruct (Z.leb_spec 0 (i + Z.of_nat (length l))); [|lia].
    destruct (Z.ltb_spec (i + Z.of_nat (length l)) (Z.of_nat (length l))); [|lia].
    cbn [andb].
    assert (Hmod : i mod Z.of_nat (length l) = i + Z.of_nat (length l)).
    { symmetry. apply (Z.mod_unique _ _ (-1)); lia. }
    rewrite Hmod.
    destruct (lookup_lt_is_Some_2 l (Z.to_nat (i + Z.of_nat (length l))) ltac:(lia)) as [a Ha].
    exists a. rewrite Ha. done.
  - destruct (Z.leb_spec 0 i); [|lia].
    destruct (Z.ltb_spec i (Z.of_nat (length l))); [|lia].
    cbn [andb]. rewrite Z.mod_small by lia.
    destruct (lookup_lt_is_Some_2 l (Z.to_nat i) ltac:(lia)) as [a Ha].
    exists a. rewrite Ha. done.
Qed.

Lemma py_getitem_invalid {A : Type} (l : list A) (i : Z) :
  ~ py_valid_index (length l) i -> py_getitem l i = Raise IndexError.
Proof.
  unfold py_valid_index, py_getitem, py_index. intros Hi.
  destruct (Z.ltb_spec i 0) as [Hneg|Hpos].
  - destruct (Z.leb_spec 0 (i + Z.of_nat (length l))); [lia|]. reflexivity.
  - destruct (Z.leb_spec 0 i); [|lia].
    destruct (Z.ltb_spec i (Z.of_nat (length l))); [lia|]. reflexivity.
Qed.

Lemma py_valid_index_cases (n : nat) (i : Z) : py_valid_index n i \/ ~ py_valid_index n i.
Proof. unfold py_valid_index. lia. Qed.

Lemma segment_loop_any (coors : list (Z * Z)) (segment : list Z) (acc : list (Z * Z)) :
  (Forall (py_valid_index (length coors)) segment
   /\ exists pts,
        foldlM (fun segment_coors point =>
                  c ← py_getitem coors point; Ok (segment_coors ++ [c])) segment acc
        = Ok (acc ++ pts)
        /\ Forall2 (fun i c => coors !! Z.to_nat (i mod Z.of_nat (length coors)) = Some c)
                   segment pts)
  \/ (~ Forall (py_valid_index (length coors)) segment
      /\ foldlM (fun segment_coors point =>
                   c ← py_getitem coors point; Ok (segment_coors ++ [c])) segment acc
         = Raise IndexError).
Proof.
  revert acc. induction segment as [|i segment IH]; intros acc.
  - left. split; [constructor|]. exists []. rewrite app_nil_r. split; [reflexivity|constructor].
  - cbn [foldlM]. destruct (py_valid_index_cases (length coors) i) as [Hi|Hi].
    + destruct (py_getitem_valid coors i Hi) as (c & Hc & ->). rewrite !bind_Ok.
      destruct (IH (acc ++ [c])) as [(Hall & pts & Hrun & Hpts)|(Hall & Hrun)].
      * left. split; [constructor; assumption|]. exists (c :: pts).
        rewrite Hrun, <- app_assoc. split; [reflexivity|]. constructor; assumption.
      * right. split; [|exact Hrun]. intros H. apply Forall_cons in H as [_ H]. exact (Hall H).
    + right. rewrite (py_getitem_invalid coors i Hi). split; [|reflexivity].
      intros H. apply Forall_cons in H as [H _]. exact (Hi H).
Qed.

Lemma polylines_loop_any (landmarks : list point) (segments : list (list Z))
    (acc : list (list (list Z))) :
  (Forall (Forall (py_valid_index (length landmarks))) segments
   /\ exists polylines,
        foldlM (fun polylines segment =>
            segment_coors ← foldlM (fun segment_coors point =>
                c ← py_getitem (map (fun p => (point_x p, point_y p)) landmarks) point;
                Ok (segment_coors ++ [c])) segment [];
            segment_coors ← np_reshape_rows_2 segment_coors;
            Ok (polylines ++ [segment_coors]))
          segments acc
        = Ok (acc ++ polylines)
        /\ Forall2 (Forall2 (fun i row =>
              exists p, landmarks !! Z.to_nat (i mod Z.of_nat (length landmarks)) = Some p
                        /\ row = [point_x p; point_y p]))
            segments polylines)
  \/ (~ Forall (Forall (py_valid_index (length landmarks))) segments
      /\ foldlM (fun polylines segment =>
            segment_coors ← foldlM (fun segment_coors point =>
                c ← py_getitem (map (fun p => (point_x p, point_y p)) landmarks) point;
                Ok (segment_coors ++ [c])) segment [];
            segment_coors ← np_reshape_rows_2 segment_coors;
            Ok (polylines ++ [segment_coors]))
          segments acc
         = Raise IndexError).
Proof.
  revert acc. induction segments as [|segment segments IH]; intros acc.
  - left. split; [constructor|]. exists []. rewrite app_nil_r. split; [reflexivity|constructor].
  - cbn [foldlM].
    destruct (segment_loop_any (map (fun p => (point_x p, point_y p)) landmarks) segment [])
      as [(Hseg & pts & Hrun & Hpts)|(Hseg & Hrun)]; rewrite length_map in *.
    + rewrite Hrun. cbn [app]. rewrite bind_Ok, rows_of_2_pairs, !bind_Ok.
      destruct (IH (acc ++ [map (fun c => [c.1; c.2]) pts]))
        as [(Hall & polylines & Hrest & Hpoly)|(Hall & Hrest)].
      * left. split; [constructor; assumption|].
        exists (map (fun c => [c.1; c.2]) pts :: polylines).
        rewrite Hrest, <- app_assoc. split; [reflexivity|].
        constructor; [|exact Hpoly].
        apply Forall2_fmap_r. eapply Forall2_impl; [exact Hpts|].
        intros i c Hc. cbn beta in Hc. rewrite list_lookup_fmap in Hc.
        destruct (landmarks !! _) as [p|]; [|discriminate].
        injection Hc as <-. exists p. split; reflexivity.
      * right. split; [|exact Hrest]. intros H. apply Forall_cons in H as [_ H]. exact (Hall H).
    + right. rewrite Hrun. split; [|reflexivity].
      intros H. apply Forall_cons in H as [H _]. exact (Hseg H).
Qed.

(** X1. [define_polylines] returns exactly when every index of every
    segment is one Python accepts for the list of landmarks
    ([-n <= i < n] for [n] landmarks); otherwise it raises [IndexError], and
    it raises nothing else. *)
Theorem define_polylines_returns_iff (landmarks : list point) (segments : list (list Z)) :
  ((exists polylines, define_polylines landmarks segments = Ok polylines)
   <-> Forall (Forall (py_valid_index (length landmarks))) segments)
  /\ (define_polylines landmarks segments = Raise IndexError
      <-> ~ Forall (Forall (py_valid_index (length landmarks))) segments)
  /\ forall e, define_polylines landmarks segments = Raise e -> e = IndexError.
Proof.
  unfold define_polylines.
  destruct (polylines_loop_any landmarks segments [])
    as [(Hall & polylines & Hrun & _)|(Hall & Hrun)]; rewrite Hrun.
  - split; [|split].
    + split; [intros _; exact Hall | intros _; eexists; reflexivity].
    + split; [discriminate | intros H; contradiction].
    + discriminate.
  - split; [|split].
    + split; [intros [ps Hps]; discriminate | intros H; contradiction].
    + split; [intros _; exact Hall | reflexivity].
    + intros e [= <-]. reflexivity.
Qed.

(** X2. With indices Python accepts, negative ones included,
    [define_polylines] keeps the number and the order of the segments and of
    their points, and the row for an index [i] is the landmark at position
    [i mod n]: a negative index counts from the last landmark. *)
Theorem define_polylines_wraps_negative_indices (landmarks : list point)
    (segments : list (list Z)) :
  Forall (Forall (py_valid_index (length landmarks))) segments ->
  exists polylines,
    define_polylines landmarks segments = Ok polylines
    /\ length polylines = length segments
    /\ forall (j : nat) (segment : list Z), segments !! j = Some segment ->
       exists polyline,
         polylines !! j = Some polyline
         /\ length polyline = length segment
         /\ forall (k : nat) (i : Z), segment !! k = Some i ->
            exists p, landmarks !! Z.to_nat (i mod Z.of_nat (length landmarks)) = Some p
                      /\ polyline !! k = Some [point_x p; point_y p].
Proof.
  intros Hall. unfold define_polylines.
  destruct (polylines_loop_any landmarks segments [])
    as [(_ & polylines & Hrun & Hps)|(Hno & _)]; [|contradiction].
  exists polylines. split; [exact Hrun|]. split.
  - symmetry. exact (Forall2_length _ _ _ Hps).
  - intros j segment Hj.
    destruct (Forall2_lookup_l _ _ _ _ _ Hps Hj) as (polyline & Hpl & Hrows).
    exists polyline. split; [exact Hpl|]. split.
    + symmetry. exact (Forall2_length _ _ _ Hrows).
    + intros k i Hk.
      destruct (Forall2_lookup_l _ _ _ _ _ Hrows Hk) as (row & Hrow & p & Hp & ->).
      exists p. split; [exact Hp | exact Hrow].
Qed.

Lemma define_polylines_wraps_negative_indices_witness :
  exists polylines,
    define_polylines toy_landmarks [[-1; 0]; [-68; 67]] = Ok polylines
    /\ length polylines = length [[-1; 0]; [-68; 67]]
    /\ forall (j : nat) (segment : list Z), [[-1; 0]; [-68; 67]] !! j = Some segment ->
       exists polyline,
         polylines !! j = Some polyline
         /\ length polyline = length segment
         /\ forall (k : nat) (i : Z), segment !! k = Some i ->
            exists p, toy_landmarks !! Z.to_nat (i mod Z.of_nat (length toy_landmarks)) = Some p
                      /\ polyline !! k = Some [point_x p; point_y p].
Proof.
  apply (define_polylines_wraps_negative_indices toy_landmarks [[-1; 0]; [-68; 67]]).
  unfold py_valid_index. repeat constructor; vm_compute; discriminate.
Defined.

(** ** [edit_boundaries] on any box and shape *)

Ltac run_result_with Hset :=
  repeat first
    [ progress run_result
    | rewrite Hset by (rewrite ?length_insert; reflexivity || lia) ].

(** The function reads the first four entries of the box and, after its
    roundings, the first two entries of the shape. *)
Lemma edit_boundaries_unfold_any l t r b extra img_shape :
  edit_boundaries (l :: t :: r :: b :: extra) img_shape
  = (dw ← round_float_mul_int c050 (r - l);
     dt ← round_float_mul_int c075 (b - t);
     db ← round_float_mul_int c050 (b - t);
     s1 ← py_getitem img_shape 1;
     s0 ← py_getitem img_shape 0;
     Ok [Z.max (l - dw) 0; Z.max (t - dt) 0; Z.min (r + dw) s1; Z.min (b + db) s0]).
Proof.
  unfold edit_boundaries.
  set (s1 := py_getitem img_shape 1). set (s0 := py_getitem img_shape 0).
  assert (Hset : forall (edited : list Z) i v,
             length edited = S (S (S (S (length extra)))) -> 0 <= i < 4 ->
             py_setitem edited i v = Ok (<[Z.to_nat i := v]> edited))
    by (intros edited i v Hlen Hi; apply py_setitem_at; lia).
  run_result_with Hset.
  destruct (round_float_mul_int c050 (r - l)) as [dw|e]; run_result_with Hset; [|reflexivity].
  destruct (round_float_mul_int c075 (b - t)) as [dt|e]; run_result_with Hset; [|reflexivity].
  destruct (round_float_mul_int c050 (b - t)) as [db|e]; run_result_with Hset; reflexivity.
Qed.

Lemma round_half_even_near n d :
  0 < d -> - d <= 2 * (d * round_half_even n d - n) <= d.
Proof.
  intros Hd. unfold round_half_even.
  pose proof (Z.div_mod n d ltac:(lia)) as Hn.
  pose proof (Z.mod_pos_bound n d Hd) as Hr.
  destruct (Z.compare_spec (2 * (n mod d)) d) as [Heq|Hlt|Hgt].
  - destruct (Z.even (n / d)); nia.
  - nia.
  - nia.
Qed.

(** X3. [edit_boundaries] returns exactly when the box has four entries or
    more and the shape two or more; with fewer it raises [IndexError].  The
    box it returns has four entries, whatever the box given has beyond its
    fourth entry. *)
Theorem edit_boundaries_returns_iff (boundaries img_shape : list Z) :
  Forall int64_range boundaries ->
  ((exists box, edit_boundaries boundaries img_shape = Ok box)
   <-> (4 <= length boundaries)%nat /\ (2 <= length img_shape)%nat)
  /\ (edit_boundaries boundaries img_shape = Raise IndexError
      <-> (length boundaries < 4)%nat \/ (length img_shape < 2)%nat)
  /\ forall box, edit_boundaries boundaries img_shape = Ok box ->
       length box = 4%nat
       /\ edit_boundaries (take 4 boundaries) (take 2 img_shape) = Ok box.
Proof.
  intros Hall.
  destruct boundaries as [|l [|t [|r [|b extra]]]];
    try (assert (Hraise : forall bs, (length bs < 4)%nat ->
                   edit_boundaries bs img_shape = Raise IndexError)
           by (intros [|? [|? [|? [|? ?]]]] Hlen; try reflexivity; cbn [length] in Hlen; lia);
         rewrite Hraise by (cbn [length]; lia);
         cbn [length];
         split; [split; [intros [box Hbox]; discriminate Hbox | lia]|];
         split; [split; [intros _; left; lia | reflexivity]|];
         intros box Hbox; discriminate Hbox).
  apply Forall_cons in Hall as [Hl Hall]. apply Forall_cons in Hall as [Ht Hall].
  apply Forall_cons in Hall as [Hr Hall]. apply Forall_cons in Hall as [Hb _].
  destruct (int64_rounds_return l t r b Hl Ht Hr Hb) as (dw & dt & db & Hw & Hdt & Hdb & _).
  cbn [take]. rewrite (edit_boundaries_unfold_any l t r b []).
  rewrite edit_boundaries_unfold_any, Hw, Hdt, Hdb, !bind_Ok.
  destruct img_shape as [|rows [|cols rest]]; cbn [length take].
  - split; [split; [intros [box Hbox]; discriminate Hbox | lia]|].
    split; [split; [intros _; right; lia | reflexivity]|].
    intros box Hbox; discriminate Hbox.
  - split; [split; [intros [box Hbox]; discriminate Hbox | lia]|].
    split; [split; [intros _; right; lia | reflexivity]|].
    intros box Hbox; discriminate Hbox.
  - run_result.
    split; [split; [intros _; lia | intros _; eexists; reflexivity]|].
    split; [split; [discriminate | lia]|].
    intros box [= <-]. split; reflexivity.
Qed.

Lemma edit_boundaries_returns_iff_witness :
  ((exists box, edit_boundaries [40; 60; 100; 120; 7] [200; 300] = Ok box)
   <-> (4 <= length [40; 60; 100; 120; 7])%nat /\ (2 <= length [200; 300])%nat)
  /\ (edit_boundaries [40; 60; 100; 120; 7] [200; 300] = Raise IndexError
      <-> (length [40; 60; 100; 120; 7] < 4)%nat \/ (length [200; 300] < 2)%nat)
  /\ forall box, edit_boundaries [40; 60; 100; 120; 7] [200; 300] = Ok box ->
       length box = 4%nat
       /\ edit_boundaries (take 4 [40; 60; 100; 120; 7]) (take 2 [200; 300]) = Ok box.
Proof.
  apply (edit_boundaries_returns_iff [40; 60; 100; 120; 7] [200; 300]).
  unfold int64_range. repeat constructor; lia.
Defined.

(** X4. For every box of machine integers with [left <= right] and
    [top <= bottom] the box returned lies right of column 0, below row 0,
    left of the column count and above the row count, and it covers the part
    of the given box that lies in the image: the expansion never cuts into
    the face. *)
Theorem edit_boundaries_covers_box left top right bottom rowCount colCount rest :
  int64_range left -> int64_range top -> int64_range right -> int64_range bottom ->
  left <= right -> top <= bottom ->
  exists newLeft newTop newRight newBottom,
    edit_boundaries [left; top; right; bottom] (rowCount :: colCount :: rest)
    = Ok [newLeft; newTop; newRight; newBottom]
    /\ 0 <= newLeft <= Z.max left 0
    /\ 0 <= newTop <= Z.max top 0
    /\ Z.min right colCount <= newRight <= colCount
    /\ Z.min bottom rowCount <= newBottom <= rowCount.
Proof.
  intros Hl Ht Hr Hb Hlr Htb.
  destruct (int64_rounds_return left top right bottom Hl Ht Hr Hb)
    as (dw & dt & db & Hw & Hdt & Hdb & Hw0 & Hh0).
  rewrite (edit_boundaries_run _ _ _ _ _ _ _ _ _ _ Hw Hdt Hdb).
  do 4 eexists. split; [reflexivity|]. lia.
Qed.

Lemma edit_boundaries_covers_box_witness :
  exists newLeft newTop newRight newBottom,
    edit_boundaries [-30; 10; 50; 90] [80; 60; 3]
    = Ok [newLeft; newTop; newRight; newBottom]
    /\ 0 <= newLeft <= Z.max (-30) 0
    /\ 0 <= newTop <= Z.max 10 0
    /\ Z.min 50 60 <= newRight <= 60
    /\ Z.min 90 80 <= newBottom <= 80.
Proof.
  apply (edit_boundaries_covers_box (-30) 10 50 90 80 60 [3]); unfold int64_range; lia.
Defined.

(** X5. The size of the box returned, for pixel coordinates: it is never
    wider than twice the width of the given box plus one, nor higher than
    nine quarters of its height plus one; where no side is clamped it is not
    narrower than twice the width minus one, nor lower than nine quarters of
    the height minus one. *)
Theorem edit_boundaries_size left top right bottom rowCount colCount rest :
  pixel_range left -> pixel_range top -> pixel_range right -> pixel_range bottom ->
  exists newLeft newTop newRight newBottom,
    edit_boundaries [left; top; right; bottom] (rowCount :: colCount :: rest)
    = Ok [newLeft; newTop; newRight; newBottom]
    /\ newRight - newLeft <= 2 * (right - left) + 1
    /\ 4 * (newBottom - newTop) <= 9 * (bottom - top) + 4
    /\ (0 < newLeft -> newRight < colCount -> 2 * (right - left) - 1 <= newRight - newLeft)
    /\ (0 < newTop -> newBottom < rowCount ->
        9 * (bottom - top) - 4 <= 4 * (newBottom - newTop)).
Proof.
  intros Hl Ht Hr Hb.
  destruct (pixel_range_rounds left top right bottom Hl Ht Hr Hb) as (Hw & Hh & Hh').
  rewrite (edit_boundaries_run _ _ _ _ _ _ _ _ _ _ Hw Hh Hh').
  pose proof (round_half_even_near (right - left) 2 ltac:(lia)).
  pose proof (round_half_even_near (3 * (bottom - top)) 4 ltac:(lia)).
  pose proof (round_half_even_near (bottom - top) 2 ltac:(lia)).
  do 4 eexists. split; [reflexivity|]. lia.
Qed.

Lemma edit_boundaries_size_witness :
  exists newLeft newTop newRight newBottom,
    edit_boundaries [100; 100; 131; 127] [400; 400; 3]
    = Ok [newLeft; newTop; newRight; newBottom]
    /\ newRight - newLeft <= 2 * (131 - 100) + 1
    /\ 4 * (newBottom - newTop) <= 9 * (127 - 100) + 4
    /\ (0 < newLeft -> newRight < 400 -> 2 * (131 - 100) - 1 <= newRight - newLeft)
    /\ (0 < newTop -> newBottom < 400 ->
        9 * (127 - 100) - 4 <= 4 * (newBottom - newTop)).
Proof.
  apply (edit_boundaries_size 100 100 131 127 400 400 [3]); unfold pixel_range; lia.
Defined.

(** ** The crop *)

Lemma py_slice_bound_inside (n : nat) (i : Z) :
  0 <= i <= Z.of_nat n -> py_slice_bound n i = Z.to_nat i.
Proof.
  intros Hi. unfold py_slice_bound. destruct (Z.ltb_spec i 0); [lia|]. f_equal. lia.
Qed.

Lemma py_slice_bound_negative (n : nat) (i : Z) :
  - Z.of_nat n <= i < 0 -> py_slice_bound n i = py_slice_bound n (Z.of_nat n + i).
Proof.
  intros Hi. unfold py_slice_bound.
  destruct (Z.ltb_spec i 0); [|lia]. destruct (Z.ltb_spec (Z.of_nat n + i) 0); [lia|].
  f_equal. lia.
Qed.

Lemma py_slice_inside {A : Type} (l : list A) (start stop : Z) :
  0 <= start <= stop -> stop <= Z.of_nat (length l) ->
  py_slice l start stop = take (Z.to_nat (stop - start)) (drop (Z.to_nat start) l).
Proof.
  intros Hs He. unfold py_slice. rewrite !py_slice_bound_inside by lia.
  f_equal. lia.
Qed.

Lemma py_slice_inside_length {A : Type} (l : list A) (start stop : Z) :
  0 <= start <= stop -> stop <= Z.of_nat (length l) ->
  length (py_slice l start stop) = Z.to_nat (stop - start).
Proof.
  intros Hs He. rewrite py_slice_inside by lia. rewrite length_take, length_drop. lia.
Qed.

Lemma py_slice_inside_lookup {A : Type} (l : list A) (start stop : Z) (i : nat) :
  0 <= start <= stop -> stop <= Z.of_nat (length l) ->
  (i < Z.to_nat (stop - start))%nat ->
  py_slice l start stop !! i = l !! (Z.to_nat start + i)%nat.
Proof.
  intros Hs He Hi. rewrite py_slice_inside by lia.
  rewrite lookup_take_lt by exact Hi. apply lookup_drop.
Qed.

Lemma py_slice_rows (cols : nat) (img : image) (top bottom : Z) :
  rectangular cols img -> rectangular cols (py_slice img top bottom).
Proof.
  intros Hrect. unfold py_slice. apply Forall_take, Forall_drop. exact Hrect.
Qed.

(** A crop with bounds inside a rectangular image has
    [bottom - top] rows of [right - left] pixels, and its pixel at row [i]
    and column [j] is the pixel of the image at row [top + i] and column
    [left + j]. *)
Lemma crop_inside (img : image) (cols : nat) (top bottom left right : Z) :
  rectangular cols img ->
  0 <= top <= bottom -> bottom <= Z.of_nat (length img) ->
  0 <= left <= right -> right <= Z.of_nat cols ->
  length (crop img top bottom left right) = Z.to_nat (bottom - top)
  /\ rectangular (Z.to_nat (right - left)) (crop img top bottom left right)
  /\ forall (i j : nat) (row : list pixel),
       (i < Z.to_nat (bottom - top))%nat -> (j < Z.to_nat (right - left))%nat ->
       img !! (Z.to_nat top + i)%nat = Some row ->
       exists cropped,
         crop img top bottom left right !! i = Some cropped
         /\ cropped !! j = row !! (Z.to_nat left + j)%nat.
Proof.
  intros Hrect Htop Hbottom Hleft Hright. unfold crop. split; [|split].
  - rewrite length_map. apply py_slice_inside_length; lia.
  - apply Forall_fmap. eapply Forall_impl; [exact (py_slice_rows _ _ top bottom Hrect)|].
    intros row Hrow. cbn beta in *. apply py_slice_inside_length; lia.
  - intros i j row Hi Hj Hlook. exists (py_slice row left right). split.
    + unfold image in *. change (map ?f ?l) with (f <$> l).
      rewrite list_lookup_fmap, py_slice_inside_lookup by lia. rewrite Hlook. reflexivity.
    + apply py_slice_inside_lookup; [lia| |exact Hj].
      rewrite (proj1 (Forall_lookup _ _) Hrect _ _ Hlook). lia.
Qed.

(** X6. A crop with bounds inside a rectangular image has
    [bottom - top] rows of [right - left] pixels, and its pixel at row [i]
    and column [j] is the pixel of the image at row [top + i] and column
    [left + j]. *)
Theorem crop_inside_image (img : image) (cols : nat) (top bottom left right : Z) :
  rectangular cols img ->
  0 <= top <= bottom -> bottom <= Z.of_nat (length img) ->
  0 <= left <= right -> right <= Z.of_nat cols ->
  length (crop img top bottom left right) = Z.to_nat (bottom - top)
  /\ rectangular (Z.to_nat (right - left)) (crop img top bottom left right)
  /\ forall (i j : nat) (row : list pixel),
       (i < Z.to_nat (bottom - top))%nat -> (j < Z.to_nat (right - left))%nat ->
       img !! (Z.to_nat top + i)%nat = Some row ->
       exists cropped,
         crop img top bottom left right !! i = Some cropped
         /\ cropped !! j = row !! (Z.to_nat left + j)%nat.
Proof. exact (crop_inside img cols top bottom left right). Qed.

Lemma crop_inside_image_witness :
  length (crop (toy_image 8) 1 7 2 5) = Z.to_nat (7 - 1)
  /\ rectangular (Z.to_nat (5 - 2)) (crop (toy_image 8) 1 7 2 5)
  /\ forall (i j : nat) (row : list pixel),
       (i < Z.to_nat (7 - 1))%nat -> (j < Z.to_nat (5 - 2))%nat ->
       toy_image 8 !! (Z.to_nat 1 + i)%nat = Some row ->
       exists cropped,
         crop (toy_image 8) 1 7 2 5 !! i = Some cropped
         /\ cropped !! j = row !! (Z.to_nat 2 + j)%nat.
Proof.
  apply (crop_inside_image (toy_image 8) 8 1 7 2 5); try (cbn; lia).
  unfold rectangular. repeat constructor.
Defined.

(** X7. A face box that ends left of the image by more than the
    expansion, but by less than the width of the image, and that lies
    between the first and the last row, gets a negative [newRight], below
    [newLeft = 0].  The box is not rejected and the crop is not empty: the
    slice takes the negative bound from the right edge, so that the crop has
    [newBottom - newTop] rows, one at least, and each of them holds the
    [colCount + newRight] first pixels, one at least, of a row of the
    image; these are not columns of the box. *)
Theorem box_left_of_image_crops_from_right_edge (content : image) (cols : nat)
    (face_rect : rect) :
  rectangular cols content ->
  pixel_range (rect_left face_rect) -> pixel_range (rect_top face_rect) ->
  pixel_range (rect_right face_rect) -> pixel_range (rect_bottom face_rect) ->
  rect_left face_rect <= rect_right face_rect ->
  - Z.of_nat cols
  < rect_right face_rect + round_half_even (rect_right face_rect - rect_left face_rect) 2
  < 0 ->
  0 <= rect_top face_rect < rect_bottom face_rect ->
  rect_bottom face_rect <= Z.of_nat (length content) ->
  exists newTop newRight newBottom,
    edit_boundaries (rect_to_tuple face_rect) (shape content)
    = Ok [0; newTop; newRight; newBottom]
    /\ newRight
       = rect_right face_rect
         + round_half_even (rect_right face_rect - rect_left face_rect) 2
    /\ newRight < 0
    /\ crop content newTop newBottom 0 newRight
       = crop content newTop newBottom 0 (Z.of_nat cols + newRight)
    /\ crop content newTop newBottom 0 newRight <> []
    /\ length (crop content newTop newBottom 0 newRight) = Z.to_nat (newBottom - newTop)
    /\ (0 < Z.to_nat (newBottom - newTop))%nat
    /\ rectangular (Z.to_nat (Z.of_nat cols + newRight))
                   (crop content newTop newBottom 0 newRight)
    /\ (0 < Z.to_nat (Z.of_nat cols + newRight))%nat
    /\ forall (i j : nat) (row : list pixel),
         (i < Z.to_nat (newBottom - newTop))%nat ->
         (j < Z.to_nat (Z.of_nat cols + newRight))%nat ->
         content !! (Z.to_nat newTop + i)%nat = Some row ->
         exists cropped,
           crop content newTop newBottom 0 newRight !! i = Some cropped
           /\ cropped !! j = row !! j.
Proof.
  intros Hrect Hl Ht Hr Hb Hlr Hout Htb Hrows.
  destruct content as [|row0 content]; [cbn [length] in Hrows; lia|].
  assert (Hcols : length row0 = cols) by (apply Forall_cons in Hrect as [H _]; exact H).
  unfold rect_to_tuple, shape. cbn [hd]. rewrite Hcols.
  set (rows := length (row0 :: content)) in *.
  destruct (pixel_range_rounds _ _ _ _ Hl Ht Hr Hb) as (Hw & Hdt & Hdb).
  rewrite (edit_boundaries_run _ _ _ _ _ _ _ _ _ _ Hw Hdt Hdb).
  set (dw := round_half_even (rect_right face_rect - rect_left face_rect) 2) in *.
  assert (0 <= dw) by (apply round_half_even_nonneg; lia).
  assert (0 <= round_half_even (3 * (rect_bottom face_rect - rect_top face_rect)) 4)
    by (apply round_half_even_nonneg; lia).
  assert (0 <= round_half_even (rect_bottom face_rect - rect_top face_rect) 2)
    by (apply round_half_even_nonneg; lia).
  rewrite (Z.max_r (rect_left face_rect - dw) 0) by lia.
  rewrite (Z.min_l (rect_right face_rect + dw) (Z.of_nat cols)) by lia.
  set (newTop := Z.max (rect_top face_rect
                        - round_half_even (3 * (rect_bottom face_rect - rect_top face_rect)) 4)
                       0).
  set (newBottom := Z.min (rect_bottom face_rect
                           + round_half_even (rect_bottom face_rect - rect_top face_rect) 2)
                          (Z.of_nat rows)).
  assert (Hbox : 0 <= newTop <= rect_top face_rect
                 /\ rect_bottom face_rect <= newBottom <= Z.of_nat rows)
    by (subst newTop newBottom; lia).
  clearbody newTop newBottom.
  set (newRight := rect_right face_rect + dw) in *.
  assert (Hsame : crop (row0 :: content) newTop newBottom 0 newRight
                  = crop (row0 :: content) newTop newBottom 0 (Z.of_nat cols + newRight)).
  { unfold crop. apply Forall_fmap_ext_1.
    eapply Forall_impl; [exact (py_slice_rows _ _ newTop newBottom Hrect)|].
    intros row Hrow. cbn beta in *. unfold pixel in *. unfold py_slice. rewrite Hrow.
    rewrite (py_slice_bound_negative cols newRight) by lia. reflexivity. }
  destruct (crop_inside (row0 :: content) cols newTop newBottom 0 (Z.of_nat cols + newRight)
              Hrect) as (Hlen & Hwidth & Hpixel); [fold rows; lia | fold rows; lia | lia | lia |].
  replace (Z.to_nat (Z.of_nat cols + newRight - 0))
    with (Z.to_nat (Z.of_nat cols + newRight)) in * by lia.
  rewrite <- Hsame in Hlen, Hwidth, Hpixel.
  exists newTop, newRight, newBottom.
  split; [reflexivity|]. split; [reflexivity|]. split; [lia|]. split; [exact Hsame|].
  split.
  { intros Hnil. rewrite Hnil in Hlen. cbn [length] in Hlen. lia. }
  split; [exact Hlen|]. split; [lia|]. split; [exact Hwidth|]. split; [lia|].
  intros i j row Hi Hj Hlook.
  destruct (Hpixel i j row Hi Hj Hlook) as (cropped & Hc & Hp).
  exists cropped. split; [exact Hc|]. rewrite Hp. reflexivity.
Qed.

Lemma box_left_of_image_crops_from_right_edge_witness :
  exists newTop newRight newBottom,
    edit_boundaries
      (rect_to_tuple {| rect_left := -12; rect_top := 2; rect_right := -8; rect_bottom := 6 |})
      (shape (toy_image 8))
    = Ok [0; newTop; newRight; newBottom]
    /\ newRight = -8 + round_half_even (-8 - -12) 2
    /\ newRight < 0
    /\ crop (toy_image 8) newTop newBottom 0 newRight
       = crop (toy_image 8) newTop newBottom 0 (Z.of_nat 8 + newRight)
    /\ crop (toy_image 8) newTop newBottom 0 newRight <> []
    /\ length (crop (toy_image 8) newTop newBottom 0 newRight)
       = Z.to_nat (newBottom - newTop)
    /\ (0 < Z.to_nat (newBottom - newTop))%nat
    /\ rectangular (Z.to_nat (Z.of_nat 8 + newRight))
                   (crop (toy_image 8) newTop newBottom 0 newRight)
    /\ (0 < Z.to_nat (Z.of_nat 8 + newRight))%nat
    /\ forall (i j : nat) (row : list pixel),
         (i < Z.to_nat (newBottom - newTop))%nat ->
         (j < Z.to_nat (Z.of_nat 8 + newRight))%nat ->
         toy_image 8 !! (Z.to_nat newTop + i)%nat = Some row ->
         exists cropped,
           crop (toy_image 8) newTop newBottom 0 newRight !! i = Some cropped
           /\ cropped !! j = row !! j.
Proof.
  apply (box_left_of_image_crops_from_right_edge (toy_image 8) 8
           {| rect_left := -12; rect_top := 2; rect_right := -8; rect_bottom := 6 |});
    try (unfold pixel_range; cbn; lia).
  - unfold rectangular. repeat constructor.
  - vm_compute. split; reflexivity.
Defined.

(** X8. The crop of a face that lies inside the image holds the face: for
    a rectangular image and a face box inside it, the box returned by
    [edit_boundaries] cuts a crop of [newBottom - newTop] rows and
    [newRight - newLeft] columns in which every pixel [(x, y)] of the face
    box is found at column [x - newLeft] of row [y - newTop]. *)
Theorem crop_of_face_holds_the_face (content : image) (cols : nat) (face_rect : rect) :
  rectangular cols content ->
  int64_range (Z.of_nat (length content)) -> int64_range (Z.of_nat cols) ->
  0 <= rect_left face_rect < rect_right face_rect ->
  rect_right face_rect <= Z.of_nat cols ->
  0 <= rect_top face_rect < rect_bottom face_rect ->
  rect_bottom face_rect <= Z.of_nat (length content) ->
  exists newLeft newTop newRight newBottom,
    edit_boundaries (rect_to_tuple face_rect) (shape content)
    = Ok [newLeft; newTop; newRight; newBottom]
    /\ length (crop content newTop newBottom newLeft newRight)
       = Z.to_nat (newBottom - newTop)
    /\ rectangular (Z.to_nat (newRight - newLeft))
                   (crop content newTop newBottom newLeft newRight)
    /\ forall (x y : Z) (row : list pixel),
         rect_left face_rect <= x < rect_right face_rect ->
         rect_top face_rect <= y < rect_bottom face_rect ->
         content !! Z.to_nat y = Some row ->
         exists cropped,
           crop content newTop newBottom newLeft newRight !! Z.to_nat (y - newTop)
           = Some cropped
           /\ cropped !! Z.to_nat (x - newLeft) = row !! Z.to_nat x.
Proof.
  intros Hrect Hrows Hcols Hx Hxr Hy Hyb.
  destruct content as [|row0 content]; [cbn [length] in Hyb; lia|].
  assert (Hrow0 : length row0 = cols) by (apply Forall_cons in Hrect as [H _]; exact H).
  unfold rect_to_tuple, shape. cbn [hd]. rewrite Hrow0.
  set (rows := length (row0 :: content)) in *.
  assert (Hl : int64_range (rect_left face_rect)) by (unfold int64_range in *; lia).
  assert (Ht : int64_range (rect_top face_rect)) by (unfold int64_range in *; lia).
  assert (Hr : int64_range (rect_right face_rect)) by (unfold int64_range in *; lia).
  assert (Hb : int64_range (rect_bottom face_rect)) by (unfold int64_range in *; lia).
  destruct (int64_rounds_return _ _ _ _ Hl Ht Hr Hb)
    as (dw & dt & db & Hw & Hdt & Hdb & Hw0 & Hh0).
  rewrite (edit_boundaries_run _ _ _ _ _ _ _ _ _ _ Hw Hdt Hdb).
  do 4 eexists. split; [reflexivity|].
  set (newLeft := Z.max (rect_left face_rect - dw) 0).
  set (newTop := Z.max (rect_top face_rect - dt) 0).
  set (newRight := Z.min (rect_right face_rect + dw) (Z.of_nat cols)).
  set (newBottom := Z.min (rect_bottom face_rect + db) (Z.of_nat rows)).
  assert (Hbox : 0 <= newLeft <= rect_left face_rect
                 /\ rect_right face_rect <= newRight <= Z.of_nat cols
                 /\ 0 <= newTop <= rect_top face_rect
                 /\ rect_bottom face_rect <= newBottom <= Z.of_nat rows)
    by (subst newLeft newTop newRight newBottom; lia).
  clearbody newLeft newTop newRight newBottom.
  destruct (crop_inside (row0 :: content) cols newTop newBottom newLeft newRight Hrect)
    as (Hlen & Hwidth & Hpixel); [fold rows; lia | fold rows; lia | lia | lia |].
  split; [exact Hlen|]. split; [exact Hwidth|].
  intros x y row Hxin Hyin Hlook.
  destruct (Hpixel (Z.to_nat (y - newTop)) (Z.to_nat (x - newLeft)) row) as (cropped & Hc & Hp).
  - lia.
  - lia.
  - replace (Z.to_nat newTop + Z.to_nat (y - newTop))%nat with (Z.to_nat y) by lia.
    exact Hlook.
  - exists cropped. split; [exact Hc|]. rewrite Hp. f_equal. lia.
Qed.

Lemma crop_of_face_holds_the_face_witness :
  exists newLeft newTop newRight newBottom,
    edit_boundaries (rect_to_tuple toy_face) (shape (toy_image 8))
    = Ok [newLeft; newTop; newRight; newBottom]
    /\ length (crop (toy_image 8) newTop newBottom newLeft newRight)
       = Z.to_nat (newBottom - newTop)
    /\ rectangular (Z.to_nat (newRight - newLeft))
                   (crop (toy_image 8) newTop newBottom newLeft newRight)
    /\ forall (x y : Z) (row : list pixel),
         rect_left toy_face <= x < rect_right toy_face ->
         rect_top toy_face <= y < rect_bottom toy_face ->
         toy_image 8 !! Z.to_nat y = Some row ->
         exists cropped,
           crop (toy_image 8) newTop newBottom newLeft newRight !! Z.to_nat (y - newTop)
           = Some cropped
           /\ cropped !! Z.to_nat (x - newLeft) = row !! Z.to_nat x.
Proof.
  apply (crop_of_face_holds_the_face (toy_image 8) 8 toy_face);
    try (unfold int64_range; cbn; lia).
  unfold rectangular. repeat constructor.
Defined.

(** ** The names of the files written *)

Lemma substring_prefix (p s : string) : substring 0 (String.length p) (p +:+ s) = p.
Proof.
  induction p as [|c p IH]; [destruct s; reflexivity|].
  rewrite append_cons. cbn [String.length substring]. rewrite IH. reflexivity.
Qed.

Lemma str_slice_to_stem (stem ext : string) :
  String.length ext = 4%nat -> str_slice_to (stem +:+ ext) (-4) = stem.
Proof.
  intros Hext. unfold str_slice_to, py_slice_bound. rewrite length_append, Hext.
  cbn [Z.ltb Z.compare].
  replace (Z.to_nat (Z.max (-4 + Z.of_nat (String.length stem + 4)) 0))
    with (String.length stem) by lia.
  apply substring_prefix.
Qed.

Lemma str_slice_to_short (filename : string) :
  (String.length filename <= 4)%nat -> str_slice_to filename (-4) = ""%string.
Proof.
  intros Hlen. unfold str_slice_to, py_slice_bound. cbn [Z.ltb Z.compare].
  replace (Z.to_nat (Z.max (-4 + Z.of_nat (String.length filename)) 0)) with 0%nat by lia.
  destruct filename; reflexivity.
Qed.

Lemma append_inv_head (p a b : string) : p +:+ a = p +:+ b -> a = b.
Proof.
  induction p as [|c p IH]; [intros H; exact H|].
  rewrite !append_cons. intros [= H]. exact (IH H).
Qed.

Lemma append_inv_tail (a b s : string) : a +:+ s = b +:+ s -> a = b.
Proof.
  revert b. induction a as [|c a IH]; intros [|c' b] H.
  - reflexivity.
  - apply (f_equal String.length) in H. rewrite !length_append in H.
    cbn [String.length] in H. lia.
  - apply (f_equal String.length) in H. rewrite !length_append in H.
    cbn [String.length] in H. lia.
  - rewrite !append_cons in H. injection H as -> H. f_equal. exact (IH _ H).
Qed.

(** What lies between the stem and the face index in the name of a file:
    the topology key and the colour for the lines, with [dots] for the
    points. *)
Lemma name_tags_apart (k1 k2 : string) (c1 c2 : list Z) (d1 d2 : bool) (t1 t2 : string) :
  k1 ∈ dict_keys face_polyline_segments -> k2 ∈ dict_keys face_polyline_segments ->
  c1 ∈ colors_bgr -> c2 ∈ colors_bgr ->
  k1 +:+ "_" +:+ (if d1 then "dots" +:+ "_" +:+ str_tuple c1 +:+ "_" +:+ t1
                  else str_tuple c1 +:+ "_" +:+ t1)
  = k2 +:+ "_" +:+ (if d2 then "dots" +:+ "_" +:+ str_tuple c2 +:+ "_" +:+ t2
                    else str_tuple c2 +:+ "_" +:+ t2) ->
  k1 = k2 /\ c1 = c2 /\ d1 = d2 /\ t1 = t2.
Proof.
  intros Hk1 Hk2 Hc1 Hc2.
  repeat (apply elem_of_cons in Hk1 as [->|Hk1]); [| |apply elem_of_nil in Hk1; contradiction].
  all: repeat (apply elem_of_cons in Hk2 as [->|Hk2]);
    [| |apply elem_of_nil in Hk2; contradiction].
  all: repeat (apply elem_of_cons in Hc1 as [->|Hc1]);
    [| | |apply elem_of_nil in Hc1; contradiction].
  all: repeat (apply elem_of_cons in Hc2 as [->|Hc2]);
    [| | |apply elem_of_nil in Hc2; contradiction].
  all: destruct d1, d2; vm_compute; intros H; simplify_eq; done.
Qed.

Lemma file_names_apart (filename k1 k2 : string) (c1 c2 : list Z) (d1 d2 : bool)
    (i1 i2 : nat) :
  k1 ∈ dict_keys face_polyline_segments -> k2 ∈ dict_keys face_polyline_segments ->
  c1 ∈ colors_bgr -> c2 ∈ colors_bgr ->
  (if d1 then dots_file_name filename k1 c1 i1 else lines_file_name filename k1 c1 i1)
  = (if d2 then dots_file_name filename k2 c2 i2 else lines_file_name filename k2 c2 i2) ->
  k1 = k2 /\ c1 = c2 /\ d1 = d2 /\ i1 = i2.
Proof.
  intros Hk1 Hk2 Hc1 Hc2 Heq.
  assert (Htag :
    k1 +:+ "_" +:+ (if d1 then "dots" +:+ "_" +:+ str_tuple c1 +:+ "_"
                                 +:+ (str_int (Z.of_nat i1) +:+ ".jpg")
                    else str_tuple c1 +:+ "_" +:+ (str_int (Z.of_nat i1) +:+ ".jpg"))
    = k2 +:+ "_" +:+ (if d2 then "dots" +:+ "_" +:+ str_tuple c2 +:+ "_"
                                   +:+ (str_int (Z.of_nat i2) +:+ ".jpg")
                      else str_tuple c2 +:+ "_" +:+ (str_int (Z.of_nat i2) +:+ ".jpg"))).
  { unfold lines_file_name, dots_file_name in Heq.
    destruct d1, d2; apply append_inv_head in Heq; apply (append_inv_head "_") in Heq;
      exact Heq. }
  destruct (name_tags_apart _ _ _ _ _ _ _ _ Hk1 Hk2 Hc1 Hc2 Htag) as (-> & -> & -> & Hidx).
  repeat split. apply append_inv_tail in Hidx. unfold str_int in Hidx.
  apply (inj pretty) in Hidx. lia.
Qed.

(** X9. The stem of the output names is the name of the file without its
    last four characters, whatever they are: two files whose names differ
    in these characters only, as [a.jpg] and [a.JPG] do, are written to the
    same output files.  A name of four characters or fewer has the empty
    stem. *)
Theorem output_names_drop_last_four_characters (stem ext1 ext2 short key : string)
    (colors : list Z) (idx : nat) :
  String.length ext1 = 4%nat -> String.length ext2 = 4%nat ->
  (String.length short <= 4)%nat ->
  str_slice_to (stem +:+ ext1) (-4) = stem
  /\ lines_file_name (stem +:+ ext1) key colors idx
     = lines_file_name (stem +:+ ext2) key colors idx
  /\ dots_file_name (stem +:+ ext1) key colors idx
     = dots_file_name (stem +:+ ext2) key colors idx
  /\ lines_file_name short key colors idx
     = "_" +:+ key +:+ "_" +:+ str_tuple colors +:+ "_" +:+ str_int (Z.of_nat idx) +:+ ".jpg".
Proof.
  intros H1 H2 Hshort. unfold lines_file_name, dots_file_name.
  rewrite !str_slice_to_stem, str_slice_to_short by assumption. repeat split.
Qed.

Lemma output_names_drop_last_four_characters_witness :
  str_slice_to ("a" +:+ ".jpg") (-4) = "a"%string
  /\ lines_file_name ("a" +:+ ".jpg") "full" [255; 0; 255] 0
     = lines_file_name ("a" +:+ ".JPG") "full" [255; 0; 255] 0
  /\ dots_file_name ("a" +:+ ".jpg") "full" [255; 0; 255] 0
     = dots_file_name ("a" +:+ ".JPG") "full" [255; 0; 255] 0
  /\ lines_file_name "jpg" "full" [255; 0; 255] 0
     = "_" +:+ "full" +:+ "_" +:+ str_tuple [255; 0; 255] +:+ "_"
       +:+ str_int (Z.of_nat 0) +:+ ".jpg".
Proof.
  apply (output_names_drop_last_four_characters "a" ".jpg" ".JPG" "jpg" "full"
           [255; 0; 255] 0); cbn; lia.
Defined.

(** X10. For one file, the names of the output files tell the topology,
    the colour, the face and the kind of drawing apart: two names are equal
    only for the same key, colour and face index, and a name for lines is
    never a name for points. *)
Theorem output_names_distinct (filename k1 k2 : string) (c1 c2 : list Z) (i1 i2 : nat) :
  k1 ∈ dict_keys face_polyline_segments -> k2 ∈ dict_keys face_polyline_segments ->
  c1 ∈ colors_bgr -> c2 ∈ colors_bgr ->
  (lines_file_name filename k1 c1 i1 = lines_file_name filename k2 c2 i2
   -> k1 = k2 /\ c1 = c2 /\ i1 = i2)
  /\ (dots_file_name filename k1 c1 i1 = dots_file_name filename k2 c2 i2
      -> k1 = k2 /\ c1 = c2 /\ i1 = i2)
  /\ lines_file_name filename k1 c1 i1 <> dots_file_name filename k2 c2 i2.
Proof.
  intros Hk1 Hk2 Hc1 Hc2. split; [|split].
  - intros Heq.
    destruct (file_names_apart filename k1 k2 c1 c2 false false i1 i2 Hk1 Hk2 Hc1 Hc2 Heq)
      as (? & ? & _ & ?). done.
  - intros Heq.
    destruct (file_names_apart filename k1 k2 c1 c2 true true i1 i2 Hk1 Hk2 Hc1 Hc2 Heq)
      as (? & ? & _ & ?). done.
  - intros Heq.
    destruct (file_names_apart filename k1 k2 c1 c2 false true i1 i2 Hk1 Hk2 Hc1 Hc2 Heq)
      as (_ & _ & ? & _). discriminate.
Qed.

Lemma output_names_distinct_witness :
  (lines_file_name "b.jpg" "full" [255; 0; 255] 0
   = lines_file_name "b.jpg" "partial" [255; 0; 0] 1
   -> "full"%string = "partial"%string /\ [255; 0; 255] = [255; 0; 0] /\ 0%nat = 1%nat)
  /\ (dots_file_name "b.jpg" "full" [255; 0; 255] 0
      = dots_file_name "b.jpg" "partial" [255; 0; 0] 1
      -> "full"%string = "partial"%string /\ [255; 0; 255] = [255; 0; 0] /\ 0%nat = 1%nat)
  /\ lines_file_name "b.jpg" "full" [255; 0; 255] 0
     <> dots_file_name "b.jpg" "partial" [255; 0; 0] 1.
Proof.
  apply (output_names_distinct "b.jpg" "full" "partial" [255; 0; 255] [255; 0; 0] 0 1);
    vm_compute; set_solver.
Defined.

(** ** Runs that return *)

Lemma written_files_app (ev1 ev2 : list event) :
  written_files (ev1 ++ ev2) = written_files ev1 ++ written_files ev2.
Proof. apply omap_app. Qed.

Lemma count_events_app (kind : event -> bool) (ev1 ev2 : list event) :
  count_events kind (ev1 ++ ev2) = (count_events kind ev1 + count_events kind ev2)%nat.
Proof. unfold count_events. rewrite List.filter_app, length_app. reflexivity. Qed.

Lemma written_files_concat {A : Type} (f : A -> list (list string)) (xs : list A)
    (evs : list (list event)) :
  Forall2 (fun x ev => written_files ev = f x) xs evs ->
  written_files (concat evs) = xs ≫= f.
Proof.
  induction 1 as [|x ev xs evs Hx _ IH]; [reflexivity|].
  cbn [concat]. rewrite written_files_app, bind_cons, Hx, IH. reflexivity.
Qed.

Lemma count_events_concat {A : Type} (kind : event -> bool) (n : nat) (xs : list A)
    (evs : list (list event)) :
  Forall2 (fun _ ev => count_events kind ev = n) xs evs ->
  count_events kind (concat evs) = (n * length xs)%nat.
Proof.
  induction 1 as [|x ev xs evs Hx _ IH]; [cbn; lia|].
  cbn [concat length]. rewrite count_events_app, Hx, IH. lia.
Qed.

Lemma length_bind_const {A B : Type} (f : A -> list B) (n : nat) (xs : list A) :
  (forall x, length (f x) = n) -> length (xs ≫= f) = (n * length xs)%nat.
Proof.
  intros Hf. induction xs as [|x xs IH]; [cbn; lia|].
  rewrite bind_cons, length_app, Hf, IH. cbn [length]. lia.
Qed.

(** A loop whose iterations all return, from every store that satisfies an
    invariant, returns; its trace is made of the traces of the iterations,
    in order. *)
Lemma for_run_all {A : Type} (I : gmap positive image -> Prop)
    (P : A -> list event -> Prop) (body : A -> M unit) (xs : list A) :
  (forall x h, x ∈ xs -> I h -> exists h' ev, body x h = (Ok tt, h', ev) /\ I h' /\ P x ev) ->
  forall h, I h ->
  exists h' evs, for_ xs body h = (Ok tt, h', concat evs) /\ I h' /\ Forall2 P xs evs.
Proof.
  induction xs as [|x xs IH]; intros Hbody h HI.
  - exists h, []. split; [reflexivity|]. split; [exact HI | constructor].
  - destruct (Hbody x h (list_elem_of_here _ _) HI) as (h1 & ev1 & Hx & HI1 & HP).
    destruct (IH (fun y h0 Hy => Hbody y h0 (list_elem_of_further _ _ _ Hy)) h1 HI1)
      as (h2 & evs & Hrest & HI2 & HPs).
    exists h2, (ev1 :: evs). rewrite (for_run_cons _ _ _ _ _ _ Hx), Hrest.
    split; [reflexivity|]. split; [exact HI2 | constructor; assumption].
Qed.

Lemma for_run_app {A : Type} (body : A -> M unit) (xs ys : list A) h h1 ev1 :
  for_ xs body h = (Ok tt, h1, ev1) ->
  for_ (xs ++ ys) body h = (let '(r, h2, ev2) := for_ ys body h1 in (r, h2, ev1 ++ ev2)).
Proof.
  revert h ev1. induction xs as [|x xs IH]; intros h ev1 Hxs.
  - injection Hxs as <- <-. cbn [app]. destruct (for_ ys body h) as [[r h2] ev2]. reflexivity.
  - cbn [app for_] in *.
    destruct (bind_run_inv _ _ _ _ _ _ Hxs)
      as [(e & _ & He)|(a & h0 & ev0 & ev0' & Hx & Hrest & ->)]; [discriminate He|].
    cbv beta in Hrest. rewrite (bind_run_Ok _ _ _ _ _ _ Hx). cbv beta.
    rewrite (IH _ _ Hrest). destruct (for_ ys body h1) as [[r h2] ev2].
    rewrite app_assoc. reflexivity.
Qed.

(** ** The topology table and the number of landmarks *)

Lemma dict_getitem_keys (polyline_key : string) :
  polyline_key ∈ dict_keys face_polyline_segments ->
  exists segments, dict_getitem face_polyline_segments polyline_key = Ok segments.
Proof.
  intros Hk. repeat (apply elem_of_cons in Hk as [->|Hk]);
    [eexists; reflexivity | eexists; reflexivity | apply elem_of_nil in Hk; contradiction].
Qed.

Lemma table_indices_valid_iff (n : nat) (polyline_key : string) (segments : list (list Z)) :
  dict_getitem face_polyline_segments polyline_key = Ok segments ->
  Forall (Forall (py_valid_index n)) segments <-> (68 <= n)%nat.
Proof.
  intros Hdict.
  assert (Hrange : Forall (Forall (fun i => 0 <= i <= 67)) segments
                   /\ exists j k segment, segments !! j = Some segment
                                          /\ segment !! k = Some 67).
  { pose proof face_polyline_segments_in_range as Hall.
    unfold face_polyline_segments, dict_getitem in *.
    destruct (String.eqb "full" polyline_key).
    - injection Hdict as <-. split.
      + exact (proj1 (Forall_lookup _ _) Hall 0%nat _ eq_refl).
      + exists 7%nat, 7%nat. eexists. split; reflexivity.
    - destruct (String.eqb "partial" polyline_key); [|discriminate Hdict].
      injection Hdict as <-. split.
      + exact (proj1 (Forall_lookup _ _) Hall 1%nat _ eq_refl).
      + exists 2%nat, 7%nat. eexists. split; reflexivity. }
  destruct Hrange as (Hall & j & k & segment & Hj & Hk). split.
  - intros Hvalid.
    pose proof (proj1 (Forall_lookup _ _) (proj1 (Forall_lookup _ _) Hvalid _ _ Hj) _ _ Hk)
      as H67.
    unfold py_valid_index in H67. lia.
  - intros Hn. eapply Forall_impl; [exact Hall|].
    intros seg Hseg. eapply Forall_impl; [exact Hseg|].
    intros i Hi. cbn beta in Hi. unfold py_valid_index. lia.
Qed.

Lemma define_polylines_table (landmarks : list point) (polyline_key : string)
    (segments : list (list Z)) :
  dict_getitem face_polyline_segments polyline_key = Ok segments ->
  ((68 <= length landmarks)%nat ->
   exists polylines, define_polylines landmarks segments = Ok polylines)
  /\ ((length landmarks < 68)%nat -> define_polylines landmarks segments = Raise IndexError).
Proof.
  intros Hdict. pose proof (table_indices_valid_iff (length landmarks) _ _ Hdict) as Hiff.
  unfold define_polylines.
  destruct (polylines_loop_any landmarks segments [])
    as [(Hall & polylines & Hrun & _)|(Hall & Hrun)]; rewrite Hrun.
  - split; [intros _; eexists; reflexivity|]. intros Hlt. apply Hiff in Hall. lia.
  - split; [|reflexivity]. intros Hge. apply Hiff in Hge. contradiction.
Qed.

(** ** The drawings and their files *)

Lemma drawings_keys_colors (colors : list Z) (polyline_key : string) (dots : bool) :
  (colors, polyline_key, dots) ∈ drawings ->
  colors ∈ colors_bgr /\ polyline_key ∈ dict_keys face_polyline_segments.
Proof.
  intros Hin. vm_compute in Hin.
  repeat (apply elem_of_cons in Hin as [Heq|Hin];
          [injection Heq as -> -> _; split; vm_compute; set_solver|]).
  apply elem_of_nil in Hin. contradiction.
Qed.

Lemma file_of_drawing_apart (path dir filename : string) (i1 i2 : nat)
    (d1 d2 : list Z * string * bool) :
  d1 ∈ drawings -> d2 ∈ drawings ->
  file_of_drawing path dir filename i1 d1 = file_of_drawing path dir filename i2 d2 ->
  d1 = d2 /\ i1 = i2.
Proof.
  destruct d1 as [[c1 k1] dots1], d2 as [[c2 k2] dots2]. intros H1 H2 Heq.
  apply drawings_keys_colors in H1 as [Hc1 Hk1]. apply drawings_keys_colors in H2 as [Hc2 Hk2].
  injection Heq as Heq.
  destruct (file_names_apart _ _ _ _ _ _ _ _ _ Hk1 Hk2 Hc1 Hc2 Heq) as (-> & -> & -> & ->).
  split; reflexivity.
Qed.

Lemma enumerate_lookup {A : Type} (l : list A) (idx : nat) (a : A) :
  (idx, a) ∈ enumerate l -> l !! idx = Some a.
Proof.
  intros Hin. apply list_elem_of_lookup in Hin as [i Hi]. unfold enumerate in Hi.
  apply lookup_zip_with_Some in Hi as (j & b & [= -> ->] & Hj & Hb).
  apply lookup_seq in Hj as [-> _]. exact Hb.
Qed.

Lemma NoDup_enumerate {A : Type} (l : list A) : NoDup (enumerate l).
Proof. unfold enumerate. apply NoDup_zip_l, NoDup_seq. Qed.

Lemma NoDup_files_of_faces {A : Type} (path dir filename : string) (faces : list A) :
  NoDup ('(idx, _) ← enumerate faces; files_of_face path dir filename idx).
Proof.
  apply NoDup_bind; [| |apply NoDup_enumerate].
  - intros [i1 r1] [i2 r2] file Hin1 Hin2 Hf1 Hf2. unfold files_of_face in *.
    apply list_elem_of_fmap in Hf1 as (d1 & -> & Hd1).
    apply list_elem_of_fmap in Hf2 as (d2 & Heq & Hd2).
    destruct (file_of_drawing_apart _ _ _ _ _ _ _ Hd1 Hd2 Heq) as [_ ->].
    apply enumerate_lookup in Hin1, Hin2. congruence.
  - intros [idx r] _. unfold files_of_face. apply NoDup_fmap_2_strong.
    + intros d1 d2 Hd1 Hd2 Heq.
      exact (proj1 (file_of_drawing_apart _ _ _ _ _ _ _ Hd1 Hd2 Heq)).
    + compute_done.
Qed.

Section Batch.
Variables path dir : string.
Variable os_listdir : list string -> list string.
Variable cv2_imread : list string -> option image.
Variable face_detector : image -> list rect.
Variable landmarks_predictor : image -> rect -> list point.
Variable cv2_circle : image -> Z * Z -> Z -> list Z -> Z -> image.
Variable cv2_polylines : image -> list (list (list Z)) -> bool -> list Z -> Z -> Z -> image.

Local Abbreviation main_body' :=
  (main_body path dir face_detector landmarks_predictor cv2_circle cv2_polylines).
Local Abbreviation main_file' :=
  (main_file path dir cv2_imread face_detector landmarks_predictor cv2_circle cv2_polylines).
Local Abbreviation main' :=
  (main path dir os_listdir cv2_imread face_detector landmarks_predictor
        cv2_circle cv2_polylines).

(** *** One iteration of the loop body *)

(** The run of the loop body when the polylines are built, with the store
    it ends in. *)
Lemma main_body_run_store filename img content idx face_rect colors polyline_key (h : heap)
    newLeft newTop newRight newBottom first others segments polylines :
  h !! img = Some content ->
  edit_boundaries (rect_to_tuple face_rect) (shape content)
  = Ok [newLeft; newTop; newRight; newBottom] ->
  face_detector (crop content newTop newBottom newLeft newRight) = first :: others ->
  let face := crop content newTop newBottom newLeft newRight in
  let landmarks := landmarks_predictor face first in
  dict_getitem face_polyline_segments polyline_key = Ok segments ->
  define_polylines landmarks segments = Ok polylines ->
  let lined := cv2_polylines face polylines false colors line_thickness cv2_LINE_AA in
  let dotted := foldl (fun acc coor => cv2_circle acc coor 1 colors dot_thickness)
                      face (map (fun p => (point_x p, point_y p)) landmarks) in
  let h1 : gmap positive image := <[fresh (dom h) := face]> h in
  let h2 : gmap positive image := <[fresh (dom h1) := lined]> h1 in
  main_body' filename (Some img) idx face_rect colors polyline_key h
  = (Ok tt,
     (if String.eqb polyline_key "full" then <[fresh (dom h2) := dotted]> h2 else h2),
     LogInfo ("lines: " +:+ filename +:+ ", colors: " +:+ polyline_key)
     :: Detect face :: Predict face first
     :: ImWrite (file_of_drawing path dir filename idx (colors, polyline_key, false)) lined
     :: (if String.eqb polyline_key "full"
         then [ImWrite (file_of_drawing path dir filename idx (colors, polyline_key, true))
                 dotted]
         else [])).
Proof.
  intros Hh Hedit Hdet face landmarks Hdict Hpoly lined dotted h1 h2.
  run_until_detect Hh Hedit.
  rewrite Hdet. erewrite py_getitem_at by (reflexivity || lia).
  run_step ltac:(reflexivity).
  run_step ltac:(apply get_landmarks_run, lookup_insert_eq).
  fold face. fold landmarks. rewrite Hdict.
  run_step ltac:(reflexivity).
  rewrite Hpoly.
  run_step ltac:(reflexivity).
  run_step ltac:(apply copy_copy_run, lookup_insert_eq).
  run_step ltac:(apply draw_polylines_run, lookup_insert_eq).
  run_step ltac:(apply cv2_imwrite_run, lookup_insert_eq).
  rewrite insert_insert_eq.
  destruct (String.eqb polyline_key "full").
  - run_step ltac:(apply copy_copy_run;
                   rewrite lookup_insert_ne by apply fresh_insert_ne;
                   apply lookup_insert_eq).
    run_step ltac:(apply draw_landmarks_run, lookup_insert_eq).
    erewrite cv2_imwrite_run by apply lookup_insert_eq.
    rewrite insert_insert_eq. reflexivity.
  - reflexivity.
Qed.

(** The run of the loop body when the polylines are built. *)
Lemma main_body_run filename img content idx face_rect colors polyline_key (h : heap)
    newLeft newTop newRight newBottom first others segments polylines :
  h !! img = Some content ->
  edit_boundaries (rect_to_tuple face_rect) (shape content)
  = Ok [newLeft; newTop; newRight; newBottom] ->
  face_detector (crop content newTop newBottom newLeft newRight) = first :: others ->
  let face := crop content newTop newBottom newLeft newRight in
  let landmarks := landmarks_predictor face first in
  dict_getitem face_polyline_segments polyline_key = Ok segments ->
  define_polylines landmarks segments = Ok polylines ->
  exists h',
    main_body' filename (Some img) idx face_rect colors polyline_key h
    = (Ok tt, h',
       LogInfo ("lines: " +:+ filename +:+ ", colors: " +:+ polyline_key)
       :: Detect face :: Predict face first
       :: ImWrite (file_of_drawing path dir filename idx (colors, polyline_key, false))
            (cv2_polylines face polylines false colors line_thickness cv2_LINE_AA)
       :: (if String.eqb polyline_key "full"
           then [ImWrite (file_of_drawing path dir filename idx (colors, polyline_key, true))
                   (foldl (fun acc coor => cv2_circle acc coor 1 colors dot_thickness)
                          face (map (fun p => (point_x p, point_y p)) landmarks))]
           else [])).
Proof.
  intros Hh Hedit Hdet face landmarks Hdict Hpoly. eexists.
  exact (main_body_run_store filename img content idx face_rect colors polyline_key h
           _ _ _ _ _ _ _ _ Hh Hedit Hdet Hdict Hpoly).
Qed.

(** The run of the loop body when building the polylines raises. *)
Lemma main_body_run_no_polylines filename img content idx face_rect colors polyline_key
    (h : heap) newLeft newTop newRight newBottom first others segments e :
  h !! img = Some content ->
  edit_boundaries (rect_to_tuple face_rect) (shape content)
  = Ok [newLeft; newTop; newRight; newBottom] ->
  face_detector (crop content newTop newBottom newLeft newRight) = first :: others ->
  let face := crop content newTop newBottom newLeft newRight in
  dict_getitem face_polyline_segments polyline_key = Ok segments ->
  define_polylines (landmarks_predictor face first) segments = Raise e ->
  main_body' filename (Some img) idx face_rect colors polyline_key h
  = (Raise e, <[fresh (dom h) := face]> h,
     [LogInfo ("lines: " +:+ filename +:+ ", colors: " +:+ polyline_key);
      Detect face; Predict face first]).
Proof.
  intros Hh Hedit Hdet face Hdict Hpoly.
  run_until_detect Hh Hedit.
  rewrite Hdet. erewrite py_getitem_at by (reflexivity || lia).
  run_step ltac:(reflexivity).
  run_step ltac:(apply get_landmarks_run, lookup_insert_eq).
  fold face. rewrite Hdict.
  run_step ltac:(reflexivity).
  rewrite Hpoly. erewrite bind_run_Raise by reflexivity. reflexivity.
Qed.

(** X11. Whether an iteration of the loop body returns is decided by the
    number of landmarks the predictor gives for the first rectangle of the
    second detection: with 68 or more the iteration returns, for both
    topologies; with fewer it raises [IndexError] after the prediction and
    writes no file. *)
Theorem main_body_returns_iff_68_landmarks filename img content idx face_rect colors
    polyline_key (h : heap) newLeft newTop newRight newBottom first others :
  h !! img = Some content ->
  edit_boundaries (rect_to_tuple face_rect) (shape content)
  = Ok [newLeft; newTop; newRight; newBottom] ->
  face_detector (crop content newTop newBottom newLeft newRight) = first :: others ->
  polyline_key ∈ dict_keys face_polyline_segments ->
  let face := crop content newTop newBottom newLeft newRight in
  let landmarks := landmarks_predictor face first in
  ((exists h' ev,
      main_body' filename (Some img) idx face_rect colors polyline_key h = (Ok tt, h', ev))
   <-> (68 <= length landmarks)%nat)
  /\ ((length landmarks < 68)%nat ->
      main_body' filename (Some img) idx face_rect colors polyline_key h
      = (Raise IndexError, <[fresh (dom h) := face]> h,
         [LogInfo ("lines: " +:+ filename +:+ ", colors: " +:+ polyline_key);
          Detect face; Predict face first])).
Proof.
  intros Hh Hedit Hdet Hkey face landmarks.
  destruct (dict_getitem_keys _ Hkey) as [segments Hdict].
  destruct (define_polylines_table landmarks _ _ Hdict) as [Hok Hraise].
  assert (Hshort : (length landmarks < 68)%nat ->
            main_body' filename (Some img) idx face_rect colors polyline_key h
            = (Raise IndexError, <[fresh (dom h) := face]> h,
               [LogInfo ("lines: " +:+ filename +:+ ", colors: " +:+ polyline_key);
                Detect face; Predict face first])).
  { intros Hlt.
    exact (main_body_run_no_polylines _ _ _ _ _ _ _ _ _ _ _ _ _ _ _ _
             Hh Hedit Hdet Hdict (Hraise Hlt)). }
  split; [|exact Hshort]. split.
  - intros (h' & ev & Hrun).
    destruct (Nat.lt_ge_cases (length landmarks) 68) as [Hlt|Hge]; [|exact Hge].
    rewrite (Hshort Hlt) in Hrun. discriminate Hrun.
  - intros Hge. destruct (Hok Hge) as [polylines Hpoly].
    destruct (main_body_run filename _ _ idx _ colors _ _ _ _ _ _ _ _ _ _
                Hh Hedit Hdet Hdict Hpoly) as [h' Hrun].
    eexists _, _. exact Hrun.
Qed.

(** An iteration for a drawable face: it returns, keeps the image, runs
    one detection and one prediction and writes the files of its drawings. *)
Lemma main_body_drawable filename img content idx face_rect colors polyline_key
    (h : heap) :
  h !! img = Some content ->
  drawable face_detector landmarks_predictor content face_rect ->
  polyline_key ∈ dict_keys face_polyline_segments ->
  exists h' ev,
    main_body' filename (Some img) idx face_rect colors polyline_key h = (Ok tt, h', ev)
    /\ h' !! img = Some content
    /\ written_files ev
       = file_of_drawing path dir filename idx (colors, polyline_key, false)
         :: (if String.eqb polyline_key "full"
             then [file_of_drawing path dir filename idx (colors, polyline_key, true)]
             else [])
    /\ count_events is_detect ev = 1%nat
    /\ count_events is_predict ev = 1%nat.
Proof.
  intros Hh (newLeft & newTop & newRight & newBottom & first & others & Hedit & Hdet & H68)
         Hkey.
  destruct (dict_getitem_keys _ Hkey) as [segments Hdict].
  destruct (proj1 (define_polylines_table _ _ _ Hdict) H68) as [polylines Hpoly].
  destruct (main_body_run filename _ _ idx _ colors _ _ _ _ _ _ _ _ _ _
              Hh Hedit Hdet Hdict Hpoly) as [h' Hrun].
  eexists _, _. split; [exact Hrun|]. split.
  - eapply main_body_keeps; [exact Hh | exact Hrun].
  - destruct (String.eqb polyline_key "full"); repeat split.
Qed.

(** The three loops over the faces of a file. *)
Lemma face_loops_drawable filename img content (faces_rect : list rect) (h : heap) :
  h !! img = Some content ->
  Forall (drawable face_detector landmarks_predictor content) faces_rect ->
  exists h' ev,
    for_ (enumerate faces_rect) (fun '(idx, face_rect) =>
      for_ colors_bgr (fun colors =>
        for_ (dict_keys face_polyline_segments) (fun polyline_key =>
          main_body' filename (Some img) idx face_rect colors polyline_key))) h
    = (Ok tt, h', ev)
    /\ written_files ev
       = ('(idx, _) ← enumerate faces_rect; files_of_face path dir filename idx)
    /\ count_events is_detect ev = (6 * length faces_rect)%nat
    /\ count_events is_predict ev = (6 * length faces_rect)%nat.
Proof.
  intros Hh Hall.
  destruct (for_run_all (fun h => h !! img = Some content)
              (fun (x : nat * rect) ev =>
                 written_files ev = files_of_face path dir filename x.1
                 /\ count_events is_detect ev = 6%nat
                 /\ count_events is_predict ev = 6%nat)
              (fun '(idx, face_rect) =>
                 for_ colors_bgr (fun colors =>
                   for_ (dict_keys face_polyline_segments) (fun polyline_key =>
                     main_body' filename (Some img) idx face_rect colors polyline_key)))
              (enumerate faces_rect)) with h as (h' & evs & Hrun & _ & Hevs);
    [|exact Hh|].
  - intros [idx face_rect] h0 Hin Hh0.
    assert (Hface : drawable face_detector landmarks_predictor content face_rect).
    { apply enumerate_lookup in Hin. exact (proj1 (Forall_lookup _ _) Hall _ _ Hin). }
    destruct (for_run_all (fun h => h !! img = Some content)
                (fun colors ev =>
                   written_files ev
                   = (polyline_key ← dict_keys face_polyline_segments;
                      file_of_drawing path dir filename idx (colors, polyline_key, false)
                      :: (if String.eqb polyline_key "full"
                          then [file_of_drawing path dir filename idx
                                  (colors, polyline_key, true)]
                          else []))
                   /\ count_events is_detect ev = 2%nat
                   /\ count_events is_predict ev = 2%nat)
                (fun colors =>
                   for_ (dict_keys face_polyline_segments) (fun polyline_key =>
                     main_body' filename (Some img) idx face_rect colors polyline_key))
                colors_bgr) with h0 as (h1 & evs1 & Hrun1 & Hh1 & Hevs1);
      [|exact Hh0|].
    + intros colors h2 _ Hh2.
      destruct (for_run_all (fun h => h !! img = Some content)
                  (fun polyline_key ev =>
                     written_files ev
                     = file_of_drawing path dir filename idx (colors, polyline_key, false)
                       :: (if String.eqb polyline_key "full"
                           then [file_of_drawing path dir filename idx
                                   (colors, polyline_key, true)]
                           else [])
                     /\ count_events is_detect ev = 1%nat
                     /\ count_events is_predict ev = 1%nat)
                  (fun polyline_key =>
                     main_body' filename (Some img) idx face_rect colors polyline_key)
                  (dict_keys face_polyline_segments)) with h2
        as (h3 & evs3 & Hrun3 & Hh3 & Hevs3); [|exact Hh2|].
      * intros polyline_key h4 Hkey Hh4.
        destruct (main_body_drawable filename img content idx face_rect colors polyline_key
                    h4 Hh4 Hface Hkey) as (h5 & ev & Hrun & Hh5 & Hfiles & Hd & Hp).
        exists h5, ev. done.
      * exists h3, (concat evs3). split; [exact Hrun3|]. split; [exact Hh3|].
        split; [|split].
        -- apply written_files_concat. eapply Forall2_impl; [exact Hevs3|].
           intros k ev (Hf & _). exact Hf.
        -- change 2%nat with (1 * length (dict_keys face_polyline_segments))%nat.
           apply count_events_concat. eapply Forall2_impl; [exact Hevs3|].
           intros k ev (_ & Hd & _). exact Hd.
        -- change 2%nat with (1 * length (dict_keys face_polyline_segments))%nat.
           apply count_events_concat. eapply Forall2_impl; [exact Hevs3|].
           intros k ev (_ & _ & Hp). exact Hp.
    + exists h1, (concat evs1). split; [exact Hrun1|]. split; [exact Hh1|].
      split; [|split].
      * rewrite (written_files_concat _ _ _
                   (Forall2_impl _ _ _ _ Hevs1 (fun c ev H => proj1 H))).
        reflexivity.
      * change 6%nat with (2 * length colors_bgr)%nat.
        apply count_events_concat. eapply Forall2_impl; [exact Hevs1|].
        intros c ev (_ & Hd & _). exact Hd.
      * change 6%nat with (2 * length colors_bgr)%nat.
        apply count_events_concat. eapply Forall2_impl; [exact Hevs1|].
        intros c ev (_ & _ & Hp). exact Hp.
  - exists h', (concat evs). split; [exact Hrun|]. split; [|split].
    + rewrite (written_files_concat (fun x : nat * rect => files_of_face path dir filename x.1)
                 _ _ (Forall2_impl _ _ _ _ Hevs (fun x ev H => proj1 H))).
      apply list_bind_ext; [|reflexivity]. intros [idx face_rect]. reflexivity.
    + assert (Hlen : length (enumerate faces_rect) = length faces_rect).
      { unfold enumerate. rewrite length_zip_with, length_seq. lia. }
      rewrite <- Hlen. apply count_events_concat. eapply Forall2_impl; [exact Hevs|].
      intros x ev (_ & Hd & _). exact Hd.
    + assert (Hlen : length (enumerate faces_rect) = length faces_rect).
      { unfold enumerate. rewrite length_zip_with, length_seq. lia. }
      rewrite <- Hlen. apply count_events_concat. eapply Forall2_impl; [exact Hevs|].
      intros x ev (_ & _ & Hp). exact Hp.
Qed.
(** *** One file *)

Lemma main_file_run_drawable filename content (h : heap) :
  str_endswith_any filename ["jpg"; "JPG"]%string = true ->
  cv2_imread [path; dir; filename] = Some content ->
  Forall (drawable face_detector landmarks_predictor content) (face_detector content) ->
  exists h' ev,
    main_file' filename h = (Ok tt, h', ev)
    /\ written_files ev
       = ('(idx, _) ← enumerate (face_detector content); files_of_face path dir filename idx)
    /\ count_events is_detect ev = (1 + 6 * length (face_detector content))%nat
    /\ count_events is_predict ev = (6 * length (face_detector content))%nat.
Proof.
  intros Hsel Hread Hall. unfold main_file. rewrite Hsel.
  run_step ltac:(reflexivity).
  run_step ltac:(unfold load_img; rewrite Hread; reflexivity).
  run_step ltac:(apply faces_detect_run, lookup_insert_eq).
  destruct (decide (face_detector content = [])) as [Hnil|Hne].
  - rewrite bool_decide_eq_false_2 by (intros Hne; exact (Hne Hnil)).
    rewrite Hnil. eexists _, _. split; [reflexivity|]. repeat split.
  - rewrite bool_decide_eq_true_2 by exact Hne.
    destruct (face_loops_drawable filename (fresh (dom h)) content (face_detector content)
                (<[fresh (dom h) := content]> h) (lookup_insert_eq _ _ _) Hall)
      as (h' & ev & Hrun & Hfiles & Hd & Hp).
    rewrite Hrun. eexists _, _. split; [reflexivity|].
    rewrite !written_files_app, !count_events_app, Hfiles, Hd, Hp. repeat split.
Qed.

(** X12. A selected file in which the detector finds no face: the run of
    the file returns after the log line and the detection; the loops over
    the faces are not entered and nothing is written. *)
Theorem main_file_without_faces filename content (h : heap) :
  str_endswith_any filename ["jpg"; "JPG"]%string = true ->
  cv2_imread [path; dir; filename] = Some content ->
  face_detector content = [] ->
  main_file' filename h
  = (Ok tt, <[fresh (dom h) := content]> h,
     [LogInfo ("processing: " +:+ filename); Detect content]).
Proof.
  intros Hsel Hread Hnil. unfold main_file. rewrite Hsel.
  run_step ltac:(reflexivity).
  run_step ltac:(unfold load_img; rewrite Hread; reflexivity).
  run_step ltac:(apply faces_detect_run, lookup_insert_eq).
  rewrite Hnil. reflexivity.
Qed.

(** X13. A selected file all of whose faces are drawable: the run of the
    file returns; it writes nine files for each face, in the order of the
    loops (faces, then colours, then the lines and the points of [full]
    and the lines of [partial]), and it runs the detector once on the image
    and six times for each face, on the same crop, and the predictor six
    times for each face. *)
Theorem main_file_drawable_faces filename content (h : heap) :
  str_endswith_any filename ["jpg"; "JPG"]%string = true ->
  cv2_imread [path; dir; filename] = Some content ->
  Forall (drawable face_detector landmarks_predictor content) (face_detector content) ->
  exists h' ev,
    main_file' filename h = (Ok tt, h', ev)
    /\ written_files ev
       = ('(idx, _) ← enumerate (face_detector content); files_of_face path dir filename idx)
    /\ length (written_files ev) = (9 * length (face_detector content))%nat
    /\ count_events is_detect ev = (1 + 6 * length (face_detector content))%nat
    /\ count_events is_predict ev = (6 * length (face_detector content))%nat.
Proof.
  intros Hsel Hread Hall.
  destruct (main_file_run_drawable filename content h Hsel Hread Hall)
    as (h' & ev & Hrun & Hfiles & Hd & Hp).
  exists h', ev. split; [exact Hrun|]. split; [exact Hfiles|]. split; [|split; assumption].
  rewrite Hfiles.
  assert (Hlen : length (enumerate (face_detector content)) = length (face_detector content)).
  { unfold enumerate. rewrite length_zip_with, length_seq. lia. }
  rewrite <- Hlen. apply length_bind_const. intros [idx face_rect]. reflexivity.
Qed.

(** X14. In the run of a file whose faces are all drawable no output
    file is written twice: every drawing of every face gets a file of its
    own. *)
Theorem main_file_writes_distinct_files filename content (h : heap) :
  str_endswith_any filename ["jpg"; "JPG"]%string = true ->
  cv2_imread [path; dir; filename] = Some content ->
  Forall (drawable face_detector landmarks_predictor content) (face_detector content) ->
  exists h' ev,
    main_file' filename h = (Ok tt, h', ev) /\ NoDup (written_files ev).
Proof.
  intros Hsel Hread Hall.
  destruct (main_file_run_drawable filename content h Hsel Hread Hall)
    as (h' & ev & Hrun & Hfiles & _).
  exists h', ev. split; [exact Hrun|]. rewrite Hfiles. apply NoDup_files_of_faces.
Qed.

(** *** The batch *)

(** X15. When every selected file of the directory is read and all its
    faces are drawable, [main] returns, and the files it writes are those of
    the faces of the selected files, file after file in the order of the
    listing. *)
Theorem main_writes_files_of_every_face (h : heap) :
  Forall (fun filename =>
            str_endswith_any filename ["jpg"; "JPG"]%string = true ->
            exists content,
              cv2_imread [path; dir; filename] = Some content
              /\ Forall (drawable face_detector landmarks_predictor content)
                        (face_detector content))
         (os_listdir [path; dir]) ->
  exists h' ev,
    main' h = (Ok tt, h', ev)
    /\ written_files ev
       = (filename ← os_listdir [path; dir];
          if str_endswith_any filename ["jpg"; "JPG"]%string then
            match cv2_imread [path; dir; filename] with
            | Some content =>
                '(idx, _) ← enumerate (face_detector content);
                files_of_face path dir filename idx
            | None => []
            end
          else []).
Proof.
  intros Hall. unfold main.
  destruct (for_run_all (fun _ => True)
              (fun filename ev =>
                 written_files ev
                 = if str_endswith_any filename ["jpg"; "JPG"]%string then
                     match cv2_imread [path; dir; filename] with
                     | Some content =>
                         '(idx, _) ← enumerate (face_detector content);
                         files_of_face path dir filename idx
                     | None => []
                     end
                   else [])
              main_file' (os_listdir [path; dir])) with h as (h' & evs & Hrun & _ & Hevs);
    [|exact Logic.I|].
  - intros filename h0 Hin _.
    pose proof (proj1 (Forall_forall _ _) Hall filename Hin) as Hfile.
    destruct (str_endswith_any filename ["jpg"; "JPG"]%string) eqn:Hsel.
    + destruct (Hfile Hsel) as (content & Hread & Hfaces).
      destruct (main_file_run_drawable filename content h0 Hsel Hread Hfaces)
        as (h1 & ev & Hrun & Hfiles & _).
      exists h1, ev. rewrite Hread. done.
    + exists h0, []. unfold main_file. rewrite Hsel. done.
  - exists h', (concat evs). split; [exact Hrun|].
    exact (written_files_concat _ _ _ Hevs).
Qed.

(** X16. The loop body draws on copies.  An iteration that returns ends
    in the store it started from with three arrays more (two for the
    [partial] topology), at locations that were free: the crop as it was
    cut, the crop with the lines, and the crop with the points, which are
    drawn on the crop without the lines.  The loaded image, the crop and
    every array that existed hold afterwards what they held before, whatever
    the rasterisers draw. *)
Theorem main_body_draws_on_copies filename img content idx face_rect colors polyline_key
    (h : heap) newLeft newTop newRight newBottom first others :
  h !! img = Some content ->
  edit_boundaries (rect_to_tuple face_rect) (shape content)
  = Ok [newLeft; newTop; newRight; newBottom] ->
  face_detector (crop content newTop newBottom newLeft newRight) = first :: others ->
  polyline_key ∈ dict_keys face_polyline_segments ->
  let face := crop content newTop newBottom newLeft newRight in
  let landmarks := landmarks_predictor face first in
  (68 <= length landmarks)%nat ->
  exists segments polylines l_face l_lined l_dotted (h' : gmap positive image) ev,
    dict_getitem face_polyline_segments polyline_key = Ok segments
    /\ define_polylines landmarks segments = Ok polylines
    /\ main_body' filename (Some img) idx face_rect colors polyline_key h = (Ok tt, h', ev)
    /\ h !! l_face = None /\ h !! l_lined = None /\ h !! l_dotted = None
    /\ l_face <> l_lined /\ l_face <> l_dotted /\ l_lined <> l_dotted
    /\ h' = (if String.eqb polyline_key "full"
             then <[l_dotted := foldl (fun acc coor =>
                                         cv2_circle acc coor 1 colors dot_thickness)
                                      face (map (fun p => (point_x p, point_y p)) landmarks)]>
                    (<[l_lined := cv2_polylines face polylines false colors line_thickness
                                                cv2_LINE_AA]>
                       (<[l_face := face]> h))
             else <[l_lined := cv2_polylines face polylines false colors line_thickness
                                             cv2_LINE_AA]>
                    (<[l_face := face]> h))
    /\ h' !! img = Some content
    /\ h' !! l_face = Some face
    /\ h' !! l_lined
       = Some (cv2_polylines face polylines false colors line_thickness cv2_LINE_AA)
    /\ (String.eqb polyline_key "full" = true ->
        h' !! l_dotted
        = Some (foldl (fun acc coor => cv2_circle acc coor 1 colors dot_thickness)
                      face (map (fun p => (point_x p, point_y p)) landmarks)))
    /\ forall l c, h !! l = Some c -> h' !! l = Some c.
Proof.
  intros Hh Hedit Hdet Hkey face landmarks H68.
  destruct (dict_getitem_keys _ Hkey) as [segments Hdict].
  destruct (proj1 (define_polylines_table landmarks _ _ Hdict) H68) as [polylines Hpoly].
  pose proof (main_body_run_store filename img content idx face_rect colors polyline_key h
                _ _ _ _ _ _ _ _ Hh Hedit Hdet Hdict Hpoly) as Hrun.
  cbv zeta in Hrun. fold face in Hrun. fold landmarks in Hrun.
  set (lined := cv2_polylines face polylines false colors line_thickness cv2_LINE_AA) in *.
  set (dotted := foldl (fun acc coor => cv2_circle acc coor 1 colors dot_thickness)
                       face (map (fun p => (point_x p, point_y p)) landmarks)) in *.
  set (l_face := fresh (dom h)) in *.
  set (h1 := <[l_face := face]> h) in *.
  set (l_lined := fresh (dom h1)) in *.
  set (h2 := <[l_lined := lined]> h1) in *.
  set (l_dotted := fresh (dom h2)) in *.
  assert (Hf1 : h !! l_face = None) by apply (alloc_fresh face).
  assert (Hf2 : h1 !! l_lined = None) by apply (alloc_fresh lined).
  assert (Hf3 : h2 !! l_dotted = None) by apply (alloc_fresh dotted).
  apply lookup_insert_None in Hf2 as [Hf2 Hne12].
  apply lookup_insert_None in Hf3 as [Hf3 Hne23].
  apply lookup_insert_None in Hf3 as [Hf3 Hne13].
  assert (Himg1 : img <> l_face) by (intros ->; congruence).
  assert (Himg2 : img <> l_lined) by (intros ->; congruence).
  assert (Himg3 : img <> l_dotted) by (intros ->; congruence).
  exists segments, polylines, l_face, l_lined, l_dotted. eexists _, _.
  split; [exact Hdict|]. split; [exact Hpoly|]. split; [exact Hrun|].
  split; [exact Hf1|]. split; [exact Hf2|]. split; [exact Hf3|].
  split; [exact Hne12|]. split; [exact Hne13|]. split; [exact Hne23|].
  split; [reflexivity|].
  subst h2 h1.
  destruct (String.eqb polyline_key "full").
  - split; [rewrite !lookup_insert_ne by congruence; exact Hh|].
    split; [rewrite !lookup_insert_ne by congruence; apply lookup_insert_eq|].
    split; [rewrite lookup_insert_ne by congruence; apply lookup_insert_eq|].
    split; [intros _; apply lookup_insert_eq|].
    intros l c Hl.
    rewrite !lookup_insert_ne by (intros <-; congruence). exact Hl.
  - split; [rewrite !lookup_insert_ne by congruence; exact Hh|].
    split; [rewrite lookup_insert_ne by congruence; apply lookup_insert_eq|].
    split; [apply lookup_insert_eq|].
    split; [discriminate|].
    intros l c Hl.
    rewrite !lookup_insert_ne by (intros <-; congruence). exact Hl.
Qed.

(** X17. A directory without a name that ends with [jpg] or [JPG], an
    empty directory included: [main] returns without reading a file, without
    a log line and without touching the store. *)
Theorem main_without_selected_files (h : heap) :
  Forall (fun filename => str_endswith_any filename ["jpg"; "JPG"]%string = false)
         (os_listdir [path; dir]) ->
  main' h = (Ok tt, h, []).
Proof.
  unfold main. induction (os_listdir [path; dir]) as [|filename files IH]; intros Hall.
  - reflexivity.
  - apply Forall_cons in Hall as [Hsel Hall].
    erewrite for_run_cons by (unfold main_file; rewrite Hsel; reflexivity).
    rewrite (IH Hall). reflexivity.
Qed.

(** X18. [main] stops at the first file whose run raises: the exception is
    the one of that file, the trace holds what the files before it and the
    file itself did, and the files after it are not looked at. *)
Theorem main_stops_at_first_failing_file (before after : list string) (filename : string)
    (h h1 h2 : heap) (ev1 ev2 : list event) (e : exn) :
  os_listdir [path; dir] = before ++ filename :: after ->
  for_ before main_file' h = (Ok tt, h1, ev1) ->
  main_file' filename h1 = (Raise e, h2, ev2) ->
  main' h = (Raise e, h2, ev1 ++ ev2).
Proof.
  intros Hlist Hbefore Hfile. unfold main. rewrite Hlist.
  rewrite (for_run_app _ _ _ _ _ _ Hbefore), (for_run_raise _ _ _ _ _ _ _ Hfile).
  reflexivity.
Qed.
End Batch.

(** ** Concrete runs of the batch *)

Lemma toy_faces_drawable :
  Forall (drawable toy_detector toy_predictor (toy_image 8)) (toy_detector (toy_image 8)).
Proof.
  repeat constructor.
  - exists 0, 0, 8, 8, toy_face,
      [ {| rect_left := 1; rect_top := 1; rect_right := 7; rect_bottom := 7 |} ].
    split; [vm_compute; reflexivity|]. split; [reflexivity | vm_compute; lia].
  - exists 0, 0, 8, 8, toy_face,
      [ {| rect_left := 1; rect_top := 1; rect_right := 7; rect_bottom := 7 |} ].
    split; [vm_compute; reflexivity|]. split; [reflexivity | vm_compute; lia].
Qed.

Lemma main_body_returns_iff_68_landmarks_witness :
  let face := crop (toy_image 8) 0 8 0 8 in
  let landmarks := toy_predictor face toy_face in
  let h : gmap positive image := {[ 1%positive := toy_image 8 ]} in
  ((exists h' ev,
      main_body "/srv" "photos" toy_detector toy_predictor toy_circle toy_polylines
        "b.jpg" (Some 1%positive) 0 toy_face [255; 0; 255] "full" h = (Ok tt, h', ev))
   <-> (68 <= length landmarks)%nat)
  /\ ((length landmarks < 68)%nat ->
      main_body "/srv" "photos" toy_detector toy_predictor toy_circle toy_polylines
        "b.jpg" (Some 1%positive) 0 toy_face [255; 0; 255] "full" h
      = (Raise IndexError, <[fresh (dom h) := face]> h,
         [LogInfo ("lines: " +:+ "b.jpg" +:+ ", colors: " +:+ "full");
          Detect face; Predict face toy_face])).
Proof.
  apply (main_body_returns_iff_68_landmarks "/srv" "photos" toy_detector toy_predictor
           toy_circle toy_polylines "b.jpg" 1%positive (toy_image 8) 0%nat toy_face
           [255; 0; 255] "full" {[ 1%positive := toy_image 8 ]} 0 0 8 8 toy_face
           [ {| rect_left := 1; rect_top := 1; rect_right := 7; rect_bottom := 7 |} ]).
  - reflexivity.
  - vm_compute. reflexivity.
  - reflexivity.
  - apply list_elem_of_here.
Defined.

Lemma main_file_without_faces_witness :
  main_file "/srv" "photos" (fun _ => Some (toy_image 3)) toy_detector toy_predictor
    toy_circle toy_polylines "c.jpg" ∅
  = (Ok tt, <[fresh (dom (∅ : gmap positive image)) := toy_image 3]> ∅,
     [LogInfo ("processing: " +:+ "c.jpg"); Detect (toy_image 3)]).
Proof.
  apply (main_file_without_faces "/srv" "photos" (fun _ => Some (toy_image 3)) toy_detector
           toy_predictor toy_circle toy_polylines "c.jpg" (toy_image 3) ∅);
    reflexivity.
Defined.

Lemma main_file_drawable_faces_witness :
  exists h' ev,
    main_file "/srv" "photos" toy_imread toy_detector toy_predictor toy_circle toy_polylines
      "b.jpg" ∅ = (Ok tt, h', ev)
    /\ written_files ev
       = ('(idx, _) ← enumerate (toy_detector (toy_image 8));
          files_of_face "/srv" "photos" "b.jpg" idx)
    /\ length (written_files ev) = (9 * length (toy_detector (toy_image 8)))%nat
    /\ count_events is_detect ev = (1 + 6 * length (toy_detector (toy_image 8)))%nat
    /\ count_events is_predict ev = (6 * length (toy_detector (toy_image 8)))%nat.
Proof.
  apply (main_file_drawable_faces "/srv" "photos" toy_imread toy_detector toy_predictor
           toy_circle toy_polylines "b.jpg" (toy_image 8) ∅).
  - reflexivity.
  - reflexivity.
  - exact toy_faces_drawable.
Defined.

Lemma main_file_writes_distinct_files_witness :
  exists h' ev,
    main_file "/srv" "photos" toy_imread toy_detector toy_predictor toy_circle toy_polylines
      "b.jpg" ∅ = (Ok tt, h', ev)
    /\ NoDup (written_files ev).
Proof.
  apply (main_file_writes_distinct_files "/srv" "photos" toy_imread toy_detector
           toy_predictor toy_circle toy_polylines "b.jpg" (toy_image 8) ∅).
  - reflexivity.
  - reflexivity.
  - exact toy_faces_drawable.
Defined.

Lemma main_writes_files_of_every_face_witness :
  exists h' ev,
    toy_main_b ∅ = (Ok tt, h', ev)
    /\ written_files ev
       = (filename ← ["b.jpg"%string];
          if str_endswith_any filename ["jpg"; "JPG"]%string then
            match toy_imread ["/srv"; "photos"; filename]%string with
            | Some content =>
                '(idx, _) ← enumerate (toy_detector content);
                files_of_face "/srv" "photos" filename idx
            | None => []
            end
          else []).
Proof.
  apply (main_writes_files_of_every_face "/srv" "photos" (fun _ => ["b.jpg"%string])
           toy_imread toy_detector toy_predictor toy_circle toy_polylines ∅).
  repeat constructor. intros _. exists (toy_image 8).
  split; [reflexivity | exact toy_faces_drawable].
Defined.

Lemma main_body_draws_on_copies_witness :
  let face := crop (toy_image 8) 0 8 0 8 in
  let landmarks := toy_predictor face toy_face in
  let h : gmap positive image := {[ 1%positive := toy_image 8 ]} in
  exists segments polylines l_face l_lined l_dotted (h' : gmap positive image) ev,
    dict_getitem face_polyline_segments "full" = Ok segments
    /\ define_polylines landmarks segments = Ok polylines
    /\ main_body "/srv" "photos" toy_detector toy_predictor toy_circle toy_polylines
         "b.jpg" (Some 1%positive) 0 toy_face [255; 0; 255] "full" h = (Ok tt, h', ev)
    /\ h !! l_face = None /\ h !! l_lined = None /\ h !! l_dotted = None
    /\ l_face <> l_lined /\ l_face <> l_dotted /\ l_lined <> l_dotted
    /\ h' = (if String.eqb "full" "full"
             then <[l_dotted := foldl (fun acc coor =>
                                         toy_circle acc coor 1 [255; 0; 255] dot_thickness)
                                      face (map (fun p => (point_x p, point_y p)) landmarks)]>
                    (<[l_lined := toy_polylines face polylines false [255; 0; 255]
                                                line_thickness cv2_LINE_AA]>
                       (<[l_face := face]> h))
             else <[l_lined := toy_polylines face polylines false [255; 0; 255]
                                             line_thickness cv2_LINE_AA]>
                    (<[l_face := face]> h))
    /\ h' !! 1%positive = Some (toy_image 8)
    /\ h' !! l_face = Some face
    /\ h' !! l_lined
       = Some (toy_polylines face polylines false [255; 0; 255] line_thickness cv2_LINE_AA)
    /\ (String.eqb "full" "full" = true ->
        h' !! l_dotted
        = Some (foldl (fun acc coor => toy_circle acc coor 1 [255; 0; 255] dot_thickness)
                      face (map (fun p => (point_x p, point_y p)) landmarks)))
    /\ forall l c, h !! l = Some c -> h' !! l = Some c.
Proof.
  apply (main_body_draws_on_copies "/srv" "photos" toy_detector toy_predictor
           toy_circle toy_polylines "b.jpg" 1%positive (toy_image 8) 0%nat toy_face
           [255; 0; 255] "full" {[ 1%positive := toy_image 8 ]} 0 0 8 8 toy_face
           [ {| rect_left := 1; rect_top := 1; rect_right := 7; rect_bottom := 7 |} ]).
  - reflexivity.
  - vm_compute. reflexivity.
  - reflexivity.
  - apply list_elem_of_here.
  - vm_compute. lia.
Defined.

Lemma main_without_selected_files_witness :
  main "/srv" "photos" (fun _ => ["notes.txt"; "IMG_1.Jpg"]%string) toy_imread toy_detector
    toy_predictor toy_circle toy_polylines ∅
  = (Ok tt, ∅, []).
Proof.
  apply (main_without_selected_files "/srv" "photos"
           (fun _ => ["notes.txt"; "IMG_1.Jpg"]%string) toy_imread toy_detector
           toy_predictor toy_circle toy_polylines ∅).
  repeat constructor.
Defined.

Lemma main_stops_at_first_failing_file_witness :
  let main_file' :=
    main_file "/srv" "photos" toy_imread toy_detector toy_predictor toy_circle toy_polylines in
  let run_b := for_ ["b.jpg"%string] main_file' ∅ in
  let run_a := main_file' "a.jpg"%string run_b.1.2 in
  main "/srv" "photos" (fun _ => ["b.jpg"; "a.jpg"; "b.jpg"]%string) toy_imread toy_detector
    toy_predictor toy_circle toy_polylines ∅
  = (Raise IndexError, run_a.1.2, run_b.2 ++ run_a.2).
Proof.
  intros main_file' run_b run_a.
  apply (main_stops_at_first_failing_file "/srv" "photos"
           (fun _ => ["b.jpg"; "a.jpg"; "b.jpg"]%string) toy_imread toy_detector
           toy_predictor toy_circle toy_polylines ["b.jpg"%string] ["b.jpg"%string]
           "a.jpg"%string ∅ run_b.1.2 run_a.1.2 run_b.2 run_a.2 IndexError).
  - reflexivity.
  - vm_compute. reflexivity.
  - vm_compute. reflexivity.
Defined.
